(** * generator-oada: the scaffolding generator, embedded and verified

    The repository holds two variants of one Yeoman generator:
    [app/index.js] (with feature flags, stored answers and skip-if-exists
    writes) and a second, simpler variant without them.  Both are
    method bags run phase by phase ([initializing], [prompting],
    [configuring], [writing], [install]) over the shared fields [this.conf],
    [this.context], [this.config] and [this.fs].

    JavaScript strings are modelled as [string]: one [ascii] per code unit,
    read as the code points U+0000 to U+00FF. *)

From Stdlib Require Import ZArith Ascii String List Lia.
From stdpp Require Import base option list strings gmap pretty.

Local Open Scope Z_scope.
Set Warnings "-register-all".

(** ** JavaScript strings *)

Module JsString.

Definition is_line_terminator (c : ascii) : bool :=
  Ascii.eqb c "010" || Ascii.eqb c "013".

(** [s.indexOf(c) !== -1] for a one-character needle. *)
Fixpoint contains (c : ascii) (s : string) : bool :=
  match s with
  | "" => false
  | String d rest => if Ascii.eqb c d then true else contains c rest
  end.

(** [s] with the prefix [p] taken off, when [s] starts with [p]. *)
Fixpoint drop_prefix (p s : string) : option string :=
  match p, s with
  | "", _ => Some s
  | String a p', String b s' =>
      if Ascii.eqb a b then drop_prefix p' s' else None
  | String _ _, "" => None
  end.

Definition starts_with (p s : string) : bool :=
  match drop_prefix p s with Some _ => true | None => false end.

(** [String.prototype.toUpperCase] on one code unit.  The letters of
    U+0000..U+00FF are mapped as Unicode maps them; U+00DF upper-cases to
    two letters.  U+00B5 and U+00FF, whose upper-case forms lie above
    U+00FF, are kept: text holding them is outside this model. *)
Definition toUpperCase (c : ascii) : string :=
  let n := N_of_ascii c in
  if ((97 <=? n) && (n <=? 122))%N then String (ascii_of_N (n - 32)) ""
  else if (n =? 223)%N then "SS"
  else if ((224 <=? n) && (n <=? 254) && negb (n =? 247))%N
       then String (ascii_of_N (n - 32)) ""
  else String c "".

End JsString.

(** ** The names derived from the library name

    Both variants derive them in the callback of [prompting.general]:
<<
    this.context.packageName = ans.libName
            .replace(/^node-/, '')
            .replace(/[.-]?js$/, '');
    this.context.varName = this.context.packageName
            .replace(/[-_.](.)/g, function(m, p) { return p.toUpperCase(); });
>>
*)

Module Names.
Import JsString.

(** [s.replace(/^node-/, '')]: the pattern is anchored at the start, so it
    matches at most once. *)
Definition strip_node (s : string) : string :=
  match drop_prefix "node-" s with
  | Some rest => rest
  | None => s
  end.

(** Does [/[.-]?js$/] match with its left end at the start of [s]?  The
    optional class is tried first and given up on failure; [$] has no
    [m] flag and holds at the end of the text only. *)
Definition js_suffix_here (s : string) : bool :=
  String.eqb s ".js" || String.eqb s "-js" || String.eqb s "js".

(** [s.replace(/[.-]?js$/, '')]: the leftmost match is replaced, once. *)
Fixpoint strip_js (s : string) : string :=
  if js_suffix_here s then ""
  else match s with
       | "" => ""
       | String c rest => String c (strip_js rest)
       end.

Definition packageName (libName : string) : string :=
  strip_js (strip_node libName).

Definition is_separator (c : ascii) : bool :=
  Ascii.eqb c "-" || Ascii.eqb c "_" || Ascii.eqb c ".".

(** [s.replace(/[-_.](.)/g, function(m, p) { return p.toUpperCase(); })]:
    matches are taken left to right without overlap; [.] is any code unit
    but a line terminator. *)
Fixpoint camel (s : string) : string :=
  match s with
  | "" => ""
  | String c rest =>
      if is_separator c then
        match rest with
        | String p rest' =>
            if is_line_terminator p then String c (camel rest)
            else toUpperCase p +:+ camel rest'
        | "" => String c ""
        end
      else String c (camel rest)
  end.

Definition varName (packageName : string) : string := camel packageName.

End Names.

Import JsString Names.

(** ** JavaScript values, exceptions and JSON text *)

Module Js.

(** The values that reach the generator: JSON data read from
    [package.json], configuration strings, prompt answers.  A number is an
    integer here, below 10^21 in size (from there on JavaScript prints a
    number with an exponent); an object keeps its properties in insertion
    order. *)
Inductive value :=
| VUndefined
| VNull
| VBool (b : bool)
| VNum (n : Z)
| VStr (s : string)
| VArr (elems : list value)
| VObj (props : list (string * value)).

(** What is thrown or handed to a callback as [err]: a [TypeError] of the
    language, or an [Error] made by a library. *)
Inductive exn :=
| TypeError (msg : string)
| Error (msg : string).

Inductive result (A : Type) :=
| Ok (a : A)
| Throw (e : exn).
Arguments Ok {A} a.
Arguments Throw {A} e.

(** ToBoolean. *)
Definition truthy (v : value) : bool :=
  match v with
  | VUndefined | VNull => false
  | VBool b => b
  | VNum n => negb (n =? 0)
  | VStr s => negb (String.eqb s "")
  | VArr _ | VObj _ => true
  end.

(** [a || b] and [a && b] on values already computed. *)
Definition or (a b : value) : value := if truthy a then a else b.
Definition and (a b : value) : value := if truthy a then b else a.

Definition is_undefined (v : value) : bool :=
  match v with VUndefined => true | _ => false end.

(** [v == null]. *)
Definition is_nullish (v : value) : bool :=
  match v with VUndefined | VNull => true | _ => false end.

(** [typeof v === 'object']: objects, arrays and [null]. *)
Definition typeof_object (v : value) : bool :=
  match v with VNull | VArr _ | VObj _ => true | _ => false end.

Fixpoint assoc (k : string) (props : list (string * value)) : value :=
  match props with
  | [] => VUndefined
  | (k', v) :: rest => if String.eqb k k' then v else assoc k rest
  end.

(** [o.k] for the property names the generator reads ([author], [name],
    [email], [url], [repository], [version], [main], [description],
    [user]): none of them is a built-in of a primitive or of an array. *)
Definition get (o : value) (k : string) : result value :=
  match o with
  | VUndefined | VNull =>
      Throw (TypeError ("Cannot read property '" +:+ k +:+ "'"))
  | VObj props => Ok (assoc k props)
  | _ => Ok VUndefined
  end.

(** [o[k] = v] on an insertion-ordered object. *)
Fixpoint put (k : string) (v : value) (props : list (string * value))
  : list (string * value) :=
  match props with
  | [] => [(k, v)]
  | (k', v') :: rest =>
      if String.eqb k k' then (k, v) :: rest else (k', v') :: put k v rest
  end.

Fixpoint join (sep : string) (l : list string) : string :=
  match l with
  | [] => ""
  | [s] => s
  | s :: rest => s +:+ sep +:+ join sep rest
  end.

(** ToString, as [+] applies it to an operand next to a string. *)
Fixpoint to_string (v : value) : string :=
  match v with
  | VUndefined => "undefined"
  | VNull => "null"
  | VBool b => if b then "true" else "false"
  | VNum n => pretty n
  | VStr s => s
  | VArr elems =>
      join "," ((fix go (l : list value) : list string :=
                   match l with
                   | [] => []
                   | x :: l' =>
                       (if is_nullish x then "" else to_string x) :: go l'
                   end) elems)
  | VObj _ => "[object Object]"
  end.

Definition hex_digit (n : N) : ascii :=
  ascii_of_N (if (n <? 10)%N then 48 + n else 87 + n).

(** The double quote, U+0022. *)
Definition dquote : ascii := "034"%char.

(** One code unit inside a JSON string literal. *)
Definition quote_char (c : ascii) : string :=
  match c with
  | "034"%char => String "\" (String dquote "")
  | "\"%char => "\\"
  | "008"%char => "\b"
  | "012"%char => "\f"
  | "010"%char => "\n"
  | "013"%char => "\r"
  | "009"%char => "\t"
  | _ =>
      let n := N_of_ascii c in
      if (n <? 32)%N
      then "\u00" +:+ String (hex_digit (n / 16)) (String (hex_digit (n mod 16)) "")
      else String c ""
  end.

Fixpoint quote_body (s : string) : string :=
  match s with
  | "" => ""
  | String c rest => quote_char c +:+ quote_body rest
  end.

Definition quote (s : string) : string :=
  String dquote (quote_body s +:+ String dquote "").

Definition newline : string := String "010" "".

(** The brackets around the serialized members of an array or object:
    [gap] is the indentation unit, [ind] the indentation outside. *)
Definition wrap (open close gap ind : string) (items : list string) : string :=
  match items with
  | [] => open +:+ close
  | _ =>
      if String.eqb gap "" then open +:+ join "," items +:+ close
      else open +:+ newline +:+ ind +:+ gap
             +:+ join ("," +:+ newline +:+ ind +:+ gap) items
             +:+ newline +:+ ind +:+ close
  end.

(** [JSON.stringify(v, null, gap)] below indentation [ind]; [None] is the
    [undefined] it yields for a value that has no JSON text.  A property
    whose value has none is left out; an array element becomes [null]. *)
Fixpoint stringify_at (gap ind : string) (v : value) : option string :=
  match v with
  | VUndefined => None
  | VNull => Some "null"
  | VBool b => Some (if b then "true" else "false")
  | VNum n => Some (pretty n)
  | VStr s => Some (quote s)
  | VArr elems =>
      Some (wrap "[" "]" gap ind
        ((fix go (l : list value) : list string :=
            match l with
            | [] => []
            | x :: l' =>
                default "null" (stringify_at gap (ind +:+ gap) x) :: go l'
            end) elems))
  | VObj props =>
      Some (wrap "{" "}" gap ind
        ((fix go (l : list (string * value)) : list string :=
            match l with
            | [] => []
            | (k, x) :: l' =>
                match stringify_at gap (ind +:+ gap) x with
                | Some s =>
                    (quote k +:+ (if String.eqb gap "" then ":" else ": ") +:+ s)
                      :: go l'
                | None => go l'
                end
            end) props))
  end.

Fixpoint spaces (n : nat) : string :=
  match n with
  | O => ""
  | S n' => String " " (spaces n')
  end.

Definition stringify (v : value) (indent : nat) : option string :=
  stringify_at (spaces indent) "" v.

(** [s.replace(/\n/g, '\n  ')]. *)
Fixpoint indent_newlines (s : string) : string :=
  match s with
  | "" => ""
  | String c rest =>
      if Ascii.eqb c "010" then String c ("  " +:+ indent_newlines rest)
      else String c (indent_newlines rest)
  end.

(** [objectAssign(target, source)] on insertion-ordered objects. *)
Definition assign_props (target source : list (string * value))
  : list (string * value) :=
  fold_left (fun acc kv => put kv.1 kv.2 acc) source target.

End Js.

Import Js.

(** ** [new Buffer(str).toString('base64')] *)

Module Base64.

(** The UTF-8 bytes of a string of code points below U+0100. *)
Definition utf8_char (c : ascii) : list Z :=
  let n := Z.of_N (N_of_ascii c) in
  if n <? 128 then [n]
  else [Z.lor 192 (Z.shiftr n 6); Z.lor 128 (Z.land n 63)].

Fixpoint utf8 (s : string) : list Z :=
  match s with
  | "" => []
  | String c rest => utf8_char c ++ utf8 rest
  end.

Definition digit (n : Z) : ascii :=
  if n <? 26 then ascii_of_N (Z.to_N (65 + n))
  else if n <? 52 then ascii_of_N (Z.to_N (97 + (n - 26)))
  else if n <? 62 then ascii_of_N (Z.to_N (48 + (n - 52)))
  else if n =? 62 then "+"%char
  else "/"%char.

Fixpoint encode (bytes : list Z) : string :=
  match bytes with
  | [] => ""
  | [a] =>
      String (digit (Z.shiftr a 2))
        (String (digit (Z.shiftl (Z.land a 3) 4)) "==")
  | [a; b] =>
      String (digit (Z.shiftr a 2))
        (String (digit (Z.lor (Z.shiftl (Z.land a 3) 4) (Z.shiftr b 4)))
          (String (digit (Z.shiftl (Z.land b 15) 2)) "="))
  | a :: b :: c :: rest =>
      String (digit (Z.shiftr a 2))
        (String (digit (Z.lor (Z.shiftl (Z.land a 3) 4) (Z.shiftr b 4)))
          (String (digit (Z.lor (Z.shiftl (Z.land b 15) 2) (Z.shiftr c 6)))
            (String (digit (Z.land c 63)) (encode rest))))
  end.

Definition base64 (s : string) : string := encode (utf8 s).

End Base64.

(** ** The generator object and its collaborators *)

Module Gen.

(** What lies outside the generator: the destination directory, the two
    configuration loaders, the operator at the terminal, the template
    catalog with its renderer, the encryption service, the clock and the
    directory maker. *)
Record world := {
  destinationRoot : string;
  (** The text the operator enters at the input question of that name,
      once the prompt engine accepts it; empty for a bare return. *)
  typed : string -> string;
  (** The choice made at the confirm question of that name; [None] for a
      bare return. *)
  confirmed : string -> option bool;
  (** What the global prompt store of the host keeps under the name of a
      question flagged [store: true]; [undefined] when it keeps nothing
      there. *)
  promptValues : string -> value;
  (** The file of that store, and the text that the host writes there,
      through [this.fs], when it saves the answers to the flagged
      questions of a prompt, handed over with the name and the default of
      each; [None] when it finds nothing to write. *)
  globalConfigPath : string;
  promptValues_text : list (string * value * value) -> option string;
  (** [(err, conf)] handed to the callback of [gitconf]: the sections of
      the git configuration, each a table of strings. *)
  gitconf : exn + gmap string (gmap string string);
  (** [(err, conf)] handed to the callback of [npmconf.load]; [conf.get]
      is a lookup. *)
  npmconf : exn + gmap string string;
  (** [JSON.parse]; [None] when it throws. *)
  JSON_parse : string -> option value;
  (** What [this.fs.readJSON] throws for the file at that path when its
      content does not parse: the message is the library's. *)
  parse_failure : string -> string -> exn;
  (** Content of the template file at a path below the template root. *)
  template : string -> string;
  (** The properties of a template file that holds a JSON object
      ([jshintrc], [test/jshintrc-mocha]), as [readJSON] returns them. *)
  template_json : string -> list (string * value);
  (** The template engine behind [copyTpl]. *)
  render : string -> gmap string value -> string;
  (** [(err, blob)] handed to the callback of
      [encrypt(slug, data, undefined, undefined, cb)]. *)
  encrypt : string -> string -> exn + string;
  (** [(new Date(Date.now())).getFullYear()]. *)
  fullYear : Z;
  (** [err] handed to the callback of [mkdirp]. *)
  mkdirp : string -> option exn;
  (** The text of [.yo-rc.json] for a preference store, as the storage of
      the host serializes it. *)
  store_text : gmap string value -> string
}.

(** [this.destinationPath(p)], that is [path.join(root, p)], for a
    segment [p] that [path.join] has nothing to normalize in: no empty
    segment, no [.] and no [..] (the literals of the generator are such;
    where a segment comes from the context the statements say so, see
    [plain_path]).  The root is the normalized path of a directory. *)
Definition destinationPath (w : world) (p : string) : string :=
  destinationRoot w +:+ "/" +:+ p.

Inductive kind := save | saveDev.

(** The fields of [this] that the phases read and write, with what they
    tell the outside: errors logged, calls made to the encryption
    service, writes made to the preference store, installs requested. *)
Record generator := {
  conf : gmap string value;
  context : gmap string value;
  localStore : list (string * value);
  config : gmap string value;
  fs : gmap string string;
  logged : list exn;
  encrypted : list (string * string);
  config_writes : list (string * value);
  installs : list (list string * kind)
}.

Definition set_conf (c : gmap string value) (g : generator) : generator :=
  {| conf := c; context := context g; localStore := localStore g;
     config := config g; fs := fs g; logged := logged g;
     encrypted := encrypted g; config_writes := config_writes g;
     installs := installs g |}.
Definition set_context (c : gmap string value) (g : generator) : generator :=
  {| conf := conf g; context := c; localStore := localStore g;
     config := config g; fs := fs g; logged := logged g;
     encrypted := encrypted g; config_writes := config_writes g;
     installs := installs g |}.
Definition set_localStore (l : list (string * value)) (g : generator)
  : generator :=
  {| conf := conf g; context := context g; localStore := l;
     config := config g; fs := fs g; logged := logged g;
     encrypted := encrypted g; config_writes := config_writes g;
     installs := installs g |}.
(** [this.config.set(k, v)]: the storage puts the value into the store and
    saves the store, through [this.fs], as [.yo-rc.json] in the destination
    directory. *)
Definition config_set (w : world) (k : string) (v : value) (g : generator)
  : generator :=
  {| conf := conf g; context := context g; localStore := localStore g;
     config := <[k := v]> (config g);
     fs := <[destinationPath w ".yo-rc.json"
             := store_text w (<[k := v]> (config g))]> (fs g);
     logged := logged g;
     encrypted := encrypted g;
     config_writes := config_writes g ++ [(k, v)];
     installs := installs g |}.
Definition set_fs (f : gmap string string) (g : generator) : generator :=
  {| conf := conf g; context := context g; localStore := localStore g;
     config := config g; fs := f; logged := logged g;
     encrypted := encrypted g; config_writes := config_writes g;
     installs := installs g |}.
(** [this.log(err)]. *)
Definition add_log (e : exn) (g : generator) : generator :=
  {| conf := conf g; context := context g; localStore := localStore g;
     config := config g; fs := fs g; logged := logged g ++ [e];
     encrypted := encrypted g; config_writes := config_writes g;
     installs := installs g |}.
Definition add_encrypted (slug data : string) (g : generator) : generator :=
  {| conf := conf g; context := context g; localStore := localStore g;
     config := config g; fs := fs g; logged := logged g;
     encrypted := encrypted g ++ [(slug, data)];
     config_writes := config_writes g; installs := installs g |}.
(** [this.npmInstall(pkgs, {save: true})] or [{saveDev: true}]. *)
Definition npmInstall (pkgs : list string) (k : kind) (g : generator)
  : generator :=
  {| conf := conf g; context := context g; localStore := localStore g;
     config := config g; fs := fs g; logged := logged g;
     encrypted := encrypted g; config_writes := config_writes g;
     installs := installs g ++ [(pkgs, k)] |}.

(** A generator as the run loop creates it, over the preference store and
    the files found in the destination directory. *)
Definition fresh (stored : gmap string value) (files : gmap string string)
  : generator :=
  {| conf := ∅; context := ∅; localStore := []; config := stored;
     fs := files; logged := []; encrypted := []; config_writes := [];
     installs := [] |}.

(** A step of a phase: it changes the generator and either returns or
    throws; what it changed before throwing stays changed. *)
Definition step (A : Type) : Type := generator -> result A * generator.

Definition ret {A} (a : A) : step A := fun g => (Ok a, g).
Definition throw {A} (e : exn) : step A := fun g => (Throw e, g).
Definition bind {A B} (m : step A) (k : A -> step B) : step B :=
  fun g =>
    match m g with
    | (Ok a, g') => k a g'
    | (Throw e, g') => (Throw e, g')
    end.
Definition lift {A} (r : result A) : step A := fun g => (r, g).
Definition read {A} (f : generator -> A) : step A := fun g => (Ok (f g), g).
Definition update (f : generator -> generator) : step unit :=
  fun g => (Ok tt, f g).
(** [try { body } catch (err) { handler(err) }]. *)
Definition try_catch (body : step unit) (handler : exn -> step unit)
  : step unit :=
  fun g =>
    match body g with
    | (Ok tt, g') => (Ok tt, g')
    | (Throw e, g') => handler e g'
    end.

(** [o.k] on a field of [this] that is an object: absent reads as
    [undefined]. *)
Definition field (m : gmap string value) (k : string) : value :=
  default VUndefined (m !! k).

(** [objectAssign(target, source)] into a field of [this]. *)
Definition assign (target : gmap string value) (source : list (string * value))
  : gmap string value :=
  fold_left (fun acc kv => <[kv.1 := kv.2]> acc) source target.

End Gen.

Import Gen.

(** Steps are sequenced with stdpp's [x ← m; k] and [m;; k]. *)
Global Instance step_ret : MRet step := @ret.
Global Instance step_bind : MBind step := fun A B k m => bind m k.

(** ** Phase [initializing]: the Context Resolver

    The same in both variants, but for the last step, [context], which only
    [app/index.js] has. *)

Module initializing.

(** [this.conf.k = v]. *)
Definition conf_set (k : string) (v : generator -> value) : step unit :=
  update (fun g => set_conf (<[k := v g]> (conf g)) g).

Definition conf_get (k : string) (g : generator) : value :=
  field (conf g) k.

(** [a || b] and [a && b] with the right operand evaluated on demand. *)
Definition or_else (a : value) (b : step value) : step value :=
  if truthy a then ret a else b.
Definition and_then (a : value) (b : step value) : step value :=
  if truthy a then b else ret a.

Definition default : step unit :=
  update (set_conf (<["main" := VStr "index.js"]>
                      (<["version" := VStr "0.0.0"]> ∅))).

(** Does [/^[^\/]+\/?$/] hold of [s]? *)
Fixpoint last_segment (s : string) : bool :=
  match s with
  | "" => false
  | String c rest =>
      if Ascii.eqb c "/" then false
      else match rest with
           | "" | "/" => true
           | _ => last_segment rest
           end
  end.

(** [s.match(/\/([^\/]+\/?)$/)]: the group of the leftmost match, [None]
    for [null]. *)
Fixpoint match_dir (s : string) : option string :=
  match s with
  | "" => None
  | String c rest =>
      if Ascii.eqb c "/" && last_segment rest then Some rest
      else match_dir rest
  end.

Definition dir (w : world) : step unit :=
  seg ← lift (match match_dir (destinationRoot w) with
               | Some seg => Ok (VStr seg)
               | None => Throw (TypeError "Cannot read property '1' of null")
               end);
  conf_set "libName" (fun g => or seg (conf_get "libName" g)).

(** A value of a configuration table. *)
Definition entry (o : option string) : value :=
  match o with
  | Some s => VStr s
  | None => VUndefined
  end.

Definition gitConfig (w : world) : step unit :=
  match gitconf w with
  | inl err => update (add_log err)
  | inr conf =>
      match conf !! "user" with
      | None => throw (TypeError "Cannot read property 'name' of undefined")
      | Some user =>
          conf_set "name"
            (fun g => or (entry (user !! "name")) (conf_get "name" g));;
          conf_set "email"
            (fun g => or (entry (user !! "email")) (conf_get "email" g))
      end
  end.

Definition npmConfig (w : world) : step unit :=
  match npmconf w with
  | inl err => update (add_log err)
  | inr conf =>
      conf_set "name"
        (fun g => or (entry (conf !! "name")) (conf_get "name" g));;
      conf_set "email"
        (fun g => or (entry (conf !! "email")) (conf_get "email" g));;
      conf_set "url"
        (fun g => or (entry (conf !! "url")) (conf_get "url" g));;
      conf_set "npmKey"
        (fun g => or (entry (conf !! "_auth")) (conf_get "npmKey" g))
  end.

(** [this.fs.readJSON(path, defaults)]: the defaults for a file that is
    not there, an [Error] for one that does not parse. *)
Definition readJSON (w : world) (path : string) (defaults : value)
  : step value :=
  fun g =>
    match fs g !! path with
    | None => (Ok defaults, g)
    | Some text =>
        match JSON_parse w text with
        | Some v => (Ok v, g)
        | None => (Throw (parse_failure w path text), g)
        end
    end.

(** Does [/^([^\/]+).git$/] hold of [s]?  The group when it does. *)
Fixpoint repo_tail (s : string) : option string :=
  match s with
  | "" => None
  | String c rest =>
      if Ascii.eqb c "/" then None
      else match rest with
           | String d "git" =>
               if is_line_terminator d then None else Some (String c "")
           | _ => option_map (String c) (repo_tail rest)
           end
  end.

(** [s.match(/\/([^\/]+).git$/)]: the group of the leftmost match. *)
Fixpoint match_repo (s : string) : option string :=
  match s with
  | "" => None
  | String c rest =>
      if Ascii.eqb c "/" then
        match repo_tail rest with
        | Some seg => Some seg
        | None => match_repo rest
        end
      else match_repo rest
  end.

(** [url.match(/\/([^\/]+).git$/)[1]]. *)
Definition repo_name (url : value) : result value :=
  match url with
  | VStr s =>
      match match_repo s with
      | Some seg => Ok (VStr seg)
      | None => Throw (TypeError "Cannot read property '1' of null")
      end
  | _ => Throw (TypeError "json.repository.url.match is not a function")
  end.

(** The statements of the [try] block that read the author. *)
Definition packageJson_author (json : value) : step unit :=
  author ← lift (get json "author");
  name ← and_then author (lift (get author "name"));
  conf_set "name" (fun g => or name (conf_get "name" g));;
  if typeof_object author then
    email ← lift (get author "email");
    conf_set "email" (fun g => or email (conf_get "email" g));;
    url ← lift (get author "url");
    conf_set "url" (fun g => or url (conf_get "url" g))
  else ret tt.

(** The statements after them, on the library itself. *)
Definition packageJson_library (json : value) : step unit :=
  repository ← lift (get json "repository");
  repo ← and_then repository
           (url ← lift (get repository "url");
            and_then url (lift (repo_name url)));
  libName ← or_else repo
              (name ← lift (get json "name");
               or_else name (read (conf_get "libName")));
  conf_set "libName" (fun _ => libName);;
  version ← lift (get json "version");
  conf_set "version" (fun g => or version (conf_get "version" g));;
  main ← lift (get json "main");
  conf_set "main" (fun g => or main (conf_get "main" g));;
  description ← lift (get json "description");
  conf_set "libDesc" (fun g => or description (conf_get "libDesc" g)).

Definition packageJson_body (w : world) : step unit :=
  json ← readJSON w (destinationPath w "package.json") (VObj []);
  packageJson_author json;;
  packageJson_library json.

Definition packageJson (w : world) : step unit :=
  try_catch (packageJson_body w) (fun err => update (add_log err)).

(** [this.context = objectAssign({}, this.conf)]. *)
Definition context : step unit :=
  update (fun g => set_context (conf g) g).

(** The steps of the resolver proper, in the order the run loop takes
    them. *)
Definition resolve (w : world) : step unit :=
  default;; dir w;; gitConfig w;; npmConfig w;; packageJson w.

Definition run (w : world) : step unit :=
  resolve w;; context.

End initializing.

(** ** The prompt engine, as far as the generator relies on it

    [this.prompt(questions, callback)] asks the questions in order and hands
    the answers object to the callback.  A question whose [when] is false is
    skipped and leaves no answer.  At an input question a bare return stands
    for the default ([''] when there is none); at a confirm question the
    answer is a boolean.  The question's [filter] maps what was entered to
    the answer; the prompt engine calls it twice on what was entered, once
    to show the answer and once to deliver it, so that a filter with an
    effect acts twice.  Validators only make the operator enter something
    else.

    For a question flagged [store: true] the host suggests, in place of the
    default, what its global prompt store keeps under the name of the
    question, if anything; and once the questions are answered, before the
    callback runs, it saves the answers to the flagged questions in that
    store, whose file it writes through [this.fs]. *)

Module Prompt.

Inductive qtype := input | confirm.

Record question := {
  store : bool;
  name : string;
  type : qtype;
  default : value;
  when : list (string * value) -> bool;
  filter : value -> step value
}.

Definition always (_ : list (string * value)) : bool := true.
Definition unfiltered (v : value) : step value := ret v.

(** The default that the operator is shown. *)
Definition suggested (w : world) (q : question) : value :=
  if store q && negb (is_undefined (promptValues w (name q)))
  then promptValues w (name q)
  else default q.

Definition entered (w : world) (q : question) : value :=
  match type q with
  | input =>
      if String.eqb (typed w (name q)) "" then
        if is_nullish (suggested w q) then VStr "" else suggested w q
      else VStr (typed w (name q))
  | confirm =>
      match confirmed w (name q) with
      | Some b => VBool b
      | None =>
          match suggested w q with VBool b => VBool b | _ => VBool true end
      end
  end.

Fixpoint ask (w : world) (qs : list question) (answers : list (string * value))
  : step (list (string * value)) :=
  match qs with
  | [] => ret answers
  | q :: rest =>
      if when q answers then
        filter q (entered w q);;
        v ← filter q (entered w q);
        ask w rest (put (name q) v answers)
      else ask w rest answers
  end.

(** The flagged questions, each with its name, its default and its
    answer. *)
Definition flagged (qs : list question) (answers : list (string * value))
  : list (string * value * value) :=
  map (fun q => (name q, default q, assoc (name q) answers))
      (List.filter store qs).

Definition save (w : world) (qs : list question)
    (answers : list (string * value)) : step unit :=
  match flagged qs answers with
  | [] => ret tt
  | kept =>
      match promptValues_text w kept with
      | Some text =>
          update (fun g => set_fs (<[globalConfigPath w := text]> (fs g)) g)
      | None => ret tt
      end
  end.

Definition prompt (w : world) (qs : list question)
  : step (list (string * value)) :=
  answers ← ask w qs [];
  save w qs answers;;
  ret answers.

End Prompt.

(** ** Phase [prompting]: the Prompt Sequencer and the Secret Provisioner *)

Module prompting.
Import Prompt.

(** [this.context.k = v]. *)
Definition context_set (k : string) (v : value) : step unit :=
  update (fun g => set_context (<[k := v]> (context g)) g).

(** The object literal serialized as the author record. *)
Definition author_record (ans : list (string * value)) : value :=
  VObj [("name", assoc "authorName" ans);
        ("email", assoc "authorEmail" ans);
        ("url", or (assoc "authorUrl" ans) VUndefined)].

(** [JSON.stringify({...}, null, 2).replace(/\n/g, '\n  ')]. *)
Definition authorJSON (ans : list (string * value)) : result value :=
  match stringify (author_record ans) 2 with
  | Some text => Ok (VStr (indent_newlines text))
  | None => Throw (TypeError "Cannot read property 'replace' of undefined")
  end.

(** [ans.authorName + ' <' + ans.authorEmail + '>' +
     (ans.authorUrl && (' (' + ans.authorUrl + ')'))]. *)
Definition authorStr (ans : list (string * value)) : value :=
  let url := assoc "authorUrl" ans in
  VStr (to_string (assoc "authorName" ans) +:+ " <"
        +:+ to_string (assoc "authorEmail" ans) +:+ ">"
        +:+ to_string (and url (VStr (" (" +:+ to_string url +:+ ")")))).

Definition author_fields (ans : list (string * value)) : step unit :=
  json ← lift (authorJSON ans);
  context_set "authorJSON" json;;
  context_set "authorStr" (authorStr ans).

(** [ans.libName.replace(...)...]: only a string has [replace]. *)
Definition name_fields (ans : list (string * value)) : step unit :=
  context_set "repoName" (assoc "libName" ans);;
  match assoc "libName" ans with
  | VStr libName =>
      context_set "packageName" (VStr (packageName libName));;
      context_set "varName" (VStr (varName (packageName libName)))
  | VUndefined | VNull =>
      throw (TypeError "Cannot read property 'replace' of undefined")
  | _ => throw (TypeError "ans.libName.replace is not a function")
  end.

Definition plain (n : string) (t : qtype) (d : value) : question :=
  {| store := false; name := n; type := t; default := d;
     when := always; filter := unfiltered |}.

(** The same with [store: true]. *)
Definition kept (n : string) (t : qtype) (d : value) : question :=
  {| store := true; name := n; type := t; default := d;
     when := always; filter := unfiltered |}.

Definition author_questions (g : generator) : list question :=
  [kept "authorName" input (field (conf g) "name");
   kept "authorEmail" input (field (conf g) "email");
   kept "authorUrl" input (field (conf g) "url")].

Definition author (w : world) : step unit :=
  qs ← read author_questions;
  ans ← prompt w qs;
  update (fun g => set_context (assign (context g) ans) g);;
  author_fields ans.

(** The questions of [general] as the literal lists them. *)
Definition general_literal (w : world) (g : generator) : list question :=
  [plain "libName" input (field (conf g) "libName");
   plain "libDesc" input (field (conf g) "libDesc");
   plain "copyrightYear" input (VNum (fullYear w));
   plain "gulpfile" confirm (VBool false);
   plain "browser" confirm (VBool true);
   plain "promises" confirm (VBool true)].

(** [prompt.default = stored === undefined ? prompt.default : stored]
    with [stored = this.config.get(prompt.name)]. *)
Definition load_previous (g : generator) (q : question) : question :=
  let stored := field (config g) (name q) in
  {| store := store q; name := name q; type := type q;
     default := if is_undefined stored then default q else stored;
     when := when q; filter := filter q |}.

Definition general_questions (w : world) (g : generator) : list question :=
  map (load_previous g) (general_literal w g).

Definition general (w : world) : step unit :=
  qs ← read (general_questions w);
  ans ← prompt w qs;
  update (fun g => set_context (assign (context g) ans) g);;
  update (set_localStore ans);;
  name_fields ans.

(** The [filter] of the [npmApiKey] question:
    [str.indexOf(':') === -1 ? str : (new Buffer(str)).toString('base64')].
    What is filtered is the text entered or the default [conf.npmKey], a
    string of npm's configuration; on a value without [indexOf] the call
    throws. *)
Definition normalize (str : value) : step value :=
  match str with
  | VStr s =>
      ret (VStr (if contains ":" s then Base64.base64 s else s))
  | _ => throw (TypeError "str.indexOf is not a function")
  end.

Definition genNpmKey_question (g : generator) : question :=
  {| store := false; name := "genNpmKey"; type := confirm;
     default := VBool false;
     when := fun _ => truthy (field (config g) "travisNpmKey");
     filter := unfiltered |}.

Definition npmApiKey_question (g : generator) : question :=
  {| store := false; name := "npmApiKey"; type := input;
     default := field (conf g) "npmKey";
     when := fun ans =>
       truthy (or (assoc "genNpmKey" ans)
                  (VBool (negb (truthy (field (config g) "travisNpmKey")))));
     filter := normalize |}.

Definition genNpmKey_questions (g : generator) : list question :=
  [genNpmKey_question g; npmApiKey_question g].

(** The callback handed to [encrypt]. *)
Definition encrypted_callback (w : world) (outcome : exn + string)
  : step unit :=
  match outcome with
  | inl err => update (add_log err)
  | inr blob => update (config_set w "travisNpmKey" (VStr blob))
  end.

Definition genNpmKey_callback (w : world) (ans : list (string * value))
  : step unit :=
  if negb (truthy (assoc "npmApiKey" ans)) then ret tt
  else
    repoName ← read (fun g => field (context g) "repoName");
    let slug := "OADA/" +:+ to_string repoName in
    let data := to_string (assoc "npmApiKey" ans) in
    update (add_encrypted slug data);;
    encrypted_callback w (encrypt w slug data).

Definition genNpmKey (w : world) : step unit :=
  qs ← read genNpmKey_questions;
  ans ← prompt w qs;
  genNpmKey_callback w ans.

Definition run (w : world) : step unit :=
  author w;; general w;; genNpmKey w.

End prompting.

(** ** The in-memory file system [this.fs] *)

Module Fs.

Definition write (path content : string) : step unit :=
  update (fun g => set_fs (<[path := content]> (fs g)) g).

(** [this.fs.exists(path)]. *)
Definition exists_ (path : string) : step bool :=
  read (fun g => bool_decide (is_Some (fs g !! path))).

(** [this.fs.copy(this.templatePath(from), this.destinationPath(to))]. *)
Definition copy (w : world) (from to : string) : step unit :=
  write (destinationPath w to) (template w from).

(** [this.fs.copyTpl(this.templatePath(from), this.destinationPath(to),
    this.context)]. *)
Definition copyTpl (w : world) (from to : string) : step unit :=
  ctx ← read context;
  write (destinationPath w to) (render w (template w from) ctx).

(** [this.fs.writeJSON(path, contents, null, space)]. *)
Definition writeJSON (path : string) (contents : value) (space : nat)
  : step unit :=
  write path (default "undefined" (stringify contents space) +:+ newline).

End Fs.

Definition testDir : string := "test".
Definition jsonSpaces : nat := 4.

(** ** Phases [configuring] and [writing] of [app/index.js]: the Template
    Materializer, after the write of the stored answers *)

Module configuring.
Import Fs.

(** [for (var key in this.localStore) ... this.config.set(key,
    this.context[key])]. *)
Definition localStore (w : world) : step unit :=
  fun g =>
    (Ok tt,
     fold_left
       (fun acc kv => config_set w kv.1 (field (Gen.context acc) kv.1) acc)
       (Gen.localStore g) g).

Definition license (w : world) : step unit :=
  copy w "_LICENSE" "LICENSE";;
  copyTpl w "_NOTICE" "NOTICE".

Definition editorconfig (w : world) : step unit :=
  copy w "editorconfig" ".editorconfig".

Definition ack (w : world) : step unit :=
  copy w "ackrc" ".ackrc".

Definition jshint (w : world) : step unit :=
  copy w "jshintrc" ".jshintrc";;
  copy w "jshintignore" ".jshintignore".

Definition jscs (w : world) : step unit :=
  copy w "jscsrc" ".jscsrc".

Definition gulp (w : world) : step unit :=
  gulpfile ← read (fun g => field (Gen.context g) "gulpfile");
  if negb (truthy gulpfile) then ret tt
  else copyTpl w "_gulpfile.js" "gulpfile.js".

Definition karma (w : world) : step unit :=
  browser ← read (fun g => field (Gen.context g) "browser");
  if negb (truthy browser) then ret tt
  else copyTpl w "_karma.conf.js" "karma.conf.js".

Definition mocha (w : world) : step unit :=
  copy w "test/mocha.opts" (testDir +:+ "/mocha.opts");;
  writeJSON (destinationPath w (testDir +:+ "/.jshintrc"))
    (VObj (assign_props (template_json w "jshintrc")
                        (template_json w "test/jshintrc-mocha")))
    jsonSpaces.

Definition istanbul (w : world) : step unit :=
  copy w "istanbul.yml" ".istanbul.yml".

Definition npm (w : world) : step unit :=
  copyTpl w "_package.json" "package.json".

Definition git (w : world) : step unit :=
  copy w "gitignore" ".gitignore".

Definition travis (w : world) : step unit :=
  key ← read (fun g => field (config g) "travisNpmKey");
  prompting.context_set "travisNpmKey" key;;
  copyTpl w "travis.yml" ".travis.yml".

Definition run (w : world) : step unit :=
  localStore w;; license w;; editorconfig w;; ack w;; jshint w;; jscs w;;
  gulp w;; karma w;; mocha w;; istanbul w;; npm w;; git w;; travis w.

End configuring.

Module writing.
Import Fs.

Definition readme (w : world) : step unit :=
  let dest := "README.md" in
  there ← exists_ (destinationPath w dest);
  if (there : bool) then ret tt else copyTpl w "_README.md" dest.

Definition authors (w : world) : step unit :=
  let dest := "AUTHORS" in
  there ← exists_ (destinationPath w dest);
  if (there : bool) then ret tt else copyTpl w "_AUTHORS" dest.

(** [this.destinationPath(this.context.main)]: joining paths throws on a
    segment that is not a string. *)
Definition main_path (g : generator) : result string :=
  match field (Gen.context g) "main" with
  | VStr main => Ok main
  | _ => Throw (TypeError "Arguments to path.join must be strings")
  end.

Definition main (w : world) : step unit :=
  dest ← (fun g => (main_path g, g));
  there ← exists_ (destinationPath w dest);
  if (there : bool) then ret tt else copyTpl w "index.js" dest.

Definition test_path (g : generator) : string :=
  testDir +:+ "/" +:+ to_string (field (Gen.context g) "packageName")
    +:+ ".test.js".

Definition test (w : world) : step unit :=
  dest ← read test_path;
  there ← exists_ (destinationPath w dest);
  if (there : bool) then ret tt
  else
    copyTpl w "test/test.js" dest;;
    copyTpl w "test/setup.js" "test/setup.js".

Definition run (w : world) : step unit :=
  readme w;; authors w;; main w;; test w.

End writing.

(** ** Phase [install] of [app/index.js]: the Dependency Installer *)

Module install.

Definition flag (k : string) : step bool :=
  read (fun g => truthy (field (context g) k)).

Definition promises : step unit :=
  on ← flag "promises";
  if negb on then ret tt
  else update (npmInstall ["bluebird"] save).

Definition istanbul : step unit :=
  update (npmInstall ["istanbul"] saveDev).

Definition mocha : step unit :=
  update (npmInstall ["mocha"] saveDev).

Definition chai : step unit :=
  update (npmInstall ["chai"] saveDev);;
  on ← flag "promises";
  if (on : bool) then update (npmInstall ["chai-as-promised"] saveDev)
  else ret tt.

Definition jshint : step unit :=
  update (npmInstall ["jshint"; "jshint-stylish"] saveDev).

Definition jscs : step unit :=
  update (npmInstall ["jscs"] saveDev).

Definition precommit (w : world) : step unit :=
  match mkdirp w (destinationPath w ".git/hooks") with
  | Some err => update (add_log err)
  | None => ret tt
  end;;
  update (npmInstall ["pre-commit"] saveDev).

Definition gulp : step unit :=
  on ← flag "gulpfile";
  if negb on then ret tt
  else update (npmInstall ["gulp"; "gulp-jshint"; "gulp-jscs"] saveDev).

Definition karma : step unit :=
  on ← flag "browser";
  if negb on then ret tt
  else update (npmInstall
                 ["karma"; "yargs"; "karma-browserify";
                  "browserify-istanbul"; "brfs"; "karma-coverage@0.2.6";
                  "karma-mocha"; "karma-mocha-reporter";
                  "karma-phantomjs-launcher"; "karma-phantomjs-shim"]
                 saveDev).

Definition run (w : world) : step unit :=
  promises;; istanbul;; mocha;; chai;; jshint;; jscs;; precommit w;;
  gulp;; karma.

End install.

(** The whole run of [app/index.js]. *)
Definition generate (w : world) : step unit :=
  initializing.run w;; prompting.run w;; configuring.run w;;
  writing.run w;; install.run w.

(** ** The other variant of the generator

    Its [initializing] steps are those of [initializing.resolve], its
    [genNpmKey] is [prompting.genNpmKey], and it derives the names and the
    author fields with the same expressions.  It asks everything in one
    round, stores only the copyright year, and writes every file of its
    catalog whether or not the file is there.

    Inside [Alt] a name such as [prompting.plain] or [configuring.jshint]
    is the step defined above, which this variant shares; [Alt.generate]
    runs the phases of [Alt]. *)

Module Alt.

Module prompting.
Import Prompt.

(** The [filter] of the [copyrightYear] question:
    [generator.config.set('copyrightYear', year); return year;]. *)
Definition remember_year (w : world) (year : value) : step value :=
  update (config_set w "copyrightYear" year);;
  ret year.

Definition general_questions (w : world) (g : generator) : list question :=
  [prompting.plain "libName" input (field (conf g) "libName");
   prompting.kept "libDesc" input (field (conf g) "libDesc");
   prompting.kept "authorName" input (field (conf g) "name");
   prompting.kept "authorEmail" input (field (conf g) "email");
   prompting.kept "authorUrl" input (field (conf g) "url");
   {| store := false; name := "copyrightYear"; type := input;
      default := or (field (config g) "copyrightYear") (VNum (fullYear w));
      when := always; filter := remember_year w |}].

Definition general (w : world) : step unit :=
  qs ← read (general_questions w);
  ans ← prompt w qs;
  update (fun g => set_context (assign (conf g) ans) g);;
  prompting.name_fields ans;;
  prompting.author_fields ans.

Definition run (w : world) : step unit :=
  general w;; prompting.genNpmKey w.

End prompting.

Module configuring.
Import Fs.

Definition license (w : world) : step unit :=
  copy w "_LICENSE" "LICENSE";;
  copyTpl w "_AUTHORS" "AUTHORS";;
  copyTpl w "_NOTICE" "NOTICE".

Definition readme (w : world) : step unit :=
  copyTpl w "_README.md" "README.md".

Definition run (w : world) : step unit :=
  license w;; readme w;; configuring.editorconfig w;;
  configuring.jshint w;; configuring.jscs w;; configuring.mocha w;;
  configuring.npm w;; configuring.git w;; configuring.travis w.

End configuring.

Module writing.
Import Fs.

Definition main (w : world) : step unit :=
  dest ← (fun g => (writing.main_path g, g));
  copyTpl w "index.js" dest.

Definition test (w : world) : step unit :=
  dest ← read writing.test_path;
  copyTpl w "test/test.js" dest.

Definition run (w : world) : step unit :=
  main w;; test w.

End writing.

Module install.

Definition chai : step unit :=
  update (npmInstall ["chai"] saveDev).

Definition run : step unit :=
  install.istanbul;; install.mocha;; chai;; install.jshint;;
  install.jscs.

End install.

Definition generate (w : world) : step unit :=
  initializing.resolve w;; prompting.run w;; configuring.run w;;
  writing.run w;; install.run.

End Alt.

(** The Template Materializer of each variant. *)
Definition materialize (w : world) : step unit :=
  configuring.run w;; writing.run w.

Definition materialize_alt (w : world) : step unit :=
  Alt.configuring.run w;; Alt.writing.run w.

(** * The vocabulary of the statements *)



Fixpoint separator_free (s : string) : bool :=
  match s with
  | "" => true
  | String c rest => negb (is_separator c) && separator_free rest
  end.

(** The code units whose upper-case form lies in U+0000..U+00FF, so that
    [toUpperCase] gives it as JavaScript does: all but U+00B5 and U+00FF. *)
Definition upper_in_range (c : ascii) : bool :=
  negb (Ascii.eqb c "181") && negb (Ascii.eqb c "255").

(** A separator, the code unit after it, and the separator-free text up to
    the next separator. *)
Definition part : Type := ascii * ascii * string.

Definition part_ok (p : part) : bool :=
  is_separator p.1.1 && negb (is_line_terminator p.1.2)
  && upper_in_range p.1.2 && separator_free p.2.

Definition part_text (p : part) : string := String p.1.1 (String p.1.2 p.2).
Definition part_camel (p : part) : string := toUpperCase p.1.2 +:+ p.2.

Fixpoint concat (l : list string) : string :=
  match l with
  | [] => ""
  | s :: rest => s +:+ concat rest
  end.

(** Nothing, or one separator. *)
Definition trailing (t : string) : bool :=
  match t with
  | "" => true
  | String c "" => is_separator c
  | _ => false
  end.

(** The member [k: v] of an object serialized at the top with an
    indentation of two: none when [v] has no JSON text. *)
Definition member (k : string) (v : value) : list string :=
  match stringify_at "  " "  " v with
  | Some text => [quote k +:+ ": " +:+ text]
  | None => []
  end.

(** The packages named in the invocations. *)
Definition installed (calls : list (list string * kind)) (pkg : string)
  : Prop :=
  exists pkgs k, In (pkgs, k) calls /\ In pkg pkgs.

(** The invocations of a run, in order. *)
Definition install_calls (w : world) (g : generator)
  : list (list string * kind) :=
  let on k := truthy (field (context g) k) in
  (if on "promises" then [(["bluebird"], save)] else [])
  ++ [(["istanbul"], saveDev); (["mocha"], saveDev); (["chai"], saveDev)]
  ++ (if on "promises" then [(["chai-as-promised"], saveDev)] else [])
  ++ [(["jshint"; "jshint-stylish"], saveDev); (["jscs"], saveDev);
      (["pre-commit"], saveDev)]
  ++ (if on "gulpfile"
      then [(["gulp"; "gulp-jshint"; "gulp-jscs"], saveDev)] else [])
  ++ (if on "browser"
      then [(["karma"; "yargs"; "karma-browserify"; "browserify-istanbul";
              "brfs"; "karma-coverage@0.2.6"; "karma-mocha";
              "karma-mocha-reporter"; "karma-phantomjs-launcher";
              "karma-phantomjs-shim"], saveDev)]
      else []).

(** The answers on the table when the [npmApiKey] question comes up. *)
Definition regenerate_answers (w : world) (g : generator)
  : list (string * value) :=
  if truthy (field (config g) "travisNpmKey")
  then [("genNpmKey", Prompt.entered w (prompting.genNpmKey_question g))]
  else [].

(** Is the operator asked for a credential? *)
Definition credential_asked (w : world) (g : generator) : bool :=
  Prompt.when (prompting.npmApiKey_question g) (regenerate_answers w g).

(** The project the credential is encrypted for. *)
Definition slug (g : generator) : string :=
  "OADA/" +:+ to_string (field (context g) "repoName").

(** What the round of [general] yields: an answer per question. *)
Definition general_answers (w : world) (g : generator)
  : list (string * value) :=
  map (fun q => (Prompt.name q, Prompt.entered w q))
      (prompting.general_questions w g).

(** The same in the other variant, and the year among the answers. *)
Definition alt_general_answers (w : world) (g : generator)
  : list (string * value) :=
  map (fun q => (Prompt.name q, Prompt.entered w q))
      (Alt.prompting.general_questions w g).

Definition alt_year (w : world) (g : generator) : value :=
  assoc "copyrightYear" (alt_general_answers w g).

(** From the round of [general] to the write of its answers, as the run
    loop of [app/index.js] takes the steps. *)
Definition answer_round (w : world) : step unit :=
  prompting.general w;; prompting.genNpmKey w;; configuring.localStore w.

(** The step leaves a file that is at [q] as it is, whether it returns or
    throws. *)
Definition keeps (q : string) (m : step unit) : Prop :=
  forall g c, fs g !! q = Some c -> fs (m g).2 !! q = Some c.

(** The generator after a [copy] and after a [copyTpl]. *)
Definition put_file (w : world) (to content : string) (g : generator)
  : generator :=
  set_fs (<[destinationPath w to := content]> (fs g)) g.

Definition put_template (w : world) (from to : string) (g : generator)
  : generator :=
  put_file w to (render w (template w from) (context g)) g.

(** From a state in [P] the step returns, in a state in [Q]. *)
Definition holds (P : generator -> Prop) (m : step unit)
    (Q : generator -> Prop) : Prop :=
  forall s, P s -> (m s).1 = Ok tt /\ Q (m s).2.

(** The state has the context and the store of [s0], and the files of
    [s0] at the paths [kept]. *)
Definition same_on (w : world) (kept : list string) (s0 s : generator)
  : Prop :=
  context s = context s0 /\ config s = config s0 /\
  forall p, In p kept ->
    fs s !! destinationPath w p = fs s0 !! destinationPath w p.

(** The three files of the claim. *)
Definition claimed : list string := ["README.md"; "LICENSE"; "NOTICE"].

(** After [travis]: the stored key is in the context, [.travis.yml] is
    rendered with it, and the three files are as in [s0]. *)
Definition delivered (w : world) (s0 s : generator) : Prop :=
  let ctx := <["travisNpmKey" := field (config s0) "travisNpmKey"]>
               (context s0) in
  context s = ctx /\
  fs s !! destinationPath w ".travis.yml"
  = Some (render w (template w "travis.yml") ctx) /\
  forall p, In p claimed ->
    fs s !! destinationPath w p = fs s0 !! destinationPath w p.

(** Whatever the step does, it leaves [this.conf] alone outside [keys],
    and the files alone. *)
Definition touches {A} (keys : list string) (m : step A) : Prop :=
  forall g,
    fs (m g).2 = fs g /\
    forall k, ~ In k keys -> conf (m g).2 !! k = conf g !! k.

(** [s] holds no [/]. *)
Definition slash_free (s : string) : bool := negb (contains "/" s).

(** [s] ends with [suffix]. *)
Fixpoint ends_with (suffix s : string) : bool :=
  String.eqb s suffix
  || match s with
     | "" => false
     | String _ rest => ends_with suffix rest
     end.

(** Whatever the step does, it changes nothing of the generator but
    [this.conf]. *)
Definition conf_only {A} (m : step A) : Prop :=
  forall g, (m g).2 = set_conf (conf (m g).2) g.

(** What [packageJson] reads: the parsed [package.json] of the destination
    directory, [{}] when there is none. *)
Definition manifest (w : world) (g : generator) : result value :=
  (initializing.readJSON w (destinationPath w "package.json") (VObj []) g).1.

(** [json.repository && json.repository.url &&
     json.repository.url.match(/\/([^\/]+).git$/)[1]] on the properties of
    the manifest. *)
Definition repository_name (props : list (string * value)) : result value :=
  let repository := assoc "repository" props in
  if truthy repository then
    match get repository "url" with
    | Ok url => if truthy url then initializing.repo_name url else Ok url
    | Throw e => Throw e
    end
  else Ok repository.


(** The text of [test/.jshintrc]: the settings of [jshintrc] with those of
    [test/jshintrc-mocha] assigned over them. *)
Definition jshintrc_text (w : world) : string :=
  default "undefined"
    (stringify (VObj (assign_props (template_json w "jshintrc")
                                   (template_json w "test/jshintrc-mocha")))
               jsonSpaces)
  +:+ newline.

(** The files that the phase [configuring] of [app/index.js] is to leave
    below the destination directory, by name and content, for the context
    and the store [g] it starts from. *)
Definition catalog (w : world) (g : generator) : list (string * string) :=
  let copied from to := (to, template w from) in
  let rendered from to := (to, render w (template w from) (context g)) in
  let key := field (config (configuring.localStore w g).2) "travisNpmKey" in
  [copied "_LICENSE" "LICENSE"; rendered "_NOTICE" "NOTICE";
   copied "editorconfig" ".editorconfig"; copied "ackrc" ".ackrc";
   copied "jshintrc" ".jshintrc"; copied "jshintignore" ".jshintignore";
   copied "jscsrc" ".jscsrc"]
  ++ (if truthy (field (context g) "gulpfile")
      then [rendered "_gulpfile.js" "gulpfile.js"] else [])
  ++ (if truthy (field (context g) "browser")
      then [rendered "_karma.conf.js" "karma.conf.js"] else [])
  ++ [copied "test/mocha.opts" "test/mocha.opts";
      ("test/.jshintrc", jshintrc_text w);
      copied "istanbul.yml" ".istanbul.yml";
      rendered "_package.json" "package.json";
      copied "gitignore" ".gitignore";
      (".travis.yml",
       render w (template w "travis.yml")
         (<["travisNpmKey" := key]> (context g)))].

(** The same for the other variant. *)
Definition alt_catalog (w : world) (g : generator) : list (string * string) :=
  let copied from to := (to, template w from) in
  let rendered from to := (to, render w (template w from) (context g)) in
  [copied "_LICENSE" "LICENSE"; rendered "_AUTHORS" "AUTHORS";
   rendered "_NOTICE" "NOTICE"; rendered "_README.md" "README.md";
   copied "editorconfig" ".editorconfig";
   copied "jshintrc" ".jshintrc"; copied "jshintignore" ".jshintignore";
   copied "jscsrc" ".jscsrc";
   copied "test/mocha.opts" "test/mocha.opts";
   ("test/.jshintrc", jshintrc_text w);
   rendered "_package.json" "package.json";
   copied "gitignore" ".gitignore";
   (".travis.yml",
    render w (template w "travis.yml")
      (<["travisNpmKey" := field (config g) "travisNpmKey"]> (context g)))].

(** The files of [s] are those of [s0] but for the [files] listed, which
    are there with their contents. *)
Definition wrote (w : world) (s0 : generator) (files : list (string * string))
    (s : generator) : Prop :=
  (forall n c, In (n, c) files -> fs s !! destinationPath w n = Some c) /\
  (forall q, (forall n c, In (n, c) files -> q <> destinationPath w n) ->
             fs s !! q = fs s0 !! q).

(** The generator after a write guarded by
    [if (this.fs.exists(dest)) { return; }]. *)
Definition fill (w : world) (from to : string) (s : generator) : generator :=
  if bool_decide (is_Some (fs s !! destinationPath w to)) then s
  else put_template w from to s.


(** The generator of [app/index.js] when the step [writing.test] starts:
    [README.md], [AUTHORS] and the main file, [this.context.main], have
    been written where they were missing. *)
Definition before_test (w : world) (g : generator) (main : string)
  : generator :=
  fill w "index.js" main
    (fill w "_AUTHORS" "AUTHORS" (fill w "_README.md" "README.md" g)).

(** Whatever the step does, returning or throwing, it leaves that part of
    the generator as it is. *)
Definition leaves {A B} (part : generator -> B) (m : step A) : Prop :=
  forall g, part (m g).2 = part g.

(** The step hands at most [n] texts to the encryption service. *)
Definition sends {A} (n : nat) (m : step A) : Prop :=
  forall g, exists l,
    encrypted (m g).2 = encrypted g ++ l /\ (length l <= n)%nat.

(** The author record of the context: [authorJSON] is the serialized
    record of the author answers held there, without a [url] member when
    the answer for the URL is falsy (empty or absent), and with it, last,
    when that answer is a non-empty string. *)
Definition url_serialized (g : generator) : Prop :=
  let name := field (context g) "authorName" in
  let email := field (context g) "authorEmail" in
  let url := field (context g) "authorUrl" in
  (truthy url = false ->
   exists text,
     stringify (VObj [("name", name); ("email", email)]) 2 = Some text /\
     field (context g) "authorJSON" = VStr (indent_newlines text)) /\
  (forall s, url = VStr s -> s <> "" ->
     field (context g) "authorJSON"
     = VStr (indent_newlines
               (wrap "{" "}" "  " ""
                  (member "name" name ++ member "email" email
                   ++ [quote "url" +:+ ": " +:+ quote s])))).

(** What the author record is made of and where it is kept. *)
Definition author_part (g : generator) : list value :=
  map (field (context g))
      ["authorName"; "authorEmail"; "authorUrl"; "authorJSON"].

(** The segments of a path, between its separators: [/], and [\] for a
    host that takes it for one. *)
Definition is_path_separator (c : ascii) : bool :=
  Ascii.eqb c "/" || Ascii.eqb c "\".

Fixpoint segments (s seg : string) : list string :=
  match s with
  | "" => [seg]
  | String c rest =>
      if is_path_separator c then seg :: segments rest ""
      else segments rest (seg +:+ String c "")
  end.

(** A relative path that [path.join] has nothing to normalize in: none of
    its segments is empty, [.] or [..].  Joined to the destination root it
    names the file it spells, and two such paths name the same file only
    when they are the same text. *)
Definition plain_path (s : string) : bool :=
  forallb (fun seg => negb (String.eqb seg "") && negb (String.eqb seg ".")
                      && negb (String.eqb seg ".."))
          (segments s "").

(** * Sample worlds *)

Module Samples.

Fixpoint text_for (answers : list (string * string)) (n : string) : string :=
  match answers with
  | [] => ""
  | (k, t) :: rest => if String.eqb n k then t else text_for rest n
  end.

(** A destination directory [/home/ann/widget], an operator who types
    [answers] and otherwise just returns, npm's configuration missing, and
    an encryption service with a fixed outcome. *)
Definition sample (answers : list (string * string))
    (git : exn + gmap string (gmap string string))
    (manifest : option value) (service : exn + string) : world :=
  {| destinationRoot := "/home/ann/widget";
     typed := text_for answers;
     confirmed := fun _ => None;
     promptValues := fun _ => VUndefined;
     globalConfigPath := "/home/ann/.yo-rc-global.json";
     promptValues_text := fun _ => Some "{ prompt values }";
     gitconf := git;
     npmconf := inl (Error "ENOENT");
     JSON_parse := fun _ => manifest;
     template := fun p => "<" +:+ p +:+ ">";
     template_json := fun _ => [];
     render := fun t ctx => t +:+ to_string (field ctx "varName");
     encrypt := fun _ _ => service;
     fullYear := 2015;
     mkdirp := fun _ => None;
     parse_failure := fun path _ => Error ("no JSON in " +:+ path);
     store_text := fun _ => "{ store }" |}.

Definition ann : exn + gmap string (gmap string string) :=
  inr {[ "user" := {[ "name" := "Ann"; "email" := "ann@oada.org" ]} ]}.

(** A git configuration that loads and has no [user] section. *)
Definition no_user : exn + gmap string (gmap string string) :=
  inr {[ "core" := {[ "editor" := "vi" ]} ]}.

Definition sealed : exn + string := inr "sealed".

(** A JSON string literal that needs no escape: the text between two
    double quotes. *)
Definition lit (s : string) : string :=
  String "034" (s +:+ String "034" "").
Definition refused : exn + string := inl (Error "no such repository").

End Samples.

Module SecretSamples.
Import Samples.

(** After [general]: the repository is [widget], nothing is stored. *)
Definition named : generator :=
  set_context {[ "repoName" := VStr "widget" ]} (fresh ∅ ∅).

Definition token : world := sample [("npmApiKey", "token")] ann None sealed.
Definition pair : world :=
  sample [("npmApiKey", "ann:secret")] ann None refused.

End SecretSamples.

Module InstallSamples.
Import Samples.

Definition flagged (promises : bool) : generator :=
  set_context {[ "promises" := VBool promises ]} (fresh ∅ ∅).

Definition quiet : world := sample [] ann None sealed.

End InstallSamples.

Module StoreSamples.
Import Samples.

(** The store of an earlier run that named the library [widget]. *)
Definition earlier : generator := fresh {[ "libName" := VStr "widget" ]} ∅.

(** An operator who accepts every default, and one who renames the
    library. *)
Definition accepting : world := sample [] ann None sealed.
Definition renaming : world := sample [("libName", "gadget")] ann None sealed.

End StoreSamples.

Module FileSamples.
Import Samples.

(** A destination directory in which the operator keeps notes in
    [README.md], with an old [LICENSE] next to them. *)
Definition kept_notes : generator :=
  fresh ∅ {[ "/home/ann/widget/README.md" := "my notes";
             "/home/ann/widget/LICENSE" := "old terms" ]}.

Definition accepting : world := sample [] ann None sealed.

(** The same directory when the Template Materializer of [app/index.js]
    starts. *)
Definition prompted : generator :=
  ((initializing.run accepting;; prompting.run accepting) kept_notes).2.

End FileSamples.

Module ManifestSamples.
Import Samples.

Definition files : gmap string string :=
  {[ "/home/ann/widget/package.json" := "{...}" ]}.

Definition bea : value :=
  VObj [("author", VObj [("name", VStr "Bea"); ("email", VStr "bea@oada.org");
                         ("url", VStr "http://oada.org/bea")])].

(** A manifest whose author has the three fields, all empty. *)
Definition blank : value :=
  VObj [("author", VObj [("name", VStr ""); ("email", VStr "");
                         ("url", VStr "")])].

Definition with_manifest (json : value) : world :=
  sample [] ann (Some json) sealed.

End ManifestSamples.

Module ResolverSamples.
Import Samples.

(** A destination directory on Windows. *)
Definition windows : world :=
  {| destinationRoot := "C:\Users\ann\widget";
     typed := fun _ => "";
     confirmed := fun _ => None;
     promptValues := fun _ => VUndefined;
     globalConfigPath := "/home/ann/.yo-rc-global.json";
     promptValues_text := fun _ => Some "{ prompt values }";
     gitconf := ann;
     npmconf := inl (Error "ENOENT");
     JSON_parse := fun _ => None;
     template := fun p => p;
     template_json := fun _ => [];
     render := fun t _ => t;
     encrypt := fun _ _ => sealed;
     fullYear := 2015;
     mkdirp := fun _ => None;
     parse_failure := fun path _ => Error ("no JSON in " +:+ path);
     store_text := fun _ => "{ store }" |}.

(** Ann's machine with an npm configuration that gives another email
    and a credential. *)
Definition with_npm : world :=
  {| destinationRoot := "/home/ann/widget";
     typed := fun _ => "";
     confirmed := fun _ => None;
     promptValues := fun _ => VUndefined;
     globalConfigPath := "/home/ann/.yo-rc-global.json";
     promptValues_text := fun _ => Some "{ prompt values }";
     gitconf := ann;
     npmconf := inr {[ "email" := "ann@npm.org"; "_auth" := "token" ]};
     JSON_parse := fun _ => None;
     template := fun p => p;
     template_json := fun _ => [];
     render := fun t _ => t;
     encrypt := fun _ _ => sealed;
     fullYear := 2015;
     mkdirp := fun _ => None;
     parse_failure := fun path _ => Error ("no JSON in " +:+ path);
     store_text := fun _ => "{ store }" |}.

(** The properties of a manifest of a project renamed since: its
    repository is [gadget]. *)
Definition repository (url : string) : value :=
  VObj [("type", VStr "git"); ("url", VStr url)].

Definition renamed : list (string * value) :=
  [("name", VStr "widget"); ("version", VStr "1.2.0");
   ("repository", repository "https://github.com/OADA/gadget.git")].

(** The same with the address of the project page for a URL. *)
Definition page : list (string * value) :=
  [("name", VStr "widget"); ("version", VStr "1.2.0");
   ("repository", repository "https://github.com/OADA/gadget")].

(** Manifests with the author in one string, and with no author on
    purpose. *)
Definition by_line : list (string * value) :=
  [("name", VStr "gadget");
   ("author", VStr "Bea <bea@oada.org> (http://oada.org/bea)")].
Definition anonymous : list (string * value) :=
  [("name", VStr "gadget"); ("version", VStr "1.2.0"); ("author", VNull)].

Definition reading (props : list (string * value)) : world :=
  ManifestSamples.with_manifest (VObj props).

(** What git has supplied when [packageJson] runs. *)
Definition from_git : generator :=
  set_conf {[ "name" := VStr "Ann"; "email" := VStr "ann@oada.org";
              "libName" := VStr "widget"; "version" := VStr "0.0.0" ]}
    (fresh ∅ ManifestSamples.files).

End ResolverSamples.

Module PromptSamples.
Import Samples.

(** A store that holds the key of an earlier run, in front of an operator
    who only presses return. *)
Definition keyed : generator :=
  set_context {[ "repoName" := VStr "widget" ]}
    (fresh {[ "travisNpmKey" := VStr "sealed earlier" ]} ∅).

Definition returning : world := sample [] ann None sealed.


(** An operator who gives the address of a page about the author. *)
Definition with_page : world :=
  sample [("authorUrl", "http://oada.org")] ann None sealed.

End PromptSamples.

Module CatalogSamples.
Import Samples.

(** A directory that holds a manifest and notes of the operator's, when
    the phase [configuring] starts with no flag set. *)
Definition occupied : generator :=
  fresh ∅ {[ "/home/ann/widget/package.json" := "{...}";
             "/home/ann/widget/notes.txt" := "to do" ]}.

Definition quiet : world := sample [] ann None sealed.


End CatalogSamples.

Module WritingSamples.
Import Samples.

(** After the prompts of a run that accepts every default, in a directory
    where an earlier run left [test/setup.js] and the operator has since
    removed the test. *)
Definition resumed : generator :=
  set_context {[ "main" := VStr "index.js"; "packageName" := VStr "widget";
                 "varName" := VStr "widget" ]}
    (fresh ∅ {[ "/home/ann/widget/test/setup.js" := "my setup";
                "/home/ann/widget/index.js" := "my code" ]}).

Definition quiet : world := sample [] ann None sealed.

(** A manifest gave a number for [main]. *)
Definition numbered : generator :=
  set_context {[ "main" := VNum 1; "packageName" := VStr "widget" ]}
    (fresh ∅ ∅).

End WritingSamples.

(** * Properties *)

(** ** The model on sample inputs *)

Example packageName_ex1 : packageName "node-foo" = "foo".
Proof. reflexivity. Qed.
Example packageName_ex2 : packageName "foo.js" = "foo".
Proof. reflexivity. Qed.
Example packageName_ex3 : packageName "node-foojs" = "foo".
Proof. reflexivity. Qed.
Example packageName_ex4 : packageName "node-js" = "".
Proof. reflexivity. Qed.
Example varName_ex1 : varName "foo-bar.baz" = "fooBarBaz".
Proof. reflexivity. Qed.
Example varName_ex2 : varName "foo-" = "foo-".
Proof. reflexivity. Qed.
Example varName_ex3 : varName "a--b" = "a-b".
Proof. reflexivity. Qed.
Example stringify_ex1 :
  stringify (VObj [("name", VStr "A"); ("url", VUndefined); ("n", VNum 3)]) 2
  = Some ("{" +:+ newline
          +:+ "  " +:+ Samples.lit "name" +:+ ": " +:+ Samples.lit "A" +:+ ","
          +:+ newline
          +:+ "  " +:+ Samples.lit "n" +:+ ": 3" +:+ newline +:+ "}").
Proof. reflexivity. Qed.
Example base64_ex1 : Base64.base64 "user:pass" = "dXNlcjpwYXNz".
Proof. reflexivity. Qed.
Example base64_ex2 : Base64.base64 "a:b" = "YTpi".
Proof. reflexivity. Qed.
Example base64_ex3 : Base64.base64 "a:bc" = "YTpiYw==".
Proof. reflexivity. Qed.
Example base64_ex4 : Base64.base64 ":" = "Og==".
Proof. reflexivity. Qed.
Example match_dir_ex1 :
  initializing.match_dir "/home/me/proj" = Some "proj".
Proof. reflexivity. Qed.
Example match_dir_ex2 : initializing.match_dir "/" = None.
Proof. reflexivity. Qed.
Example match_repo_ex1 :
  initializing.match_repo "https://github.com/OADA/foo.git" = Some "foo".
Proof. reflexivity. Qed.
Example match_repo_ex2 :
  initializing.match_repo "https://github.com/OADA/foo" = None.
Proof. reflexivity. Qed.

(** ** Strings *)

(** Arithmetic on lengths, with the lengths taken as opaque numbers. *)
Ltac length_lia :=
  repeat match goal with
         | |- context [String.length ?s] =>
             let n := fresh "n" in
             set (n := String.length s) in *; clearbody n
         | H : context [String.length ?s] |- _ =>
             let n := fresh "n" in
             set (n := String.length s) in *; clearbody n
         end;
  lia.

Section strings.
Implicit Types s t u : string.

Lemma append_cons (c : ascii) s t : String c s +:+ t = String c (s +:+ t).
Proof. reflexivity. Qed.

Lemma append_empty_l s : "" +:+ s = s.
Proof. reflexivity. Qed.

Lemma append_empty_r s : s +:+ "" = s.
Proof. induction s as [|c s IH]; [done|]. by rewrite append_cons, IH. Qed.

Lemma append_assoc s t u : (s +:+ t) +:+ u = s +:+ t +:+ u.
Proof. induction s as [|c s IH]; [done|]. by rewrite !append_cons, IH. Qed.

Lemma append_length s t :
  String.length (s +:+ t) = (String.length s + String.length t)%nat.
Proof.
  induction s as [|c s IH]; [done|]. rewrite append_cons. simpl. by rewrite IH.
Qed.

Lemma append_not_short s t u :
  (String.length u < String.length s + String.length t)%nat -> s +:+ t <> u.
Proof.
  intros Hlen Heq. apply (f_equal String.length) in Heq.
  rewrite append_length in Heq. length_lia.
Qed.
End strings.

(** ** The package name (C1) *)

Section package_name.
Implicit Types x s : string.









End package_name.





(** ** The variable name (C2) *)

Section var_name.

Lemma camel_separator_free w s :
  separator_free w = true -> camel (w +:+ s) = w +:+ camel s.
Proof.
  induction w as [|c w IH]; [done|]. simpl. intros [Hc Hw]%andb_true_iff.
  rewrite !append_cons. cbn [camel]. apply negb_true_iff in Hc. rewrite Hc.
  by rewrite IH.
Qed.

Lemma camel_trailing t : trailing t = true -> camel t = t.
Proof.
  destruct t as [|c [|d t]]; try done. simpl. by intros ->.
Qed.

Lemma camel_parts (ps : list part) t :
  forallb part_ok ps = true -> trailing t = true ->
  camel (concat (map part_text ps) +:+ t)
  = concat (map part_camel ps) +:+ t.
Proof.
  intros Hps Ht. induction ps as [|[[c p] w] ps IH].
  - simpl. rewrite !append_empty_l. by apply camel_trailing.
  - simpl in Hps. apply andb_true_iff in Hps as [Hp Hps].
    unfold part_ok in Hp. simpl in Hp.
    apply andb_true_iff in Hp as [Hp Hw].
    apply andb_true_iff in Hp as [Hp _].
    apply andb_true_iff in Hp as [Hc Hl]. apply negb_true_iff in Hl.
    cbn [map concat]. unfold part_text, part_camel. simpl fst. simpl snd.
    rewrite !append_assoc, !append_cons. cbn [camel]. rewrite Hc, Hl.
    f_equal.
    rewrite camel_separator_free by done. f_equal. by apply IH.
Qed.
End var_name.

(** C2, as the code has it.  Scanning from the left, a separator followed
    by a code unit that is not a line terminator is dropped and that code
    unit is upper-cased (and not looked at again, be it a separator itself);
    a separator that ends the name has nothing after it and stays.  The
    code units upper-cased are taken from those whose upper-case form lies
    in U+0000..U+00FF, the range of this model. *)
Theorem varName_camel (w0 : string) (ps : list part) (t : string) :
  separator_free w0 = true ->
  forallb part_ok ps = true ->
  trailing t = true ->
  varName (w0 +:+ concat (map part_text ps) +:+ t)
  = w0 +:+ concat (map part_camel ps) +:+ t.
Proof.
  intros Hw Hps Ht. unfold varName.
  rewrite camel_separator_free by done. f_equal. by apply camel_parts.
Qed.

Lemma varName_camel_witness :
  varName "foo-bar.baz" = "fooBarBaz" /\ varName "foo-bar_" = "fooBar_".
Proof.
  split.
  - apply (varName_camel "foo"
             [("-"%char, "b"%char, "ar"); ("."%char, "b"%char, "az")] "");
      reflexivity.
  - apply (varName_camel "foo" [("-"%char, "b"%char, "ar")] "_"); reflexivity.
Defined.

(** C2 as the specification words it fails on a separator in last place:
    it is still there afterwards. *)
Lemma varName_counterexample :
  varName "foo-" = "foo-" /\ varName "foo-" <> "foo".
Proof. split; [reflexivity|discriminate]. Qed.

(** ** The serialized author record (C10) *)

Lemma stringify_record (props : list (string * value)) :
  stringify (VObj props) 2
  = Some (wrap "{" "}" "  " "" (flat_map (fun kv => member kv.1 kv.2) props)).
Proof.
  unfold stringify. simpl. change ("" +:+ "  ") with "  ". do 2 f_equal.
  induction props as [|[k v] props IH]; [done|].
  simpl. unfold member at 1. simpl.
  destruct (stringify_at "  " "  " v); simpl; by rewrite IH.
Qed.

(** The text made of the answers: when the answer for the author's URL is
    falsy (empty or absent) it is the text of the record without a [url]
    key; when it is a non-empty string, the record ends with the member
    [url] holding that string. *)
Lemma authorJSON_text (ans : list (string * value)) :
  let name := assoc "authorName" ans in
  let email := assoc "authorEmail" ans in
  let url := assoc "authorUrl" ans in
  (truthy url = false ->
   exists text,
     stringify (VObj [("name", name); ("email", email)]) 2 = Some text /\
     prompting.authorJSON ans = Ok (VStr (indent_newlines text))) /\
  (forall s, url = VStr s -> s <> "" ->
     prompting.authorJSON ans
     = Ok (VStr (indent_newlines
                   (wrap "{" "}" "  " ""
                      (member "name" name ++ member "email" email
                       ++ [quote "url" +:+ ": " +:+ quote s]))))).
Proof.
  intros name email url. unfold prompting.authorJSON, prompting.author_record.
  rewrite !stringify_record. fold name email url. cbn [flat_map fst snd].
  split.
  - intros Hurl. eexists. split; [reflexivity|].
    unfold or. rewrite Hurl.
    by change (member "url" VUndefined) with (@nil string).
  - intros s Hs Hne. rewrite Hs. unfold or. simpl truthy.
    destruct (String.eqb_spec s "") as [->|_]; [done|]. simpl negb. cbv iota.
    change (member "url" (VStr s)) with [quote "url" +:+ ": " +:+ quote s].
    by rewrite app_nil_r.
Qed.

Example authorJSON_text_ex :
  prompting.authorJSON
    [("authorName", VStr "Ann"); ("authorEmail", VStr "ann@oada.org");
     ("authorUrl", VStr "")]
  = Ok (VStr ("{" +:+ newline
              +:+ "    " +:+ Samples.lit "name" +:+ ": " +:+ Samples.lit "Ann"
              +:+ "," +:+ newline
              +:+ "    " +:+ Samples.lit "email" +:+ ": "
              +:+ Samples.lit "ann@oada.org" +:+ newline +:+ "  }")) /\
  prompting.authorJSON
    [("authorName", VStr "Ann"); ("authorEmail", VStr "ann@oada.org");
     ("authorUrl", VStr "http://oada.org")]
  = Ok (VStr ("{" +:+ newline
              +:+ "    " +:+ Samples.lit "name" +:+ ": " +:+ Samples.lit "Ann"
              +:+ "," +:+ newline
              +:+ "    " +:+ Samples.lit "email" +:+ ": "
              +:+ Samples.lit "ann@oada.org" +:+ "," +:+ newline
              +:+ "    " +:+ Samples.lit "url" +:+ ": "
              +:+ Samples.lit "http://oada.org" +:+ newline +:+ "  }")).
Proof.
  split.
  - destruct (authorJSON_text
                [("authorName", VStr "Ann"); ("authorEmail", VStr "ann@oada.org");
                 ("authorUrl", VStr "")]) as [H _].
    destruct (H eq_refl) as (text & Htext & ->).
    vm_compute in Htext. injection Htext as <-. reflexivity.
  - destruct (authorJSON_text
                [("authorName", VStr "Ann"); ("authorEmail", VStr "ann@oada.org");
                 ("authorUrl", VStr "http://oada.org")]) as [_ H].
    rewrite (H "http://oada.org" eq_refl); [reflexivity|discriminate].
Qed.

(** ** The Dependency Installer (C7) *)

Tactic Notation "run_steps" :=
  cbv [mbind mret step_bind step_ret bind ret throw lift read update try_catch].
Tactic Notation "run_steps" "in" hyp(H) :=
  cbv [mbind mret step_bind step_ret bind ret throw lift read update try_catch]
    in H.

Lemma install_run_calls (w : world) (g : generator) :
  (install.run w g).1 = Ok tt /\
  installs (install.run w g).2 = installs g ++ install_calls w g.
Proof.
  unfold install.run, install.promises, install.istanbul, install.mocha,
    install.chai, install.jshint, install.jscs, install.precommit,
    install.gulp, install.karma, install.flag, install_calls.
  run_steps. destruct g as [cf cx ls cg f lg en cw ins]. simpl.
  destruct (truthy (field cx "promises")) eqn:Hp,
    (mkdirp w (destinationPath w ".git/hooks")) eqn:Hm,
    (truthy (field cx "gulpfile")) eqn:Hg,
    (truthy (field cx "browser")) eqn:Hb;
    repeat (progress (simpl; rewrite ?Hp, ?Hm, ?Hg, ?Hb));
    (split; [reflexivity|]); rewrite <-?app_assoc; reflexivity.
Qed.

(** C7.  A run of the installer completes, adding its invocations to those
    made before.  With the flag [promises] true they include [bluebird]
    under [save] and [chai-as-promised] under [saveDev], and each of the two
    under no other kind; with the flag false no invocation names either. *)
Theorem install_promises (w : world) (g : generator) :
  exists calls,
    install.run w g = (Ok tt, (install.run w g).2) /\
    installs (install.run w g).2 = installs g ++ calls /\
    if truthy (field (context g) "promises") then
      In (["bluebird"], save) calls /\
      In (["chai-as-promised"], saveDev) calls /\
      (forall pkgs k, In (pkgs, k) calls -> In "bluebird" pkgs -> k = save) /\
      (forall pkgs k,
         In (pkgs, k) calls -> In "chai-as-promised" pkgs -> k = saveDev)
    else
      ~ installed calls "bluebird" /\ ~ installed calls "chai-as-promised".
Proof.
  destruct (install_run_calls w g) as [Hok Hcalls].
  exists (install_calls w g). split; [|split; [done|]].
  { destruct (install.run w g) as [r g']. simpl in Hok. by subst. }
  unfold install_calls, installed.
  destruct (truthy (field (context g) "promises")),
    (truthy (field (context g) "gulpfile")),
    (truthy (field (context g) "browser")); simpl;
    repeat split;
    try (intros pkgs k H1 H2; repeat destruct H1 as [H1|H1];
         try done; injection H1 as <- <-; simpl in H2;
         repeat destruct H2 as [H2|H2]; done);
    try (intros (pkgs & k & H1 & H2); repeat destruct H1 as [H1|H1];
         try done; injection H1 as <- <-; simpl in H2;
         repeat destruct H2 as [H2|H2]; done);
    tauto.
Qed.

(** ** The prompt engine *)

(** A prompt without a flagged question saves nothing. *)
Lemma prompt_unflagged (w : world) (qs : list Prompt.question)
    (g : generator) :
  List.filter Prompt.store qs = [] ->
  Prompt.prompt w qs g = Prompt.ask w qs [] g.
Proof.
  intros Hqs. unfold Prompt.prompt, Prompt.save, Prompt.flagged.
  rewrite Hqs. run_steps. by destruct (Prompt.ask w qs [] g) as [[a|e] g'].
Qed.

(** Saving the answers returns, and touches the files only. *)
Lemma save_run (w : world) (qs : list Prompt.question)
    (answers : list (string * value)) (g : generator) :
  exists files, Prompt.save w qs answers g = (Ok tt, set_fs files g).
Proof.
  unfold Prompt.save.
  destruct (Prompt.flagged qs answers); [by exists (fs g); destruct g|].
  destruct (promptValues_text w _); [by eexists|].
  by exists (fs g); destruct g.
Qed.

(** ** The Secret Provisioner (C5, C6) *)

Lemma prompt_genNpmKey (w : world) (g g0 : generator) :
  Prompt.prompt w (prompting.genNpmKey_questions g) g0
  = if credential_asked w g then
      match prompting.normalize
              (Prompt.entered w (prompting.npmApiKey_question g)) g0 with
      | (Ok v, g1) => (Ok (put "npmApiKey" v (regenerate_answers w g)), g1)
      | (Throw e, g1) => (Throw e, g1)
      end
    else (Ok (regenerate_answers w g), g0).
Proof.
  rewrite prompt_unflagged by done.
  unfold prompting.genNpmKey_questions, credential_asked,
    regenerate_answers.
  cbn [Prompt.ask].
  change (Prompt.filter (prompting.genNpmKey_question g))
    with Prompt.unfiltered.
  change (Prompt.filter (prompting.npmApiKey_question g))
    with prompting.normalize.
  change (Prompt.name (prompting.genNpmKey_question g)) with "genNpmKey".
  change (Prompt.name (prompting.npmApiKey_question g)) with "npmApiKey".
  change (Prompt.when (prompting.genNpmKey_question g) [])
    with (truthy (field (config g) "travisNpmKey")).
  destruct (truthy (field (config g) "travisNpmKey")) eqn:Hstored.
  - unfold Prompt.unfiltered. run_steps. cbn [put].
    match goal with |- (if ?c then _ else _) _ = _ => destruct c end;
      [|done].
    by destruct (Prompt.entered w (prompting.npmApiKey_question g))
      as [| |b|n|s|l|ps].
  - match goal with |- (if ?c then _ else _) _ = _ => destruct c end;
      [|done].
    run_steps.
    by destruct (Prompt.entered w (prompting.npmApiKey_question g))
      as [| |b|n|s|l|ps].
Qed.

Lemma normalize_pure (v : value) (g : generator) :
  (prompting.normalize v g).2 = g.
Proof. by destruct v. Qed.

(** The prompt of [genNpmKey] leaves the generator as it is, and the
    credential it yields is absent or a string. *)
Lemma prompt_genNpmKey_answers (w : world) (g g1 : generator)
    (ans : list (string * value)) :
  Prompt.prompt w (prompting.genNpmKey_questions g) g = (Ok ans, g1) ->
  g1 = g /\
  (assoc "npmApiKey" ans = VUndefined \/
   exists key, assoc "npmApiKey" ans = VStr key).
Proof.
  rewrite prompt_genNpmKey. unfold regenerate_answers.
  destruct (credential_asked w g).
  - destruct (Prompt.entered w (prompting.npmApiKey_question g)) as
      [| |b|n|s|l|ps]; simpl; try done.
    intros [= <- <-]. split; [done|]. right.
    destruct (truthy (field (config g) "travisNpmKey")); simpl; eauto.
  - intros [= <- <-]. split; [done|]. left.
    by destruct (truthy (field (config g) "travisNpmKey")).
Qed.

Lemma genNpmKey_run (w : world) (g : generator) (ans : list (string * value)) :
  Prompt.prompt w (prompting.genNpmKey_questions g) g = (Ok ans, g) ->
  prompting.genNpmKey w g = prompting.genNpmKey_callback w ans g.
Proof.
  intros H. unfold prompting.genNpmKey. run_steps. by rewrite H.
Qed.

(** C5.  Let [ans] be what the prompt of [genNpmKey] yields.  Without a
    credential in it the step changes nothing: no call to the encryption
    service, no write to the store.  With a credential, one call is made for
    the project [OADA/<repoName>]; if the call fails the error is logged and
    the store keeps what it held; if it succeeds the ciphertext is stored
    under [travisNpmKey], and nothing is logged. *)
Theorem secret_provisioner (w : world) (g g1 : generator)
    (ans : list (string * value)) :
  Prompt.prompt w (prompting.genNpmKey_questions g) g = (Ok ans, g1) ->
  (truthy (assoc "npmApiKey" ans) = false ->
   prompting.genNpmKey w g = (Ok tt, g)) /\
  (forall key, assoc "npmApiKey" ans = VStr key -> key <> "" ->
     exists g',
       prompting.genNpmKey w g = (Ok tt, g') /\
       encrypted g' = encrypted g ++ [(slug g, key)] /\
       match encrypt w (slug g) key with
       | inl err =>
           logged g' = logged g ++ [err] /\
           config g' = config g /\ config_writes g' = config_writes g
       | inr blob =>
           logged g' = logged g /\
           config g' = <["travisNpmKey" := VStr blob]> (config g) /\
           config_writes g' = config_writes g ++ [("travisNpmKey", VStr blob)]
       end).
Proof.
  intros H. destruct (prompt_genNpmKey_answers _ _ _ _ H) as [-> _].
  rewrite (genNpmKey_run _ _ _ H). unfold prompting.genNpmKey_callback.
  split.
  - by intros ->.
  - intros key -> Hkey.
    assert (truthy (VStr key) = true) as ->.
    { simpl. by destruct (String.eqb_spec key ""). }
    cbn [negb]. run_steps.
    change (to_string (VStr key)) with key. fold (slug g).
    unfold prompting.encrypted_callback.
    destruct (encrypt w (slug g) key) as [err|blob]; run_steps;
      eexists; (split; [reflexivity|]); by simpl.
Qed.

Lemma assoc_put_eq (k : string) (v : value) (l : list (string * value)) :
  assoc k (put k v l) = v.
Proof.
  induction l as [|[k' v'] l IH]; simpl.
  - by rewrite String.eqb_refl.
  - destruct (String.eqb_spec k k') as [->|Hne]; simpl.
    + by rewrite String.eqb_refl.
    + by destruct (String.eqb_spec k k').
Qed.

Lemma assoc_put_ne (k k' : string) (v : value) (l : list (string * value)) :
  k <> k' -> assoc k (put k' v l) = assoc k l.
Proof.
  intros Hne. induction l as [|[k0 v0] l IH]; simpl.
  - by destruct (String.eqb_spec k k').
  - destruct (String.eqb_spec k' k0) as [->|Hne']; simpl.
    + destruct (String.eqb_spec k k0); [done|].
      by destruct (String.eqb_spec k k0).
    + by rewrite IH.
Qed.

Lemma encode_nonempty (a : Z) (l : list Z) : Base64.encode (a :: l) <> "".
Proof. by destruct l as [|b [|c l]]. Qed.

Lemma base64_nonempty (s : string) : s <> "" -> Base64.base64 s <> "".
Proof.
  destruct s as [|c s]; [done|]. intros _. unfold Base64.base64. simpl.
  unfold Base64.utf8_char.
  destruct (Z.of_N (N_of_ascii c) <? 128); apply encode_nonempty.
Qed.

Lemma contains_nonempty (c : ascii) (s : string) :
  contains c s = true -> s <> "".
Proof. by destruct s. Qed.

(** C6.  Let the operator be asked for a credential and let [s] be the
    string entered (or taken from the default).  If [s] holds a [:], the
    encryption service is called with the base64 text of [s]; if it holds
    none and is not empty, the service is called with [s] itself.  (An empty
    [s] is no credential, and no call is made.) *)
Theorem credential_normalized (w : world) (g : generator) (s : string) :
  credential_asked w g = true ->
  Prompt.entered w (prompting.npmApiKey_question g) = VStr s ->
  (prompting.genNpmKey w g).1 = Ok tt /\
  (contains ":" s = true ->
   encrypted (prompting.genNpmKey w g).2
   = encrypted g ++ [(slug g, Base64.base64 s)]) /\
  (contains ":" s = false -> s <> "" ->
   encrypted (prompting.genNpmKey w g).2 = encrypted g ++ [(slug g, s)]).
Proof.
  intros Hasked Hraw.
  pose proof (prompt_genNpmKey w g g) as Hprompt.
  rewrite Hasked, Hraw in Hprompt. cbn [prompting.normalize] in Hprompt.
  run_steps in Hprompt.
  rewrite (genNpmKey_run _ _ _ Hprompt).
  unfold prompting.genNpmKey_callback. rewrite assoc_put_eq.
  change (to_string (VStr ?x)) with x. cbn [truthy].
  destruct (contains ":" s) eqn:Hcolon.
  - pose proof (base64_nonempty s (contains_nonempty _ _ Hcolon)) as Hne.
    destruct (String.eqb_spec (Base64.base64 s) "") as [|_]; [done|].
    cbn [negb]. run_steps. fold (slug g).
    unfold prompting.encrypted_callback.
    destruct (encrypt w (slug g) (Base64.base64 s)); run_steps;
      (split; [done|]); split; by simpl.
  - destruct (String.eqb_spec s "") as [->|Hne].
    + cbn [negb]. run_steps. split; [done|]. split; [done|]. by intros _ ?.
    + cbn [negb]. run_steps. fold (slug g).
      unfold prompting.encrypted_callback.
      destruct (encrypt w (slug g) s); run_steps;
        (split; [done|]); split; by simpl.
Qed.

Lemma secret_provisioner_witness :
  Prompt.prompt SecretSamples.token
    (prompting.genNpmKey_questions SecretSamples.named) SecretSamples.named
  = (Ok [("npmApiKey", VStr "token")], SecretSamples.named) /\
  exists g',
    prompting.genNpmKey SecretSamples.token SecretSamples.named = (Ok tt, g') /\
    encrypted g' = [("OADA/widget", "token")] /\
    config g' = {[ "travisNpmKey" := VStr "sealed" ]}.
Proof.
  assert (Prompt.prompt SecretSamples.token
            (prompting.genNpmKey_questions SecretSamples.named)
            SecretSamples.named
          = (Ok [("npmApiKey", VStr "token")], SecretSamples.named)) as H
    by (vm_compute; reflexivity).
  split; [exact H|].
  destruct (secret_provisioner _ _ _ _ H) as [_ Hkey].
  destruct (Hkey "token" eq_refl ltac:(discriminate)) as (g' & Hrun & Henc & Hres).
  exists g'. split; [exact Hrun|]. split; [exact Henc|].
  exact (proj1 (proj2 Hres)).
Defined.

Lemma credential_normalized_witness :
  credential_asked SecretSamples.pair SecretSamples.named = true /\
  encrypted (prompting.genNpmKey SecretSamples.pair SecretSamples.named).2
  = [("OADA/widget", "YW5uOnNlY3JldA==")] /\
  encrypted (prompting.genNpmKey SecretSamples.token SecretSamples.named).2
  = [("OADA/widget", "token")].
Proof.
  split; [reflexivity|]. split.
  - apply (credential_normalized SecretSamples.pair SecretSamples.named
             "ann:secret"); reflexivity.
  - apply (credential_normalized SecretSamples.token SecretSamples.named
             "token"); [reflexivity|reflexivity|reflexivity|discriminate].
Defined.

Lemma install_promises_witness :
  In (["bluebird"], save)
     (installs (install.run InstallSamples.quiet
                  (InstallSamples.flagged true)).2) /\
  In (["chai-as-promised"], saveDev)
     (installs (install.run InstallSamples.quiet
                  (InstallSamples.flagged true)).2) /\
  ~ installed (installs (install.run InstallSamples.quiet
                           (InstallSamples.flagged false)).2) "bluebird".
Proof.
  destruct (install_promises InstallSamples.quiet (InstallSamples.flagged true))
    as (calls & _ & -> & Hin1 & Hin2 & _).
  destruct (install_promises InstallSamples.quiet (InstallSamples.flagged false))
    as (calls' & _ & -> & Hout & _).
  repeat split; [exact Hin1|exact Hin2|exact Hout].
Defined.

(** ** The stored answers (C9) *)

Lemma entered_defined (w : world) (q : Prompt.question) :
  is_undefined (Prompt.entered w q) = false.
Proof.
  unfold Prompt.entered. destruct (Prompt.type q).
  - destruct (String.eqb _ _); [|done].
    by destruct (Prompt.suggested w q).
  - destruct (confirmed w _); [done|].
    by destruct (Prompt.suggested w q) as [| |[]| | | |].
Qed.

Lemma general_prompt (w : world) (g g0 : generator) :
  Prompt.prompt w (prompting.general_questions w g) g0
  = (Ok (general_answers w g), g0).
Proof. reflexivity. Qed.

(** [general] hands the answers to the context and to [localStore], then
    derives the names. *)
Lemma general_run (w : world) (g : generator) :
  prompting.general w g
  = prompting.name_fields (general_answers w g)
      (set_localStore (general_answers w g)
         (set_context (assign (context g) (general_answers w g)) g)).
Proof. reflexivity. Qed.

Lemma name_fields_ok (ans : list (string * value)) (g g' : generator) :
  prompting.name_fields ans g = (Ok tt, g') ->
  exists libName,
    assoc "libName" ans = VStr libName /\
    g' = set_context
           (<["varName" := VStr (varName (packageName libName))]>
              (<["packageName" := VStr (packageName libName)]>
                 (<["repoName" := VStr libName]> (context g)))) g.
Proof.
  unfold prompting.name_fields, prompting.context_set. run_steps.
  destruct (assoc "libName" ans) as [| |b|n|s|l|ps]; try done.
  intros [= <-]. by exists s.
Qed.

(** [genNpmKey] touches the log, the record of encryption calls, the
    store under [travisNpmKey] and with it the file of the store, and
    nothing else. *)
Lemma genNpmKey_frame (w : world) (g g' : generator) (r : result unit) :
  prompting.genNpmKey w g = (r, g') ->
  context g' = context g /\ localStore g' = localStore g /\
  conf g' = conf g /\
  (forall q, q <> destinationPath w ".yo-rc.json" ->
     fs g' !! q = fs g !! q) /\
  exists writes,
    config_writes g' = config_writes g ++ writes /\
    (forall k, k <> "travisNpmKey" -> config g' !! k = config g !! k) /\
    (forall k v, In (k, v) writes -> k = "travisNpmKey").
Proof.
  unfold prompting.genNpmKey. run_steps. rewrite prompt_genNpmKey.
  assert (context g = context g /\ localStore g = localStore g /\
          conf g = conf g /\
          (forall q, q <> destinationPath w ".yo-rc.json" ->
             fs g !! q = fs g !! q) /\
          exists writes,
            config_writes g = config_writes g ++ writes /\
            (forall k, k <> "travisNpmKey" -> config g !! k = config g !! k) /\
            (forall k v, In (k, v) writes -> k = "travisNpmKey")) as Hsame.
  { split; [done|]. split; [done|]. split; [done|]. split; [done|].
    exists []. split; [by rewrite app_nil_r|]. by split. }
  assert (forall ans, prompting.genNpmKey_callback w ans g = (r, g') ->
            context g' = context g /\ localStore g' = localStore g /\
            conf g' = conf g /\
            (forall q, q <> destinationPath w ".yo-rc.json" ->
               fs g' !! q = fs g !! q) /\
            exists writes,
              config_writes g' = config_writes g ++ writes /\
              (forall k, k <> "travisNpmKey" -> config g' !! k = config g !! k) /\
              (forall k v, In (k, v) writes -> k = "travisNpmKey")) as Hcb.
  { intros ans. unfold prompting.genNpmKey_callback.
    destruct (negb (truthy (assoc "npmApiKey" ans))); run_steps.
    - by intros [= <- <-].
    - unfold prompting.encrypted_callback.
      destruct (encrypt w _ _) as [err|blob]; run_steps; intros [= <- <-].
      + split; [done|]. split; [done|]. split; [done|]. split; [done|].
        exists []. split; [by rewrite app_nil_r|]. by split.
      + split; [done|]. split; [done|]. split; [done|]. split.
        { intros q Hq. cbn [fs config_set add_encrypted].
          by rewrite lookup_insert_ne. }
        eexists. split; [reflexivity|]. split.
        * intros k Hk. cbn [config config_set add_encrypted].
          by rewrite lookup_insert_ne.
        * intros k v [[= <- <-]|[]]. done. }
  destruct (credential_asked w g); [|apply Hcb].
  destruct (Prompt.entered w (prompting.npmApiKey_question g))
    as [| |b|n|s|l|ps]; simpl; try apply Hcb; by intros [= <- <-].
Qed.

(** The loop of [configuring.localStore], unrolled: every key of
    [this.localStore] is written, with the value the context holds, and
    no file changes but that of the store. *)
Lemma localStore_fold (w : world) (l : list (string * value))
    (g : generator) :
  let g' := fold_left
              (fun acc kv => config_set w kv.1 (field (context acc) kv.1) acc)
              l g in
  context g' = context g /\
  (forall q, q <> destinationPath w ".yo-rc.json" ->
     fs g' !! q = fs g !! q) /\
  conf g' = conf g /\
  config_writes g'
  = config_writes g ++ map (fun kv => (kv.1, field (context g) kv.1)) l /\
  config g'
  = fold_left (fun m kv => <[kv.1 := field (context g) kv.1]> m) l (config g).
Proof.
  revert g. induction l as [|[k v] l IH]; intros g; cbn [fold_left map].
  - split; [done|]. split; [done|]. split; [done|].
    by rewrite app_nil_r.
  - destruct (IH (config_set w k (field (context g) k) g))
      as (Hc & Hf & Hcf & Hw & Hs).
    cbn [context conf config config_writes fs config_set fst snd] in *.
    split; [done|]. split; [|split; [done|split; [|done]]].
    + intros q Hq. rewrite Hf by done. by rewrite lookup_insert_ne.
    + rewrite Hw. by rewrite <-app_assoc.
Qed.

Lemma load_previous_stored (g : generator) (q : Prompt.question) (v : value) :
  config g !! Prompt.name q = Some v -> is_undefined v = false ->
  Prompt.default (prompting.load_previous g q) = v.
Proof.
  intros Hv Hdef. unfold prompting.load_previous, field. simpl.
  rewrite Hv. simpl. by rewrite Hdef.
Qed.

Ltac lookup_inserts :=
  repeat (rewrite lookup_insert_ne by done); rewrite ?lookup_insert_eq.

(** After [general] the context holds every answer under its name. *)
Lemma general_ok (w : world) (g g1 : generator) :
  prompting.general w g = (Ok tt, g1) ->
  localStore g1 = general_answers w g /\
  config g1 = config g /\ config_writes g1 = config_writes g /\
  (forall k v, In (k, v) (general_answers w g) -> field (context g1) k = v).
Proof.
  rewrite general_run. intros (libName & _ & ->)%name_fields_ok.
  repeat split. simpl context. unfold field.
  intros k v Hin. cbn in Hin.
  repeat destruct Hin as [Hin|Hin]; try done;
    injection Hin as <- <-; cbn; by lookup_inserts.
Qed.

Section stored.
Context (f : string -> value).

Lemma fold_insert_other (l : list (string * value)) (m : gmap string value)
    (k : string) :
  ~ In k (map fst l) ->
  fold_left (fun m kv => <[kv.1 := f kv.1]> m) l m !! k = m !! k.
Proof.
  revert m. induction l as [|[k' v'] l IH]; intros m Hk; [done|].
  simpl in *. rewrite IH by tauto. apply lookup_insert_ne. tauto.
Qed.

Lemma fold_insert_lookup (l : list (string * value)) (m : gmap string value)
    (k : string) :
  In k (map fst l) ->
  fold_left (fun m kv => <[kv.1 := f kv.1]> m) l m !! k = Some (f k).
Proof.
  revert m. induction l as [|[k' v'] l IH]; intros m Hk; [done|].
  simpl in *.
  destruct (in_dec String.string_dec k (map fst l)) as [Hin|Hout].
  - by apply IH.
  - rewrite fold_insert_other by done.
    destruct Hk as [->|Hk]; [|done]. apply lookup_insert_eq.
Qed.

Lemma map_field_id (l : list (string * value)) :
  (forall k v, In (k, v) l -> f k = v) ->
  map (fun kv => (kv.1, f kv.1)) l = l.
Proof.
  induction l as [|[k v] l IH]; intros Hl; [done|]. simpl.
  rewrite (Hl k v) by (by left). f_equal. apply IH.
  intros k' v' Hin. apply Hl. by right.
Qed.
End stored.

Lemma alt_general_ask (w : world) (g g0 : generator) :
  Prompt.ask w (Alt.prompting.general_questions w g) [] g0
  = (Ok (alt_general_answers w g),
     config_set w "copyrightYear" (alt_year w g)
       (config_set w "copyrightYear" (alt_year w g) g0)).
Proof. reflexivity. Qed.

(** The round of the other variant: the filter of the year has written
    twice, and the host has saved what it saves of the answers. *)
Lemma alt_general_prompt (w : world) (g g0 : generator) :
  exists files,
    Prompt.prompt w (Alt.prompting.general_questions w g) g0
    = (Ok (alt_general_answers w g),
       set_fs files
         (config_set w "copyrightYear" (alt_year w g)
            (config_set w "copyrightYear" (alt_year w g) g0))).
Proof.
  unfold Prompt.prompt. run_steps. rewrite alt_general_ask.
  match goal with
  | |- context [Prompt.save w ?qs ?ans ?s] =>
      destruct (save_run w qs ans s) as [files ->]
  end.
  by exists files.
Qed.

(** In the other variant the one stored answer is the copyright year: the
    filter of its question writes it, each time the prompt engine calls it,
    stored before or not, whether or not the round then completes. *)
Lemma alt_year_stored (w : world) (g : generator) :
  config (Alt.prompting.general w g).2 !! "copyrightYear"
  = Some (alt_year w g) /\
  exists writes,
    config_writes (Alt.prompting.general w g).2 = config_writes g ++ writes /\
    writes <> [] /\
    forall k v, In (k, v) writes -> k = "copyrightYear" /\ v = alt_year w g.
Proof.
  unfold Alt.prompting.general. run_steps.
  destruct (alt_general_prompt w g g) as [files ->].
  unfold prompting.name_fields, prompting.author_fields,
    prompting.context_set.
  run_steps.
  assert (forall l : list (string * value),
            l = [("copyrightYear", alt_year w g);
                 ("copyrightYear", alt_year w g)] ->
            l <> [] /\
            forall k v, In (k, v) l ->
              k = "copyrightYear" /\ v = alt_year w g) as Hwrites.
  { intros l ->. split; [done|].
    by intros k v [[= <- <-]|[[= <- <-]|[]]]. }
  destruct (assoc "libName" (alt_general_answers w g));
    try destruct (prompting.authorJSON (alt_general_answers w g));
    (split; [apply lookup_insert_eq|]);
    eexists; (split; [|by apply Hwrites]);
    cbn [config_writes config_set set_context set_fs snd];
    by rewrite <-app_assoc.
Qed.

(** C9, as the code has it.  In [app/index.js], when the steps from the
    round of [general] to [configuring.localStore] complete, the writes of
    the run end with one write per question of the round, stored or not
    before; the store then holds each answer; and a later run over that
    store asks the questions with these answers as defaults.  In the other
    variant the round of [general] writes the copyright year, stored or not
    before, and writes nothing else. *)
Theorem answers_stored (w : world) (g g' : generator) :
  answer_round w g = (Ok tt, g') ->
  (exists earlier,
     config_writes g' = config_writes g ++ earlier ++ general_answers w g) /\
  (forall k v, In (k, v) (general_answers w g) -> config g' !! k = Some v) /\
  (forall w2 g2, config g2 = config g' ->
     map (fun q => (Prompt.name q, Prompt.default q))
         (prompting.general_questions w2 g2)
     = general_answers w g) /\
  config (Alt.prompting.general w g).2 !! "copyrightYear"
  = Some (alt_year w g) /\
  exists writes,
    config_writes (Alt.prompting.general w g).2 = config_writes g ++ writes /\
    writes <> [] /\
    forall k v, In (k, v) writes -> k = "copyrightYear" /\ v = alt_year w g.
Proof.
  unfold answer_round. run_steps.
  destruct (prompting.general w g) as [[[]|e] g1] eqn:Hgeneral; [|done].
  apply general_ok in Hgeneral as (Hls1 & Hcfg1 & Hw1 & Hctx1).
  destruct (prompting.genNpmKey w g1) as [[[]|e] g2] eqn:Hkey; [|done].
  apply genNpmKey_frame in Hkey
    as (Hctx & Hls & _ & _ & writes & Hwrites & _ & _).
  unfold configuring.localStore. rewrite Hls, Hls1. intros Hrun.
  assert (g' = fold_left
                 (fun acc kv => config_set w kv.1 (field (context acc) kv.1) acc)
                 (general_answers w g) g2) as -> by congruence.
  clear Hrun.
  destruct (localStore_fold w (general_answers w g) g2)
    as (_ & _ & _ & Hw & Hc).
  rewrite Hctx in Hw, Hc. rewrite map_field_id in Hw by done.
  assert (forall k v, In (k, v) (general_answers w g) ->
            config (fold_left (fun acc kv =>
                         config_set w kv.1 (field (context acc) kv.1) acc)
                      (general_answers w g) g2) !! k = Some v) as Hstored.
  { intros k v Hin. rewrite Hc.
    rewrite fold_insert_lookup by (by apply (in_map fst) in Hin).
    f_equal. by apply Hctx1. }
  split; [|split; [|split; [|apply alt_year_stored]]].
  - exists writes. by rewrite Hw, Hwrites, Hw1, <-app_assoc.
  - done.
  - intros w2 g2' Hsame.
    assert (forall q2 q,
              Prompt.name q2 = Prompt.name q ->
              In q (prompting.general_questions w g) ->
              (Prompt.name (prompting.load_previous g2' q2),
               Prompt.default (prompting.load_previous g2' q2))
              = (Prompt.name q, Prompt.entered w q)) as Hq.
    { intros q2 q Hname Hin. f_equal; [done|].
      apply load_previous_stored; [|apply entered_defined].
      rewrite Hsame, Hname. apply Hstored. unfold general_answers.
      by apply (in_map (fun q => (Prompt.name q, Prompt.entered w q))). }
    unfold general_answers, prompting.general_questions,
      prompting.general_literal.
    cbn [map].
    repeat (apply (f_equal2 cons);
            [apply Hq; [reflexivity|];
             unfold prompting.general_questions, prompting.general_literal;
             cbn [map In]; tauto|]).
    reflexivity.
Qed.

Lemma answers_stored_witness :
  answer_round StoreSamples.renaming StoreSamples.earlier
  = (Ok tt, (answer_round StoreSamples.renaming StoreSamples.earlier).2) /\
  forall k v,
    In (k, v) (general_answers StoreSamples.renaming StoreSamples.earlier) ->
    config (answer_round StoreSamples.renaming StoreSamples.earlier).2 !! k
    = Some v.
Proof.
  assert (answer_round StoreSamples.renaming StoreSamples.earlier
          = (Ok tt, (answer_round StoreSamples.renaming StoreSamples.earlier).2))
    as H by (vm_compute; reflexivity).
  split; [exact H|]. exact (proj1 (proj2 (answers_stored _ _ _ H))).
Defined.

(** C9 as the specification words it fails: the store holds [libName] when
    the run starts, and the run writes [libName] all the same, be the answer
    the stored one or a new one, which then replaces it. *)
Lemma answers_stored_counterexample :
  config StoreSamples.earlier !! "libName" = Some (VStr "widget") /\
  (generate StoreSamples.accepting StoreSamples.earlier).1 = Ok tt /\
  In ("libName", VStr "widget")
     (config_writes (generate StoreSamples.accepting StoreSamples.earlier).2) /\
  (generate StoreSamples.renaming StoreSamples.earlier).1 = Ok tt /\
  In ("libName", VStr "gadget")
     (config_writes (generate StoreSamples.renaming StoreSamples.earlier).2) /\
  config (generate StoreSamples.renaming StoreSamples.earlier).2 !! "libName"
  = Some (VStr "gadget").
Proof.
  split; [vm_compute; reflexivity|].
  split; [vm_compute; reflexivity|].
  split; [vm_compute; tauto|].
  split; [vm_compute; reflexivity|].
  split; [vm_compute; tauto|].
  vm_compute; reflexivity.
Qed.

(** ** The Template Materializer (C3) *)

Lemma destinationPath_inj (w : world) (a b : string) :
  destinationPath w a = destinationPath w b -> a = b.
Proof.
  unfold destinationPath. intros H.
  apply (inj (String.app (destinationRoot w))) in H.
  by apply (inj (String.app "/")) in H.
Qed.

(** Projections of a generator that a step has just built. *)
Ltac state_simpl :=
  cbn [conf context localStore config fs logged encrypted config_writes
       installs set_conf set_context set_localStore config_set set_fs
       add_log add_encrypted npmInstall fst snd negb].

(** Two destination paths with different texts below the root. *)
Ltac path_ne :=
  let H := fresh in
  intros H; apply destinationPath_inj in H; vm_compute in H; discriminate.

Ltac file_lookup :=
  repeat (rewrite lookup_insert_ne by path_ne); rewrite ?lookup_insert_eq.

Section keeps.
Context (w : world) (q : string).

Lemma keeps_ret : keeps q (ret tt).
Proof. by intros g c H. Qed.

Lemma keeps_seq (m1 m2 : step unit) :
  keeps q m1 -> keeps q m2 -> keeps q (m1;; m2).
Proof.
  intros H1 H2 g c Hc. specialize (H1 g c Hc). run_steps.
  destruct (m1 g) as [[[]|e] g1]; [|done]. by apply H2.
Qed.

Lemma keeps_bind {A} (m : step A) (k : A -> step unit) :
  (forall g, fs (m g).2 = fs g) -> (forall a, keeps q (k a)) ->
  keeps q (m ≫= k).
Proof.
  intros Hm Hk g c Hc. specialize (Hm g). run_steps.
  destruct (m g) as [[a|e] g1]; simpl in *.
  - apply Hk. by rewrite Hm.
  - by rewrite Hm.
Qed.

Lemma keeps_copyTpl (from to : string) :
  destinationPath w to <> q -> keeps q (Fs.copyTpl w from to).
Proof.
  intros Hne g c Hc. unfold Fs.copyTpl, Fs.write. run_steps. simpl.
  by rewrite lookup_insert_ne.
Qed.

(** A write guarded by [if (this.fs.exists(dest)) { return; }] cannot
    touch a file that is there. *)
Lemma keeps_unless_exists (dest : string) (m : step unit) :
  (destinationPath w dest <> q -> keeps q m) ->
  keeps q (there ← Fs.exists_ (destinationPath w dest);
           if (there : bool) then ret tt else m).
Proof.
  intros Hm g c Hc. unfold Fs.exists_. run_steps.
  case_bool_decide as Hthere; [done|]. apply Hm; [|done].
  intros Heq. apply Hthere. by rewrite Heq, Hc.
Qed.
End keeps.

Lemma writing_keeps (w : world) (q : string) :
  q <> destinationPath w "test/setup.js" -> keeps q (writing.run w).
Proof.
  intros Hsetup. unfold writing.run.
  repeat apply keeps_seq.
  - apply keeps_unless_exists. intros. by apply keeps_copyTpl.
  - apply keeps_unless_exists. intros. by apply keeps_copyTpl.
  - unfold writing.main. apply keeps_bind; [done|]. intros dest.
    apply keeps_unless_exists. intros. by apply keeps_copyTpl.
  - unfold writing.test. apply keeps_bind; [done|]. intros dest.
    apply keeps_unless_exists. intros.
    apply keeps_seq; by apply keeps_copyTpl.
Qed.

Lemma localStore_run (w : world) (g : generator) :
  configuring.localStore w g = (Ok tt, (configuring.localStore w g).2) /\
  context (configuring.localStore w g).2 = context g /\
  forall q, q <> destinationPath w ".yo-rc.json" ->
    fs (configuring.localStore w g).2 !! q = fs g !! q.
Proof.
  destruct (localStore_fold w (localStore g) g) as (Hctx & Hfs & _).
  split; [done|]. by split.
Qed.

(** *** The steps of [configuring], one by one *)

Lemma seq_ok (m k : step unit) (g g' : generator) :
  m g = (Ok tt, g') -> (m;; k) g = k g'.
Proof. intros H. run_steps. by rewrite H. Qed.

Section configuring_steps.
Context (w : world) (g : generator).

Lemma license_run :
  configuring.license w g
  = (Ok tt, put_template w "_NOTICE" "NOTICE"
              (put_file w "LICENSE" (template w "_LICENSE") g)).
Proof. reflexivity. Qed.

Lemma editorconfig_run :
  configuring.editorconfig w g
  = (Ok tt, put_file w ".editorconfig" (template w "editorconfig") g).
Proof. reflexivity. Qed.

Lemma ack_run :
  configuring.ack w g = (Ok tt, put_file w ".ackrc" (template w "ackrc") g).
Proof. reflexivity. Qed.

Lemma jshint_run :
  configuring.jshint w g
  = (Ok tt, put_file w ".jshintignore" (template w "jshintignore")
              (put_file w ".jshintrc" (template w "jshintrc") g)).
Proof. reflexivity. Qed.

Lemma jscs_run :
  configuring.jscs w g = (Ok tt, put_file w ".jscsrc" (template w "jscsrc") g).
Proof. reflexivity. Qed.

Lemma gulp_run :
  configuring.gulp w g
  = (Ok tt, if truthy (field (context g) "gulpfile")
            then put_template w "_gulpfile.js" "gulpfile.js" g else g).
Proof.
  unfold configuring.gulp. run_steps.
  by destruct (truthy (field (context g) "gulpfile")).
Qed.

Lemma karma_run :
  configuring.karma w g
  = (Ok tt, if truthy (field (context g) "browser")
            then put_template w "_karma.conf.js" "karma.conf.js" g else g).
Proof.
  unfold configuring.karma. run_steps.
  by destruct (truthy (field (context g) "browser")).
Qed.

Lemma istanbul_run :
  configuring.istanbul w g
  = (Ok tt, put_file w ".istanbul.yml" (template w "istanbul.yml") g).
Proof. reflexivity. Qed.

Lemma npm_run :
  configuring.npm w g
  = (Ok tt, put_template w "_package.json" "package.json" g).
Proof. reflexivity. Qed.

Lemma git_run :
  configuring.git w g
  = (Ok tt, put_file w ".gitignore" (template w "gitignore") g).
Proof. reflexivity. Qed.

Lemma travis_run :
  configuring.travis w g
  = (Ok tt, put_template w "travis.yml" ".travis.yml"
              (set_context
                 (<["travisNpmKey" := field (config g) "travisNpmKey"]>
                    (context g)) g)).
Proof. reflexivity. Qed.

Lemma alt_license_run :
  Alt.configuring.license w g
  = (Ok tt, put_template w "_NOTICE" "NOTICE"
              (put_template w "_AUTHORS" "AUTHORS"
                 (put_file w "LICENSE" (template w "_LICENSE") g))).
Proof. reflexivity. Qed.

Lemma alt_readme_run :
  Alt.configuring.readme w g
  = (Ok tt, put_template w "_README.md" "README.md" g).
Proof. reflexivity. Qed.
End configuring_steps.

Lemma mocha_run (w : world) :
  exists text, forall g,
    configuring.mocha w g
    = (Ok tt, put_file w "test/.jshintrc" text
                (put_file w "test/mocha.opts" (template w "test/mocha.opts") g)).
Proof. eexists. intros g. reflexivity. Qed.

(** *** What a step guarantees *)

Section holds.
Context (w : world).

Lemma holds_seq (P R Q : generator -> Prop) (m k : step unit) :
  holds P m R -> holds R k Q -> holds P (m;; k) Q.
Proof.
  intros Hm Hk s Hs. destruct (Hm s Hs) as [Hok HR]. run_steps.
  destruct (m s) as [[[]|e] s1]; [|done]. by apply Hk.
Qed.

Lemma same_on_refl (kept : list string) (s0 : generator) :
  same_on w kept s0 s0.
Proof. by repeat split. Qed.

Lemma same_on_put_file (kept : list string) (s0 s : generator)
    (to content : string) :
  ~ In to kept -> same_on w kept s0 s ->
  same_on w kept s0 (put_file w to content s).
Proof.
  intros Hto (Hctx & Hcfg & Hfs). repeat split; try done.
  intros p Hp. simpl. rewrite lookup_insert_ne; [by apply Hfs|].
  intros Heq%destinationPath_inj. by subst.
Qed.

Lemma same_on_put_template (kept : list string) (s0 s : generator)
    (from to : string) :
  ~ In to kept -> same_on w kept s0 s ->
  same_on w kept s0 (put_template w from to s).
Proof. apply same_on_put_file. Qed.
End holds.

Ltac not_claimed := unfold claimed; simpl; intuition discriminate.

(** The steps between [license] and [travis], in both variants, leave the
    context, the store and the three files alone. *)
Section between.
Context (w : world) (s0 : generator).

Ltac between lem :=
  let s := fresh "s" in
  let Hs := fresh "Hs" in
  intros s Hs; rewrite lem; split; [done|]; cbn [snd];
  repeat first [apply same_on_put_file | apply same_on_put_template];
  try not_claimed; done.

Lemma editorconfig_between :
  holds (same_on w claimed s0) (configuring.editorconfig w)
        (same_on w claimed s0).
Proof. between editorconfig_run. Qed.

Lemma ack_between :
  holds (same_on w claimed s0) (configuring.ack w) (same_on w claimed s0).
Proof. between ack_run. Qed.

Lemma jshint_between :
  holds (same_on w claimed s0) (configuring.jshint w) (same_on w claimed s0).
Proof. between jshint_run. Qed.

Lemma jscs_between :
  holds (same_on w claimed s0) (configuring.jscs w) (same_on w claimed s0).
Proof. between jscs_run. Qed.

Lemma gulp_between :
  holds (same_on w claimed s0) (configuring.gulp w) (same_on w claimed s0).
Proof.
  intros s Hs. rewrite gulp_run. split; [done|]. cbn [snd].
  destruct (truthy _); [|done]. apply same_on_put_template; [not_claimed|done].
Qed.

Lemma karma_between :
  holds (same_on w claimed s0) (configuring.karma w) (same_on w claimed s0).
Proof.
  intros s Hs. rewrite karma_run. split; [done|]. cbn [snd].
  destruct (truthy _); [|done]. apply same_on_put_template; [not_claimed|done].
Qed.

Lemma mocha_between :
  holds (same_on w claimed s0) (configuring.mocha w) (same_on w claimed s0).
Proof.
  destruct (mocha_run w) as [text Hmocha]. between Hmocha.
Qed.

Lemma istanbul_between :
  holds (same_on w claimed s0) (configuring.istanbul w)
        (same_on w claimed s0).
Proof. between istanbul_run. Qed.

Lemma npm_between :
  holds (same_on w claimed s0) (configuring.npm w) (same_on w claimed s0).
Proof. between npm_run. Qed.

Lemma git_between :
  holds (same_on w claimed s0) (configuring.git w) (same_on w claimed s0).
Proof. between git_run. Qed.

Lemma travis_delivers :
  holds (same_on w claimed s0) (configuring.travis w) (delivered w s0).
Proof.
  intros s (Hctx & Hcfg & Hfs). rewrite travis_run. split; [done|].
  cbn [snd]. unfold delivered, put_template, put_file. state_simpl.
  rewrite Hctx, Hcfg. split; [done|]. split; [by rewrite lookup_insert_eq|].
  intros p Hp. rewrite lookup_insert_ne; [by apply Hfs|].
  intros Heq%destinationPath_inj. subst. revert Hp. not_claimed.
Qed.
End between.

Create HintDb between discriminated.
#[global] Hint Resolve editorconfig_between ack_between jshint_between
  jscs_between gulp_between karma_between mocha_between istanbul_between
  npm_between git_between travis_delivers : between.

(** What [configuring.run] leaves behind: it returns, the stored key is
    copied into the context, and the files of the catalog are written. *)
Lemma configuring_run_files (w : world) (g : generator) :
  let g1 := (configuring.localStore w g).2 in
  let ctx := <["travisNpmKey" := field (config g1) "travisNpmKey"]> (context g) in
  let g2 := (configuring.run w g).2 in
  (configuring.run w g).1 = Ok tt /\
  context g2 = ctx /\
  fs g2 !! destinationPath w "LICENSE" = Some (template w "_LICENSE") /\
  fs g2 !! destinationPath w "NOTICE"
  = Some (render w (template w "_NOTICE") (context g)) /\
  fs g2 !! destinationPath w ".travis.yml"
  = Some (render w (template w "travis.yml") ctx) /\
  fs g2 !! destinationPath w "README.md" = fs g !! destinationPath w "README.md".
Proof.
  intros g1 ctx g2. subst ctx g2.
  destruct (localStore_run w g) as (Hrun & Hctx & Hfs).
  fold g1 in Hrun, Hctx, Hfs.
  set (s0 := put_template w "_NOTICE" "NOTICE"
               (put_file w "LICENSE" (template w "_LICENSE") g1)).
  assert (holds (fun s => s = g) (configuring.run w) (delivered w s0)) as Hrunning.
  { unfold configuring.run.
    apply holds_seq with (R := fun s => s = g1).
    { intros s ->. by rewrite Hrun. }
    apply holds_seq with (R := same_on w claimed s0).
    { intros s ->. rewrite license_run. split; [done|]. apply same_on_refl. }
    repeat (eapply holds_seq; [by auto with between|]).
    by auto with between. }
  destruct (Hrunning g eq_refl) as (Hok & Hc & Ht & Hkept).
  assert (context s0 = context g) as Hctx0 by (by rewrite <-Hctx).
  assert (config s0 = config g1) as Hcfg0 by done.
  rewrite Hctx0, Hcfg0 in Hc, Ht.
  split; [done|]. split; [done|].
  rewrite (Hkept "README.md"), (Hkept "LICENSE"), (Hkept "NOTICE")
    by (unfold claimed; simpl; tauto).
  subst s0. unfold put_template, put_file. state_simpl. rewrite Hctx.
  (split; [|split; [|split]]); file_lookup; try done.
  apply Hfs. path_ne.
Qed.

(** The other variant renders [README.md] with the rest. *)
Lemma alt_configuring_run_files (w : world) (g : generator) :
  let ctx := <["travisNpmKey" := field (config g) "travisNpmKey"]> (context g) in
  let g2 := (Alt.configuring.run w g).2 in
  (Alt.configuring.run w g).1 = Ok tt /\
  fs g2 !! destinationPath w "README.md"
  = Some (render w (template w "_README.md") (context g)) /\
  fs g2 !! destinationPath w "LICENSE" = Some (template w "_LICENSE") /\
  fs g2 !! destinationPath w "NOTICE"
  = Some (render w (template w "_NOTICE") (context g)) /\
  fs g2 !! destinationPath w ".travis.yml"
  = Some (render w (template w "travis.yml") ctx).
Proof.
  intros ctx g2. subst ctx g2.
  set (s0 := put_template w "_README.md" "README.md"
               (put_template w "_NOTICE" "NOTICE"
                  (put_template w "_AUTHORS" "AUTHORS"
                     (put_file w "LICENSE" (template w "_LICENSE") g)))).
  assert (holds (fun s => s = g) (Alt.configuring.run w) (delivered w s0))
    as Hrunning.
  { unfold Alt.configuring.run.
    apply holds_seq with
      (R := fun s => s = put_template w "_NOTICE" "NOTICE"
                         (put_template w "_AUTHORS" "AUTHORS"
                            (put_file w "LICENSE" (template w "_LICENSE") g))).
    { intros s ->. by rewrite alt_license_run. }
    apply holds_seq with (R := same_on w claimed s0).
    { intros s ->. rewrite alt_readme_run. split; [done|]. apply same_on_refl. }
    repeat (eapply holds_seq; [by auto with between|]).
    by auto with between. }
  destruct (Hrunning g eq_refl) as (Hok & Hc & Ht & Hkept).
  split; [done|].
  rewrite (Hkept "README.md"), (Hkept "LICENSE"), (Hkept "NOTICE")
    by (unfold claimed; simpl; tauto).
  subst s0. unfold put_template, put_file in *.
  state_simpl. revert Ht. state_simpl. intros Ht.
  (split; [|split; [|split]]); try done; by file_lookup.
Qed.

(** C3, as the code has it.  In [app/index.js] a [README.md] that is in the
    destination directory comes out of the materializer (the phases
    [configuring] and [writing], completed or not) with the content it had,
    while [LICENSE], [NOTICE] and [.travis.yml] hold what the templates
    give, whatever was there.  In the other variant the phase [configuring]
    renders [README.md] as well, whatever was there. *)
Theorem materializer_files (w : world) (g : generator) :
  let ctx :=
    <["travisNpmKey" := field (config (configuring.localStore w g).2)
                          "travisNpmKey"]> (context g) in
  let g' := (materialize w g).2 in
  (forall c, fs g !! destinationPath w "README.md" = Some c ->
             fs g' !! destinationPath w "README.md" = Some c) /\
  fs g' !! destinationPath w "LICENSE" = Some (template w "_LICENSE") /\
  fs g' !! destinationPath w "NOTICE"
  = Some (render w (template w "_NOTICE") (context g)) /\
  fs g' !! destinationPath w ".travis.yml"
  = Some (render w (template w "travis.yml") ctx) /\
  fs (Alt.configuring.run w g).2 !! destinationPath w "README.md"
  = Some (render w (template w "_README.md") (context g)).
Proof.
  intros ctx g'. subst ctx g'.
  destruct (configuring_run_files w g) as (Hok & _ & Hl & Hn & Ht & Hr).
  destruct (alt_configuring_run_files w g) as (_ & Halt & _).
  unfold materialize. run_steps.
  destruct (configuring.run w g) as [[[]|e] g2]; [|done]. cbn [fst snd] in *.
  split; [|split; [|split; [|split]]]; try done; try (intros c Hc);
    (apply writing_keeps; [path_ne|]); try done.
  by rewrite Hr.
Qed.

Lemma materializer_files_witness :
  fs FileSamples.prompted !! destinationPath FileSamples.accepting "README.md"
  = Some "my notes" /\
  fs (materialize FileSamples.accepting FileSamples.prompted).2
    !! destinationPath FileSamples.accepting "README.md"
  = Some "my notes" /\
  fs (materialize FileSamples.accepting FileSamples.prompted).2
    !! destinationPath FileSamples.accepting "LICENSE"
  = Some "<_LICENSE>".
Proof.
  assert (fs FileSamples.prompted
            !! destinationPath FileSamples.accepting "README.md"
          = Some "my notes") as H by (vm_compute; reflexivity).
  destruct (materializer_files FileSamples.accepting FileSamples.prompted)
    as (Hreadme & Hlicense & _).
  split; [exact H|]. split; [exact (Hreadme _ H)|exact Hlicense].
Defined.

(** C3 as the specification words it fails in the other variant of the
    generator: a run over a directory that holds [README.md] replaces the
    operator's text by the rendered template. *)
Lemma materializer_files_counterexample :
  fs FileSamples.kept_notes
    !! destinationPath FileSamples.accepting "README.md"
  = Some "my notes" /\
  (Alt.generate FileSamples.accepting FileSamples.kept_notes).1 = Ok tt /\
  fs (Alt.generate FileSamples.accepting FileSamples.kept_notes).2
    !! destinationPath FileSamples.accepting "README.md"
  = Some "<_README.md>widget" /\
  fs (Alt.generate FileSamples.accepting FileSamples.kept_notes).2
    !! destinationPath FileSamples.accepting "README.md"
  <> fs FileSamples.kept_notes
       !! destinationPath FileSamples.accepting "README.md".
Proof.
  split; [vm_compute; reflexivity|].
  split; [vm_compute; reflexivity|].
  split; [vm_compute; reflexivity|].
  vm_compute. discriminate.
Qed.

(** ** The Context Resolver (C4, C8) *)

Section conf_frame.

Lemma touches_bind {A B} (keys : list string) (m : step A) (k : A -> step B) :
  touches keys m -> (forall a, touches keys (k a)) -> touches keys (m ≫= k).
Proof.
  intros Hm Hk g. destruct (Hm g) as [Hfs Hconf]. run_steps.
  destruct (m g) as [[a|e] g1]; simpl in *; [|done].
  destruct (Hk a g1) as [Hfs' Hconf']. split; [congruence|].
  intros key Hkey. by rewrite Hconf', Hconf.
Qed.

Lemma touches_lift {A} (keys : list string) (r : result A) :
  touches keys (lift r).
Proof. by intros g. Qed.

Lemma touches_ret {A} (keys : list string) (a : A) : touches keys (ret a).
Proof. by intros g. Qed.

Lemma touches_throw {A} (keys : list string) (e : exn) :
  touches keys (@throw A e).
Proof. by intros g. Qed.

Lemma touches_read {A} (keys : list string) (f : generator -> A) :
  touches keys (read f).
Proof. by intros g. Qed.

Lemma touches_log (keys : list string) (e : exn) :
  touches keys (update (add_log e)).
Proof. by intros g. Qed.

Lemma touches_conf_set (keys : list string) (key : string)
    (v : generator -> value) :
  In key keys -> touches keys (initializing.conf_set key v).
Proof.
  intros Hin g. split; [done|]. intros k Hk. simpl.
  apply lookup_insert_ne. by intros ->.
Qed.

Lemma touches_and_then (keys : list string) (a : value) (b : step value) :
  touches keys b -> touches keys (initializing.and_then a b).
Proof.
  intros Hb. unfold initializing.and_then.
  destruct (truthy a); [done|apply touches_ret].
Qed.

Lemma touches_or_else (keys : list string) (a : value) (b : step value) :
  touches keys b -> touches keys (initializing.or_else a b).
Proof.
  intros Hb. unfold initializing.or_else.
  destruct (truthy a); [apply touches_ret|done].
Qed.
End conf_frame.

Ltac touches :=
  repeat first
    [ apply touches_lift | apply touches_ret | apply touches_read
    | apply touches_throw | apply touches_log
    | apply touches_conf_set; simpl; tauto
    | apply touches_and_then | apply touches_or_else
    | apply touches_bind; [|intros ?] ].

Lemma packageJson_library_touches (json : value) :
  touches ["libName"; "version"; "main"; "libDesc"]
    (initializing.packageJson_library json).
Proof. unfold initializing.packageJson_library. touches. Qed.

Lemma default_run (g : generator) :
  initializing.default g
  = (Ok tt, set_conf (<["main" := VStr "index.js"]>
                        (<["version" := VStr "0.0.0"]> ∅)) g).
Proof. reflexivity. Qed.

Lemma dir_touches (w : world) : touches ["libName"] (initializing.dir w).
Proof. unfold initializing.dir. touches. Qed.

Lemma gitConfig_touches (w : world) :
  touches ["name"; "email"] (initializing.gitConfig w).
Proof.
  unfold initializing.gitConfig.
  destruct (gitconf w) as [err|cf]; [touches|].
  destruct (cf !! "user"); touches.
Qed.

Lemma npmConfig_touches (w : world) :
  touches ["name"; "email"; "url"; "npmKey"] (initializing.npmConfig w).
Proof.
  unfold initializing.npmConfig. destruct (npmconf w) as [err|cf]; touches.
Qed.

(** [packageJson] never throws: what its body throws is logged. *)
Lemma packageJson_total (w : world) (g : generator) :
  (initializing.packageJson w g).1 = Ok tt /\
  conf (initializing.packageJson w g).2
  = conf (initializing.packageJson_body w g).2 /\
  fs (initializing.packageJson w g).2
  = fs (initializing.packageJson_body w g).2.
Proof.
  unfold initializing.packageJson. run_steps.
  by destruct (initializing.packageJson_body w g) as [[[]|e] g1].
Qed.

(** The author of a manifest, where its three fields are truthy, is taken
    over the values found before. *)
Lemma packageJson_author_fields (w : world) (g : generator)
    (text : string) (json : value) (props : list (string * value)) :
  fs g !! destinationPath w "package.json" = Some text ->
  JSON_parse w text = Some json ->
  get json "author" = Ok (VObj props) ->
  truthy (assoc "name" props) = true ->
  truthy (assoc "email" props) = true ->
  truthy (assoc "url" props) = true ->
  let g' := (initializing.packageJson w g).2 in
  field (conf g') "name" = assoc "name" props /\
  field (conf g') "email" = assoc "email" props /\
  field (conf g') "url" = assoc "url" props.
Proof.
  intros Hfile Hparse Hauthor Hname Hemail Hurl g'. subst g'.
  destruct (packageJson_total w g) as (_ & -> & _).
  unfold initializing.packageJson_body, initializing.readJSON. run_steps.
  rewrite Hfile, Hparse.
  assert (initializing.packageJson_author json g
          = (Ok tt, set_conf (<["url" := assoc "url" props]>
                                (<["email" := assoc "email" props]>
                                   (<["name" := assoc "name" props]> (conf g))))
                      g)) as ->.
  { unfold initializing.packageJson_author, initializing.and_then,
      initializing.conf_set, initializing.conf_get.
    run_steps. rewrite Hauthor. simpl. unfold or.
    by rewrite Hname, Hemail, Hurl. }
  destruct (packageJson_library_touches json
              (set_conf (<["url" := assoc "url" props]>
                           (<["email" := assoc "email" props]>
                              (<["name" := assoc "name" props]> (conf g)))) g))
    as [_ Hkeeps].
  unfold field. rewrite !Hkeeps by (simpl; intuition discriminate).
  simpl. (split; [|split]); by lookup_inserts.
Qed.

(** C8, as the code has it.  Let the destination directory hold a manifest
    that parses and whose [author] is an object with truthy (for strings:
    non-empty) [name], [email] and [url].  When the resolver completes, the
    author fields of the configuration, and of the context copied from it,
    are the manifest's, whatever git or npm supplied before. *)
Theorem manifest_author (w : world) (g g' : generator)
    (text : string) (json : value) (props : list (string * value)) :
  initializing.run w g = (Ok tt, g') ->
  fs g !! destinationPath w "package.json" = Some text ->
  JSON_parse w text = Some json ->
  get json "author" = Ok (VObj props) ->
  truthy (assoc "name" props) = true ->
  truthy (assoc "email" props) = true ->
  truthy (assoc "url" props) = true ->
  context g' = conf g' /\
  field (context g') "name" = assoc "name" props /\
  field (context g') "email" = assoc "email" props /\
  field (context g') "url" = assoc "url" props.
Proof.
  intros Hrun Hfile Hparse Hauthor Hname Hemail Hurl.
  unfold initializing.run, initializing.resolve, initializing.context in Hrun.
  run_steps in Hrun. rewrite default_run in Hrun.
  pose proof (dir_touches w (set_conf (<["main" := VStr "index.js"]>
                                        (<["version" := VStr "0.0.0"]> ∅)) g))
    as [Hfs1 _].
  destruct (initializing.dir w _) as [[[]|e] g1]; [|done].
  pose proof (gitConfig_touches w g1) as [Hfs2 _].
  destruct (initializing.gitConfig w g1) as [[[]|e] g2]; [|done].
  pose proof (npmConfig_touches w g2) as [Hfs3 _].
  destruct (initializing.npmConfig w g2) as [[[]|e] g3]; [|done].
  simpl in Hfs1, Hfs2, Hfs3.
  assert (fs g3 !! destinationPath w "package.json" = Some text) as Hfile3
    by (by rewrite Hfs3, Hfs2, Hfs1).
  pose proof (packageJson_author_fields w g3 text json props
                Hfile3 Hparse Hauthor Hname Hemail Hurl) as Hfields.
  destruct (initializing.packageJson w g3) as [[[]|e] g4]; [|done].
  injection Hrun as <-. by split.
Qed.

Lemma manifest_author_witness :
  (initializing.run (ManifestSamples.with_manifest ManifestSamples.bea)
     (fresh ∅ ManifestSamples.files)).1 = Ok tt /\
  field (context (initializing.run
                    (ManifestSamples.with_manifest ManifestSamples.bea)
                    (fresh ∅ ManifestSamples.files)).2) "name"
  = VStr "Bea".
Proof.
  set (w := ManifestSamples.with_manifest ManifestSamples.bea).
  set (g := fresh ∅ ManifestSamples.files).
  assert (initializing.run w g = (Ok tt, (initializing.run w g).2)) as Hrun
    by (vm_compute; reflexivity).
  assert (fs g !! destinationPath w "package.json" = Some "{...}") as Hfile
    by (vm_compute; reflexivity).
  split; [by rewrite Hrun|].
  pose proof (manifest_author w g _ "{...}" ManifestSamples.bea
                [("name", VStr "Bea"); ("email", VStr "bea@oada.org");
                 ("url", VStr "http://oada.org/bea")]
                Hrun Hfile eq_refl eq_refl eq_refl eq_refl eq_refl)
    as (_ & Hname & _).
  exact Hname.
Defined.

(** C8 as the specification words it fails on a manifest whose author
    fields are there and empty: the name and the email that git supplied
    stay. *)
Lemma manifest_author_counterexample :
  get ManifestSamples.blank "author"
  = Ok (VObj [("name", VStr ""); ("email", VStr ""); ("url", VStr "")]) /\
  (initializing.run (ManifestSamples.with_manifest ManifestSamples.blank)
     (fresh ∅ ManifestSamples.files)).1 = Ok tt /\
  field (context (initializing.run
                    (ManifestSamples.with_manifest ManifestSamples.blank)
                    (fresh ∅ ManifestSamples.files)).2) "name"
  = VStr "Ann" /\
  field (context (initializing.run
                    (ManifestSamples.with_manifest ManifestSamples.blank)
                    (fresh ∅ ManifestSamples.files)).2) "email"
  = VStr "ann@oada.org" /\
  field (context (initializing.run
                    (ManifestSamples.with_manifest ManifestSamples.blank)
                    (fresh ∅ ManifestSamples.files)).2) "name"
  <> VStr "".
Proof.
  split; [reflexivity|].
  split; [vm_compute; reflexivity|].
  split; [vm_compute; reflexivity|].
  split; [vm_compute; reflexivity|].
  vm_compute. discriminate.
Qed.

(** C4 at a git configuration that loads without error and has no [user]
    section: [gitConfig] reads [conf.user.name], the [TypeError] is thrown
    outside any handler and the resolver does not complete. *)
Theorem resolver_git_without_user :
  (initializing.run (Samples.sample [] Samples.no_user None Samples.sealed)
     (fresh ∅ ∅)).1
  = Throw (TypeError "Cannot read property 'name' of undefined").
Proof. vm_compute. reflexivity. Qed.

(** What does hold of C4: once the destination path has a last segment and
    a git configuration that loads has a [user] section, the resolver
    completes, whichever sources report a failure. *)
Lemma resolver_completes (w : world) (g : generator) :
  initializing.match_dir (destinationRoot w) <> None ->
  (forall cf, gitconf w = inr cf -> cf !! "user" <> None) ->
  (initializing.run w g).1 = Ok tt.
Proof.
  intros Hdir Hgit.
  unfold initializing.run, initializing.resolve, initializing.context.
  run_steps. rewrite default_run.
  unfold initializing.dir, initializing.conf_set. run_steps.
  destruct (initializing.match_dir (destinationRoot w)) as [seg|]; [|done].
  unfold initializing.gitConfig.
  destruct (gitconf w) as [err|cf] eqn:Hcf; run_steps.
  - unfold initializing.npmConfig, initializing.conf_set.
    destruct (npmconf w) as [err'|cf']; run_steps;
      match goal with
      | |- context [initializing.packageJson w ?s] =>
          destruct (packageJson_total w s) as (Hok & _);
          by destruct (initializing.packageJson w s) as [[[]|e] s']
      end.
  - specialize (Hgit cf eq_refl).
    destruct (cf !! "user") as [user|]; [|done].
    unfold initializing.npmConfig, initializing.conf_set.
    destruct (npmconf w) as [err'|cf']; run_steps;
      match goal with
      | |- context [initializing.packageJson w ?s] =>
          destruct (packageJson_total w s) as (Hok & _);
          by destruct (initializing.packageJson w s) as [[[]|e] s']
      end.
Qed.

(** And when all three sources report a failure, each is logged and the
    defaults stand. *)
Lemma resolver_defaults_survive (w : world) (g : generator)
    (seg text : string) (e1 e2 : exn) :
  initializing.match_dir (destinationRoot w) = Some seg ->
  gitconf w = inl e1 ->
  npmconf w = inl e2 ->
  fs g !! destinationPath w "package.json" = Some text ->
  JSON_parse w text = None ->
  exists g',
    initializing.run w g = (Ok tt, g') /\
    context g' = conf g' /\
    conf g' = <["libName" := or (VStr seg) VUndefined]>
                (<["main" := VStr "index.js"]>
                   (<["version" := VStr "0.0.0"]> ∅)) /\
    logged g'
    = logged g ++ [e1; e2;
                   parse_failure w (destinationPath w "package.json") text].
Proof.
  intros Hdir Hgit Hnpm Hfile Hparse.
  unfold initializing.run, initializing.resolve, initializing.context,
    initializing.default, initializing.dir, initializing.gitConfig,
    initializing.npmConfig, initializing.packageJson,
    initializing.packageJson_body, initializing.readJSON,
    initializing.conf_set, initializing.conf_get.
  rewrite Hdir, Hgit, Hnpm. run_steps. state_simpl.
  rewrite Hfile, Hparse. eexists. split; [reflexivity|].
  state_simpl. split; [done|]. split; [done|].
  by rewrite <-!app_assoc.
Qed.

(** The other variant installs neither promise package. *)
Lemma alt_install_calls (g : generator) :
  Alt.install.run g
  = (Ok tt,
     npmInstall ["jscs"] saveDev
       (npmInstall ["jshint"; "jshint-stylish"] saveDev
          (npmInstall ["chai"] saveDev
             (npmInstall ["mocha"] saveDev
                (npmInstall ["istanbul"] saveDev g))))).
Proof. reflexivity. Qed.

(** * Further properties of the code *)

(** ** The library name taken from the destination directory *)

Section dir_name.
Implicit Types p seg t : string.

Lemma slash_free_cons (c : ascii) seg :
  slash_free (String c seg) = true ->
  Ascii.eqb c "/" = false /\ slash_free seg = true.
Proof.
  unfold slash_free. cbn [contains]. rewrite (Ascii.eqb_sym "/" c).
  by destruct (Ascii.eqb c "/").
Qed.

(** The equation of [last_segment] with the match on the rest spelled out
    as a test. *)
Lemma last_segment_cons (c : ascii) (rest : string) :
  initializing.last_segment (String c rest)
  = if Ascii.eqb c "/" then false
    else if String.eqb rest "" || String.eqb rest "/" then true
         else initializing.last_segment rest.
Proof.
  cbn [initializing.last_segment]. destruct (Ascii.eqb c "/"); [done|].
  destruct rest as [|d [|e rest]]; [done| |];
    by destruct d as [[] [] [] [] [] [] [] []].
Qed.

Lemma last_segment_whole seg t :
  seg <> "" -> slash_free seg = true -> t = "" \/ t = "/" ->
  initializing.last_segment (seg +:+ t) = true.
Proof.
  intros Hne Hfree Ht. induction seg as [|c seg IH]; [done|].
  apply slash_free_cons in Hfree as [Hc Hfree].
  rewrite append_cons, last_segment_cons, Hc.
  destruct seg as [|d seg].
  - rewrite append_empty_l. by destruct Ht as [-> | ->].
  - rewrite IH by done. by destruct (_ || _).
Qed.

Lemma last_segment_inner p (c : ascii) t :
  initializing.last_segment (p +:+ "/" +:+ String c t) = false.
Proof.
  induction p as [|d p IH]; [done|].
  rewrite append_cons, last_segment_cons, IH.
  destruct (Ascii.eqb d "/"); [done|].
  assert (forall u, (String.length u < 2)%nat ->
            String.eqb (p +:+ "/" +:+ String c t) u = false) as Hlong.
  { intros u Hu. apply String.eqb_neq, append_not_short.
    change ("/" +:+ String c t) with (String "/" (String c t)).
    simpl. length_lia. }
  by rewrite !Hlong by (simpl; lia).
Qed.

Lemma match_dir_segment p seg t :
  seg <> "" -> slash_free seg = true -> t = "" \/ t = "/" ->
  initializing.match_dir (p +:+ "/" +:+ seg +:+ t) = Some (seg +:+ t).
Proof.
  intros Hne Hfree Ht. induction p as [|d p IH].
  - rewrite append_empty_l. cbn [initializing.match_dir String.app].
    change ("/" +:+ seg +:+ t) with (String "/" (seg +:+ t)).
    cbn [initializing.match_dir].
    by rewrite last_segment_whole.
  - rewrite append_cons. cbn [initializing.match_dir].
    destruct seg as [|c seg]; [done|].
    pose proof (last_segment_inner p c (seg +:+ t)) as Hin.
    rewrite <-append_cons in Hin. by rewrite Hin, andb_false_r.
Qed.

Lemma match_dir_slash_free p :
  slash_free p = true -> initializing.match_dir p = None.
Proof.
  induction p as [|c p IH]; [done|]. intros [Hc Hp]%slash_free_cons.
  cbn [initializing.match_dir]. rewrite Hc. by apply IH.
Qed.
End dir_name.

(** X1.  When the destination path ends in a [/], a non-empty segment
    without [/] and at most one closing [/], [dir] makes that segment,
    closing [/] included, the library name, over whatever name was there. *)
Theorem dir_last_segment (w : world) (g : generator) (p seg t : string) :
  destinationRoot w = p +:+ "/" +:+ seg +:+ t ->
  seg <> "" -> slash_free seg = true -> t = "" \/ t = "/" ->
  initializing.dir w g
  = (Ok tt, set_conf (<["libName" := VStr (seg +:+ t)]> (conf g)) g).
Proof.
  intros Hroot Hne Hfree Ht. unfold initializing.dir, initializing.conf_set.
  rewrite Hroot, match_dir_segment by done. run_steps.
  unfold or. cbn [truthy].
  destruct (String.eqb_spec (seg +:+ t) "") as [Hempty|_]; [|done].
  destruct seg; [done|]. by rewrite append_cons in Hempty.
Qed.

Lemma dir_last_segment_witness :
  field (conf (initializing.dir
                 (Samples.sample [] Samples.ann None Samples.sealed)
                 (fresh ∅ ∅)).2) "libName"
  = VStr "widget".
Proof.
  rewrite (dir_last_segment _ _ "/home/ann" "widget" "");
    [reflexivity|reflexivity|discriminate|reflexivity|by left].
Defined.

(** X2.  On a destination path without any [/] (a Windows path), and on the
    root directory [/], the pattern of [dir] does not match: the step throws
    a [TypeError] before it assigns, and the resolver stops there, with
    nothing but the defaults set. *)
Theorem dir_without_segment (w : world) (g : generator) :
  slash_free (destinationRoot w) = true \/ destinationRoot w = "/" ->
  exists msg,
    initializing.dir w g = (Throw (TypeError msg), g) /\
    initializing.resolve w g
    = (Throw (TypeError msg),
       set_conf (<["main" := VStr "index.js"]>
                   (<["version" := VStr "0.0.0"]> ∅)) g).
Proof.
  intros Hroot.
  assert (initializing.match_dir (destinationRoot w) = None) as Hnone.
  { destruct Hroot as [Hfree| ->]; [by apply match_dir_slash_free|done]. }
  eexists. unfold initializing.resolve, initializing.dir.
  rewrite Hnone. split; reflexivity.
Qed.

Lemma dir_without_segment_witness :
  exists msg,
    initializing.resolve ResolverSamples.windows (fresh ∅ ∅)
    = (Throw (TypeError msg),
       set_conf (<["main" := VStr "index.js"]>
                   (<["version" := VStr "0.0.0"]> ∅)) (fresh ∅ ∅)).
Proof.
  edestruct dir_without_segment as (msg & _ & H); [|exists msg; exact H].
  left. reflexivity.
Defined.

(** ** The manifest read by [packageJson] *)

Section conf_only.

Lemma conf_only_same {A} (m : step A) :
  (forall g, (m g).2 = g) -> conf_only m.
Proof. intros Hm g. rewrite Hm. by destruct g. Qed.

Lemma conf_only_conf_set (k : string) (v : generator -> value) :
  conf_only (initializing.conf_set k v).
Proof. by intros g. Qed.

Lemma conf_only_bind {A B} (m : step A) (k : A -> step B) :
  conf_only m -> (forall a, conf_only (k a)) -> conf_only (m ≫= k).
Proof.
  intros Hm Hk g. specialize (Hm g). run_steps.
  destruct (m g) as [[a|e] g1]; cbn [snd] in *; [|done].
  rewrite (Hk a g1). by rewrite Hm.
Qed.

Lemma conf_only_and_then (a : value) (b : step value) :
  conf_only b -> conf_only (initializing.and_then a b).
Proof.
  intros Hb. unfold initializing.and_then.
  destruct (truthy a); [done|by apply conf_only_same].
Qed.

Lemma conf_only_or_else (a : value) (b : step value) :
  conf_only b -> conf_only (initializing.or_else a b).
Proof.
  intros Hb. unfold initializing.or_else.
  destruct (truthy a); [by apply conf_only_same|done].
Qed.
End conf_only.

Ltac conf_only :=
  repeat first
    [ apply conf_only_conf_set
    | apply conf_only_and_then | apply conf_only_or_else
    | apply conf_only_bind; [|intros ?]
    | by apply conf_only_same ].

Lemma packageJson_author_conf_only (json : value) :
  conf_only (initializing.packageJson_author json).
Proof.
  unfold initializing.packageJson_author. conf_only.
  destruct (typeof_object _); conf_only.
Qed.

Lemma packageJson_library_conf_only (json : value) :
  conf_only (initializing.packageJson_library json).
Proof. unfold initializing.packageJson_library. conf_only. Qed.

Lemma packageJson_body_conf_only (w : world) :
  conf_only (initializing.packageJson_body w).
Proof.
  unfold initializing.packageJson_body. apply conf_only_bind.
  - apply conf_only_same. intros g. unfold initializing.readJSON.
    destruct (fs g !! _); [|done]. by destruct (JSON_parse w _).
  - intros json. apply conf_only_bind; [|intros ?].
    + apply packageJson_author_conf_only.
    + apply packageJson_library_conf_only.
Qed.

Lemma packageJson_author_touches (json : value) :
  touches ["name"; "email"; "url"] (initializing.packageJson_author json).
Proof.
  unfold initializing.packageJson_author. touches.
  destruct (typeof_object _); touches.
Qed.

(** The body of the [try] block once the manifest is read. *)
Lemma packageJson_body_manifest (w : world) (g : generator) (json : value) :
  manifest w g = Ok json ->
  initializing.packageJson_body w g
  = (initializing.packageJson_author json;;
     initializing.packageJson_library json) g.
Proof.
  unfold manifest, initializing.packageJson_body, initializing.readJSON.
  run_steps. destruct (fs g !! _) as [text|]; cbn [fst].
  - destruct (JSON_parse w text); cbn [fst]; [|done]. by intros [= ->].
  - by intros [= <-].
Qed.

Lemma packageJson_outcome (w : world) (g : generator) :
  initializing.packageJson w g
  = match initializing.packageJson_body w g with
    | (Ok _, g') => (Ok tt, g')
    | (Throw e, g') => (Ok tt, add_log e g')
    end.
Proof.
  unfold initializing.packageJson. run_steps.
  by destruct (initializing.packageJson_body w g) as [[[]|e] g'].
Qed.

(** X3.  [packageJson] always returns: whatever goes wrong inside its [try]
    block is logged, once, and apart from that entry the step changes
    nothing but [this.conf]. *)
Theorem packageJson_contained (w : world) (g : generator) :
  exists c,
    initializing.packageJson w g = (Ok tt, set_conf c g) \/
    exists e, initializing.packageJson w g = (Ok tt, add_log e (set_conf c g)).
Proof.
  rewrite packageJson_outcome.
  pose proof (packageJson_body_conf_only w g) as Hbody.
  destruct (initializing.packageJson_body w g) as [[[]|e] g'];
    cbn [snd] in Hbody; exists (conf g'); [left|right; exists e];
    by rewrite Hbody at 1.
Qed.

(** The author statements on each kind of [author] value. *)
Lemma packageJson_author_run (props : list (string * value)) (g : generator) :
  initializing.packageJson_author (VObj props) g
  = match assoc "author" props with
    | VNull =>
        (Throw (TypeError "Cannot read property 'email'"),
         set_conf (<["name" := field (conf g) "name"]> (conf g)) g)
    | VObj a =>
        (Ok tt,
         set_conf (<["url" := or (assoc "url" a) (field (conf g) "url")]>
                     (<["email" := or (assoc "email" a) (field (conf g) "email")]>
                        (<["name" := or (assoc "name" a) (field (conf g) "name")]>
                           (conf g)))) g)
    | VArr _ =>
        (Ok tt,
         set_conf (<["url" := field (conf g) "url"]>
                     (<["email" := field (conf g) "email"]>
                        (<["name" := field (conf g) "name"]> (conf g)))) g)
    | _ => (Ok tt, set_conf (<["name" := field (conf g) "name"]> (conf g)) g)
    end.
Proof.
  unfold initializing.packageJson_author, initializing.and_then,
    initializing.conf_set, initializing.conf_get.
  run_steps. cbn [get].
  destruct (assoc "author" props) as [| |b|n|s|elems|a];
    cbn [truthy typeof_object get or]; state_simpl; unfold field;
    try (by lookup_inserts).
  - by destruct b.
  - destruct (n =? 0) eqn:Hn; cbn [negb]; unfold or; cbn [truthy];
      by rewrite ?Hn.
  - destruct (String.eqb s "") eqn:Hs; cbn [negb]; unfold or; cbn [truthy];
      by rewrite ?Hs.
Qed.

(** The library statements, given what the repository yields. *)
Lemma packageJson_library_run (props : list (string * value)) (g : generator) :
  initializing.packageJson_library (VObj props) g
  = match repository_name props with
    | Throw e => (Throw e, g)
    | Ok repo =>
        (Ok tt,
         set_conf
           (<["libDesc" := or (assoc "description" props) (field (conf g) "libDesc")]>
              (<["main" := or (assoc "main" props) (field (conf g) "main")]>
                 (<["version" := or (assoc "version" props) (field (conf g) "version")]>
                    (<["libName" := or repo (or (assoc "name" props)
                                               (field (conf g) "libName"))]>
                       (conf g))))) g)
    end.
Proof.
  unfold initializing.packageJson_library, repository_name,
    initializing.and_then, initializing.or_else, initializing.conf_set,
    initializing.conf_get.
  run_steps. cbn [get].
  destruct (truthy (assoc "repository" props)) eqn:Hrepo.
  - destruct (get (assoc "repository" props) "url") as [url|e] eqn:Hurl;
      [|done].
    destruct (truthy url) eqn:Htruthy.
    + destruct (initializing.repo_name url) as [repo|e]; [|done].
      unfold or. destruct (truthy repo) eqn:Hr; state_simpl; unfold field;
        lookup_inserts; try done.
      destruct (truthy (assoc "name" props)); state_simpl; unfold field;
        by lookup_inserts.
    + unfold or. rewrite Htruthy.
      destruct (truthy (assoc "name" props)); state_simpl; unfold field;
        by lookup_inserts.
  - unfold or. rewrite Hrepo.
    destruct (truthy (assoc "name" props)); state_simpl; unfold field;
      by lookup_inserts.
Qed.

(** *** The pattern for the repository URL *)

Section repo_pattern.
Implicit Types p name s u : string.

(** The equation of [repo_tail] with the match on the rest spelled out as a
    test. *)
Lemma repo_tail_cons (c : ascii) (rest : string) :
  initializing.repo_tail (String c rest)
  = if Ascii.eqb c "/" then None
    else match rest with
         | "" => None
         | String d t =>
             if String.eqb t "git"
             then if is_line_terminator d then None else Some (String c "")
             else option_map (String c) (initializing.repo_tail rest)
         end.
Proof.
  cbn [initializing.repo_tail]. destruct (Ascii.eqb c "/"); [done|].
  destruct rest as [|d t]; [done|].
  destruct (String.eqb_spec t "git") as [->|Hne]; [done|].
  destruct t as [|a1 [|a2 [|a3 [|a4 t]]]]; try done;
    destruct a1 as [[] [] [] [] [] [] [] []]; try done;
    destruct a2 as [[] [] [] [] [] [] [] []]; try done;
    destruct a3 as [[] [] [] [] [] [] [] []]; done.
Qed.

Lemma repo_tail_name name (d : ascii) :
  name <> "" -> slash_free name = true -> is_line_terminator d = false ->
  initializing.repo_tail (name +:+ String d "git") = Some name.
Proof.
  intros Hne Hfree Hd. induction name as [|c name IH]; [done|].
  apply slash_free_cons in Hfree as [Hc Hfree].
  rewrite append_cons, repo_tail_cons, Hc.
  destruct name as [|e name].
  - rewrite append_empty_l. cbv iota.
    change (String.eqb "git" "git") with true. cbv iota. by rewrite Hd.
  - rewrite append_cons.
    assert (String.eqb (name +:+ String d "git") "git" = false) as ->.
    { apply String.eqb_neq, append_not_short. simpl. length_lia. }
    rewrite <-append_cons. by rewrite IH.
Qed.

Lemma repo_tail_inner p u :
  (4 <= String.length u)%nat ->
  initializing.repo_tail (p +:+ "/" +:+ u) = None.
Proof.
  intros Hu. induction p as [|c p IH]; [done|].
  rewrite append_cons, repo_tail_cons, IH.
  destruct (Ascii.eqb c "/"); [done|].
  destruct (p +:+ "/" +:+ u) as [|d t] eqn:Hrest; [done|].
  destruct (String.eqb_spec t "git") as [->|_]; [|done].
  apply (f_equal String.length) in Hrest.
  rewrite !append_length in Hrest. simpl in Hrest. length_lia.
Qed.

Lemma match_repo_name p name (d : ascii) :
  name <> "" -> slash_free name = true -> is_line_terminator d = false ->
  initializing.match_repo (p +:+ "/" +:+ name +:+ String d "git") = Some name.
Proof.
  intros Hne Hfree Hd. induction p as [|c p IH].
  - rewrite append_empty_l.
    change ("/" +:+ name +:+ String d "git")
      with (String "/" (name +:+ String d "git")).
    cbn [initializing.match_repo]. by rewrite repo_tail_name.
  - rewrite append_cons. cbn [initializing.match_repo]. rewrite IH.
    rewrite repo_tail_inner; [by destruct (Ascii.eqb c "/")|].
    rewrite append_length. simpl. lia.
Qed.

Lemma ends_with_cons (suffix : string) (c : ascii) s :
  ends_with suffix s = true -> ends_with suffix (String c s) = true.
Proof. intros H. cbn [ends_with]. by rewrite H, orb_true_r. Qed.

Lemma repo_tail_ends s name :
  initializing.repo_tail s = Some name -> ends_with "git" s = true.
Proof.
  revert name. induction s as [|c s IH]; [done|]. intros name.
  rewrite repo_tail_cons. destruct (Ascii.eqb c "/"); [done|].
  destruct s as [|d t]; [done|].
  destruct (String.eqb_spec t "git") as [->|_].
  - intros _. by do 2 apply ends_with_cons.
  - destruct (initializing.repo_tail (String d t)) as [seg|]; [|done].
    intros _. apply ends_with_cons. by apply (IH seg).
Qed.

Lemma match_repo_ends s name :
  initializing.match_repo s = Some name -> ends_with "git" s = true.
Proof.
  induction s as [|c s IH]; [done|]. cbn [initializing.match_repo].
  intros H. apply ends_with_cons.
  destruct (Ascii.eqb c "/"); [|by apply IH].
  destruct (initializing.repo_tail s) as [seg|] eqn:Htail; [|by apply IH].
  by apply (repo_tail_ends s seg).
Qed.
End repo_pattern.

Lemma manifest_absent (w : world) (g : generator) :
  fs g !! destinationPath w "package.json" = None ->
  manifest w g = Ok (VObj []).
Proof. intros H. unfold manifest, initializing.readJSON. by rewrite H. Qed.

(** A field read through assignments that put back what was read. *)
Ltac field_cases k :=
  unfold field;
  repeat match goal with
         | |- context [<[?key := _]> _ !! k] =>
             destruct (decide (k = key)) as [->|?];
             [by repeat (progress lookup_inserts)
             |rewrite (lookup_insert_ne _ key k) by done]
         end.

Lemma packageJson_empty_manifest (w : world) (g : generator) :
  manifest w g = Ok (VObj []) ->
  exists c,
    initializing.packageJson w g = (Ok tt, set_conf c g) /\
    forall k, field c k = field (conf g) k.
Proof.
  intros Hfile.
  rewrite packageJson_outcome, (packageJson_body_manifest w g _ Hfile).
  pose proof (packageJson_author_run [] g) as Hauthor. cbn [assoc] in Hauthor.
  rewrite (seq_ok _ _ _ _ Hauthor), packageJson_library_run.
  unfold repository_name. cbn [assoc truthy or]. state_simpl.
  eexists. split; [reflexivity|]. intros k.
  by field_cases k.
Qed.

(** X4.  Without a [package.json] in the destination directory
    [packageJson] returns with every field of [this.conf] reading as it did,
    and logs nothing. *)
Theorem packageJson_without_manifest (w : world) (g : generator) :
  fs g !! destinationPath w "package.json" = None ->
  exists c,
    initializing.packageJson w g = (Ok tt, set_conf c g) /\
    forall k, field c k = field (conf g) k.
Proof. intros Hfile%manifest_absent. by apply packageJson_empty_manifest. Qed.

Lemma packageJson_without_manifest_witness :
  exists c,
    initializing.packageJson (ManifestSamples.with_manifest ManifestSamples.bea)
      (set_conf {[ "name" := VStr "Ann" ]} (fresh ∅ ∅))
    = (Ok tt, set_conf c (set_conf {[ "name" := VStr "Ann" ]} (fresh ∅ ∅))) /\
    field c "name" = VStr "Ann".
Proof.
  edestruct packageJson_without_manifest as (c & Hrun & Hc);
    [|exists c; split; [exact Hrun|by rewrite Hc]].
  reflexivity.
Defined.

(** X5.  A [package.json] that does not parse costs nothing but a log
    entry, the error that reading it throws: [this.conf] and the rest stay
    as they are and the step returns. *)
Theorem packageJson_malformed (w : world) (g : generator) (text : string) :
  fs g !! destinationPath w "package.json" = Some text ->
  JSON_parse w text = None ->
  initializing.packageJson w g
  = (Ok tt,
     add_log (parse_failure w (destinationPath w "package.json") text) g).
Proof.
  intros Hfile Hparse. rewrite packageJson_outcome.
  unfold initializing.packageJson_body, initializing.readJSON. run_steps.
  by rewrite Hfile, Hparse.
Qed.

Lemma packageJson_malformed_witness :
  exists e,
    initializing.packageJson
      (Samples.sample [] Samples.ann None Samples.sealed)
      ResolverSamples.from_git
    = (Ok tt, add_log e ResolverSamples.from_git).
Proof.
  eexists. apply (packageJson_malformed _ _ "{...}"); reflexivity.
Defined.

Lemma packageJson_author_returns (props : list (string * value))
    (g : generator) :
  assoc "author" props <> VNull ->
  exists c,
    initializing.packageJson_author (VObj props) g = (Ok tt, set_conf c g) /\
    forall k, ~ In k ["name"; "email"; "url"] -> c !! k = conf g !! k.
Proof.
  intros Hauthor. destruct (packageJson_author_touches (VObj props) g) as [_ Hk].
  rewrite packageJson_author_run in Hk |- *.
  destruct (assoc "author" props); try done; by eexists.
Qed.

(** X6.  When the manifest names a repository whose URL ends in a [/], a
    name without [/], one more character and [git], that name becomes the
    library name, over the manifest's own [name] and the directory's.  The
    character before [git] is the dot of [.git] or any other but a line
    terminator: the pattern does not escape it. *)
Theorem packageJson_repository_name (w : world) (g : generator)
    (props rprops : list (string * value)) (p name : string) (d : ascii) :
  manifest w g = Ok (VObj props) ->
  assoc "author" props <> VNull ->
  assoc "repository" props = VObj rprops ->
  assoc "url" rprops = VStr (p +:+ "/" +:+ name +:+ String d "git") ->
  name <> "" -> slash_free name = true -> is_line_terminator d = false ->
  exists c,
    initializing.packageJson w g = (Ok tt, set_conf c g) /\
    field c "libName" = VStr name.
Proof.
  intros Hfile Hauthor Hrepo Hurl Hne Hfree Hd.
  rewrite packageJson_outcome, (packageJson_body_manifest w g _ Hfile).
  destruct (packageJson_author_returns props g Hauthor) as (c1 & Hrun & _).
  rewrite (seq_ok _ _ _ _ Hrun), packageJson_library_run.
  assert (repository_name props = Ok (VStr name)) as ->.
  { unfold repository_name. rewrite Hrepo. cbn [truthy get]. rewrite Hurl.
    cbn [truthy initializing.repo_name]. rewrite match_repo_name by done.
    destruct (String.eqb_spec (p +:+ "/" +:+ name +:+ String d "git") "")
      as [Hempty|_]; [|done].
    apply (f_equal String.length) in Hempty.
    rewrite !append_length in Hempty. simpl in Hempty. length_lia. }
  state_simpl. eexists. split; [reflexivity|].
  unfold field. lookup_inserts. unfold or. cbn [truthy default].
  by destruct (String.eqb_spec name "").
Qed.

Lemma packageJson_repository_name_witness :
  exists c,
    initializing.packageJson
      (ResolverSamples.reading ResolverSamples.renamed)
      ResolverSamples.from_git
    = (Ok tt, set_conf c ResolverSamples.from_git) /\
    field c "libName" = VStr "gadget".
Proof.
  apply (packageJson_repository_name _ _ ResolverSamples.renamed
           [("type", VStr "git");
            ("url", VStr "https://github.com/OADA/gadget.git")]
           "https://github.com/OADA" "gadget" ".");
    try reflexivity; discriminate.
Defined.

(** X7.  When the URL of the manifest's repository does not end in [git]
    (the address of the project page, say), the pattern does not match and
    the [TypeError] ends the [try] block: it is logged, and the manifest's
    name, version, main file and description are not taken. *)
Theorem packageJson_repository_unmatched (w : world) (g : generator)
    (props rprops : list (string * value)) (s : string) :
  manifest w g = Ok (VObj props) ->
  assoc "author" props <> VNull ->
  assoc "repository" props = VObj rprops ->
  assoc "url" rprops = VStr s ->
  s <> "" -> ends_with "git" s = false ->
  exists c msg,
    initializing.packageJson w g
    = (Ok tt, add_log (TypeError msg) (set_conf c g)) /\
    forall k, In k ["libName"; "version"; "main"; "libDesc"] ->
      c !! k = conf g !! k.
Proof.
  intros Hfile Hauthor Hrepo Hurl Hne Hgit.
  rewrite packageJson_outcome, (packageJson_body_manifest w g _ Hfile).
  destruct (packageJson_author_returns props g Hauthor) as (c1 & Hrun & Hc1).
  rewrite (seq_ok _ _ _ _ Hrun), packageJson_library_run.
  assert (repository_name props
          = Throw (TypeError "Cannot read property '1' of null")) as ->.
  { unfold repository_name. rewrite Hrepo. cbn [truthy get]. rewrite Hurl.
    cbn [truthy initializing.repo_name].
    destruct (String.eqb_spec s "") as [|_]; [done|]. cbn [negb].
    destruct (initializing.match_repo s) as [name|] eqn:Hmatch; [|done].
    apply match_repo_ends in Hmatch. congruence. }
  exists c1. eexists. split; [reflexivity|].
  intros k Hk. apply Hc1. simpl in *. intuition (subst; discriminate).
Qed.

Lemma packageJson_repository_unmatched_witness :
  exists c msg,
    initializing.packageJson
      (ResolverSamples.reading ResolverSamples.page)
      ResolverSamples.from_git
    = (Ok tt, add_log (TypeError msg) (set_conf c ResolverSamples.from_git)) /\
    c !! "version" = Some (VStr "0.0.0").
Proof.
  edestruct (packageJson_repository_unmatched
               (ResolverSamples.reading ResolverSamples.page)
               ResolverSamples.from_git ResolverSamples.page
               [("type", VStr "git");
                ("url", VStr "https://github.com/OADA/gadget")]
               "https://github.com/OADA/gadget")
    as (c & msg & Hrun & Hc); try reflexivity; try discriminate.
  exists c, msg. split; [exact Hrun|].
  rewrite Hc; [reflexivity|]. simpl. tauto.
Defined.

(** X8.  An author that is not an object (the one-string form
    [Name <email> (url)], say) gives no name, email or URL: the three
    fields read as before, whatever the rest of the manifest does. *)
Theorem packageJson_author_not_object (w : world) (g : generator)
    (props : list (string * value)) :
  manifest w g = Ok (VObj props) ->
  (forall a, assoc "author" props <> VObj a) ->
  forall k, In k ["name"; "email"; "url"] ->
    field (conf (initializing.packageJson w g).2) k = field (conf g) k.
Proof.
  intros Hfile Hauthor k Hk.
  destruct (packageJson_total w g) as (_ & -> & _).
  rewrite (packageJson_body_manifest w g _ Hfile).
  pose proof (packageJson_author_run props g) as Hrun.
  assert (exists r c,
    initializing.packageJson_author (VObj props) g = (r, set_conf c g) /\
    field c k = field (conf g) k) as (r & c & Hrun' & Hc).
  { rewrite Hrun.
    destruct (assoc "author" props) as [| |b|n|s|elems|a];
      try (by destruct (Hauthor a)); do 2 eexists; (split; [reflexivity|]);
      by field_cases k. }
  run_steps. rewrite Hrun'. destruct r as [[]|e]; [|done].
  destruct (packageJson_library_touches (VObj props) (set_conf c g))
    as [_ Hkeeps].
  unfold field in *. rewrite Hkeeps; [done|].
  simpl in *. intuition (subst; discriminate).
Qed.

Lemma packageJson_author_not_object_witness :
  field (conf (initializing.packageJson
                 (ResolverSamples.reading ResolverSamples.by_line)
                 ResolverSamples.from_git).2) "name"
  = VStr "Ann".
Proof.
  rewrite (packageJson_author_not_object _ _ ResolverSamples.by_line);
    [reflexivity|reflexivity|discriminate|simpl; tauto].
Defined.

(** X9.  An author that is [null] passes the test [typeof json.author ===
    'object'], and reading its [email] throws: the [TypeError] is logged
    and nothing of the manifest is taken, its name and version included. *)
Theorem packageJson_author_null (w : world) (g : generator)
    (props : list (string * value)) :
  manifest w g = Ok (VObj props) ->
  assoc "author" props = VNull ->
  exists c msg,
    initializing.packageJson w g
    = (Ok tt, add_log (TypeError msg) (set_conf c g)) /\
    forall k, field c k = field (conf g) k.
Proof.
  intros Hfile Hauthor.
  rewrite packageJson_outcome, (packageJson_body_manifest w g _ Hfile).
  pose proof (packageJson_author_run props g) as Hrun.
  rewrite Hauthor in Hrun. run_steps. rewrite Hrun.
  do 2 eexists. split; [reflexivity|]. intros k. by field_cases k.
Qed.

Lemma packageJson_author_null_witness :
  exists c msg,
    initializing.packageJson
      (ResolverSamples.reading ResolverSamples.anonymous)
      ResolverSamples.from_git
    = (Ok tt, add_log (TypeError msg) (set_conf c ResolverSamples.from_git)) /\
    field c "libName" = VStr "widget".
Proof.
  edestruct (packageJson_author_null
               (ResolverSamples.reading ResolverSamples.anonymous)
               ResolverSamples.from_git)
    as (c & msg & Hrun & Hc); [reflexivity|reflexivity|].
  exists c, msg. split; [exact Hrun|]. by rewrite Hc.
Defined.

(** ** The resolver as a whole *)

Section resolver_steps.
Context (w : world) (g : generator).

Lemma dir_run (seg : string) :
  initializing.match_dir (destinationRoot w) = Some seg ->
  initializing.dir w g
  = (Ok tt,
     set_conf (<["libName" := or (VStr seg) (field (conf g) "libName")]>
                 (conf g)) g).
Proof. intros Hdir. unfold initializing.dir. by rewrite Hdir. Qed.

Lemma gitConfig_run (sections : gmap string (gmap string string))
    (user : gmap string string) :
  gitconf w = inr sections -> sections !! "user" = Some user ->
  initializing.gitConfig w g
  = (Ok tt,
     set_conf
       (<["email" := or (initializing.entry (user !! "email"))
                        (field (conf g) "email")]>
          (<["name" := or (initializing.entry (user !! "name"))
                          (field (conf g) "name")]> (conf g))) g).
Proof.
  intros Hgit Huser.
  unfold initializing.gitConfig, initializing.conf_set, initializing.conf_get.
  rewrite Hgit, Huser. run_steps. state_simpl. unfold field.
  by lookup_inserts.
Qed.

Lemma npmConfig_run (npm : gmap string string) :
  npmconf w = inr npm ->
  initializing.npmConfig w g
  = (Ok tt,
     set_conf
       (<["npmKey" := or (initializing.entry (npm !! "_auth"))
                         (field (conf g) "npmKey")]>
          (<["url" := or (initializing.entry (npm !! "url"))
                         (field (conf g) "url")]>
             (<["email" := or (initializing.entry (npm !! "email"))
                              (field (conf g) "email")]>
                (<["name" := or (initializing.entry (npm !! "name"))
                                (field (conf g) "name")]> (conf g))))) g).
Proof.
  intros Hnpm.
  unfold initializing.npmConfig, initializing.conf_set, initializing.conf_get.
  rewrite Hnpm. run_steps. state_simpl. unfold field.
  by lookup_inserts.
Qed.
End resolver_steps.

(** X10.  With a git and an npm configuration that load and no manifest in
    the destination directory, the resolver completes without logging, and
    the context it hands on holds: for the author's name and email npm's
    value, git's when npm has none or an empty one; for the URL and the
    credential npm's alone; the last segment of the destination path as
    library name; and the two defaults. *)
Theorem resolver_precedence (w : world) (g : generator) (p seg : string)
    (sections : gmap string (gmap string string))
    (user npm : gmap string string) :
  destinationRoot w = p +:+ "/" +:+ seg ->
  seg <> "" -> slash_free seg = true ->
  gitconf w = inr sections -> sections !! "user" = Some user ->
  npmconf w = inr npm ->
  fs g !! destinationPath w "package.json" = None ->
  exists g',
    initializing.run w g = (Ok tt, g') /\
    context g' = conf g' /\ logged g' = logged g /\
    field (context g') "name"
    = or (initializing.entry (npm !! "name"))
         (or (initializing.entry (user !! "name")) VUndefined) /\
    field (context g') "email"
    = or (initializing.entry (npm !! "email"))
         (or (initializing.entry (user !! "email")) VUndefined) /\
    field (context g') "url"
    = or (initializing.entry (npm !! "url")) VUndefined /\
    field (context g') "npmKey"
    = or (initializing.entry (npm !! "_auth")) VUndefined /\
    field (context g') "libName" = VStr seg /\
    field (context g') "main" = VStr "index.js" /\
    field (context g') "version" = VStr "0.0.0".
Proof.
  intros Hroot Hne Hfree Hgit Huser Hnpm Hfile.
  assert (initializing.match_dir (destinationRoot w) = Some seg) as Hdir.
  { rewrite Hroot, <-(append_empty_r seg) at 1.
    rewrite match_dir_segment by (done || by left). by rewrite append_empty_r. }
  assert (forall v, or (VStr seg) v = VStr seg) as Hseg.
  { intros v. unfold or. cbn [truthy]. by destruct (String.eqb_spec seg ""). }
  pose proof (default_run g) as H0.
  pose proof (fun s => dir_run w s seg Hdir) as H1.
  pose proof (fun s => gitConfig_run w s sections user Hgit Huser) as H2.
  pose proof (fun s => npmConfig_run w s npm Hnpm) as H3.
  unfold initializing.run, initializing.resolve.
  match type of H0 with _ = (_, ?s) => set (g0 := s) in * end.
  specialize (H1 g0).
  match type of H1 with _ = (_, ?s) => set (g1 := s) in * end.
  specialize (H2 g1).
  match type of H2 with _ = (_, ?s) => set (g2 := s) in * end.
  specialize (H3 g2).
  match type of H3 with _ = (_, ?s) => set (g3 := s) in * end.
  assert (manifest w g3 = Ok (VObj [])) as Hmanifest
    by (by apply manifest_absent).
  destruct (packageJson_empty_manifest w g3 Hmanifest) as (c & H4 & Hc).
  exists (set_context c (set_conf c g3)). split.
  { assert (initializing.resolve w g = (Ok tt, set_conf c g3)) as Hresolve.
    { unfold initializing.resolve.
      by rewrite (seq_ok _ _ _ _ H0), (seq_ok _ _ _ _ H1),
        (seq_ok _ _ _ _ H2), (seq_ok _ _ _ _ H3). }
    unfold initializing.resolve in Hresolve.
    by rewrite (seq_ok _ _ _ _ Hresolve). }
  split; [done|]. split; [done|]. state_simpl. rewrite !Hc.
  subst g3 g2 g1 g0. state_simpl. unfold field.
  repeat (progress lookup_inserts; cbn [default]).
  rewrite !lookup_empty. cbn [default]. rewrite Hseg.
  split; [done|]. split; [done|]. split; [done|]. split; [done|].
  by split.
Qed.

Lemma resolver_precedence_witness :
  exists g',
    initializing.run ResolverSamples.with_npm (fresh ∅ ∅) = (Ok tt, g') /\
    field (context g') "name" = VStr "Ann" /\
    field (context g') "email" = VStr "ann@npm.org" /\
    field (context g') "npmKey" = VStr "token".
Proof.
  edestruct (resolver_precedence ResolverSamples.with_npm (fresh ∅ ∅)
               "/home/ann" "widget"
               {[ "user" := {[ "name" := "Ann"; "email" := "ann@oada.org" ]} ]}
               {[ "name" := "Ann"; "email" := "ann@oada.org" ]}
               {[ "email" := "ann@npm.org"; "_auth" := "token" ]})
    as (g' & Hrun & _ & _ & Hname & Hemail & _ & Hkey & _);
    try reflexivity; try discriminate.
  exists g'. split; [exact Hrun|]. rewrite Hname, Hemail, Hkey.
  split; [|split]; reflexivity.
Defined.

(** ** The names derived from the library name *)

Section names.
Implicit Types p s r : string.

Lemma drop_prefix_some p s r : drop_prefix p s = Some r -> s = p +:+ r.
Proof.
  revert s. induction p as [|a p IH]; intros s.
  - cbn [drop_prefix]. by intros [= ->].
  - destruct s as [|b s]; cbn [drop_prefix]; [done|].
    destruct (Ascii.eqb_spec a b) as [->|_]; [|done].
    intros ->%IH. by rewrite append_cons.
Qed.

Lemma strip_js_split s :
  exists post,
    s = strip_js s +:+ post /\ (post = "" \/ js_suffix_here post = true).
Proof.
  induction s as [|c s (post & Hs & Hpost)].
  - exists "". by split; [|left].
  - cbn [strip_js]. destruct (js_suffix_here (String c s)) eqn:Hhere.
    + exists (String c s). by split; [|right].
    + exists post. split; [|done]. rewrite append_cons. by f_equal.
Qed.
End names.

(** X11.  The package name is the library name but for a leading [node-]
    and a trailing [js], [.js] or [-js]: nothing else is ever taken off or
    changed. *)
Theorem packageName_infix (libName : string) :
  exists pre post,
    libName = pre +:+ packageName libName +:+ post /\
    (pre = "" \/ pre = "node-") /\
    (post = "" \/ post = "js" \/ post = ".js" \/ post = "-js").
Proof.
  unfold packageName.
  destruct (strip_js_split (strip_node libName)) as (post & Hpost & Hcases).
  exists (if starts_with "node-" libName then "node-" else ""), post.
  split; [|split].
  - rewrite <-Hpost. unfold strip_node, starts_with.
    destruct (drop_prefix "node-" libName) as [rest|] eqn:Hdrop; [|done].
    by apply drop_prefix_some.
  - destruct (starts_with "node-" libName); tauto.
  - destruct Hcases as [->|Hhere]; [tauto|]. unfold js_suffix_here in Hhere.
    apply orb_true_iff in Hhere as [Hhere|Hhere];
      [apply orb_true_iff in Hhere as [Hhere|Hhere]|];
      apply String.eqb_eq in Hhere; tauto.
Qed.

Lemma authorJSON_returns (ans : list (string * value)) :
  exists text, prompting.authorJSON ans = Ok (VStr text).
Proof.
  unfold prompting.authorJSON, prompting.author_record.
  rewrite stringify_record. by eexists.
Qed.

Lemma author_fields_run (ans : list (string * value)) (g : generator) :
  exists text,
    prompting.author_fields ans g
    = (Ok tt,
       set_context (<["authorStr" := prompting.authorStr ans]>
                      (<["authorJSON" := VStr text]> (context g))) g).
Proof.
  destruct (authorJSON_returns ans) as [text Htext]. exists text.
  unfold prompting.author_fields, prompting.context_set.
  rewrite Htext. by run_steps.
Qed.

(** The prompt of [author]: the three answers, and what the host has
    saved of them. *)
Lemma author_prompt (w : world) (g g0 : generator) :
  exists files,
    Prompt.prompt w (prompting.author_questions g) g0
    = (Ok (map (fun q => (Prompt.name q, Prompt.entered w q))
               (prompting.author_questions g)),
       set_fs files g0).
Proof.
  unfold Prompt.prompt. run_steps.
  change (Prompt.ask w (prompting.author_questions g) [] g0)
    with (Ok (map (fun q => (Prompt.name q, Prompt.entered w q))
                  (prompting.author_questions g)), g0).
  cbv iota.
  match goal with
  | |- context [Prompt.save w ?qs ?ans ?s] =>
      destruct (save_run w qs ans s) as [files ->]
  end.
  by exists files.
Qed.

(** X12.  The step [author] always returns.  Of the context it changes
    the three answers and the two texts composed from them only, of the
    files none but the file of the host's prompt store, and nothing else
    of the generator. *)
Theorem author_completes (w : world) (g : generator) :
  exists ctx files,
    prompting.author w g = (Ok tt, set_context ctx (set_fs files g)) /\
    (forall k,
       ~ In k ["authorName"; "authorEmail"; "authorUrl"; "authorJSON";
               "authorStr"] ->
       ctx !! k = context g !! k) /\
    (forall q, q <> globalConfigPath w -> files !! q = fs g !! q).
Proof.
  unfold prompting.author, Prompt.prompt. run_steps.
  change (Prompt.ask w (prompting.author_questions g) [] g)
    with (Ok (map (fun q => (Prompt.name q, Prompt.entered w q))
                  (prompting.author_questions g)), g).
  cbv iota.
  match goal with
  | |- context [Prompt.save w ?qs ?ans g] =>
      assert (exists files,
                Prompt.save w qs ans g = (Ok tt, set_fs files g) /\
                forall q, q <> globalConfigPath w ->
                          files !! q = fs g !! q)
        as (files & -> & Hfiles)
  end.
  { unfold Prompt.save.
    destruct (Prompt.flagged _ _);
      [by exists (fs g); split; [destruct g|]|].
    destruct (promptValues_text w _) as [text|];
      [|by exists (fs g); split; [destruct g|]].
    eexists. split; [reflexivity|].
    intros q Hq. by rewrite lookup_insert_ne. }
  match goal with
  | |- context [prompting.author_fields ?ans ?s] =>
      destruct (author_fields_run ans s) as [text ->]
  end.
  eexists _, files. split; [reflexivity|]. split; [|done].
  intros k Hk. state_simpl.
  unfold assign, prompting.author_questions.
  cbn [map fold_left Prompt.name prompting.kept fst snd].
  rewrite !lookup_insert_ne; [done|..]; intros <-; simpl in Hk; tauto.
Qed.




(** X14.  With a key in store, an operator who does not confirm the
    question [genNpmKey] (the default is no) is not asked for a credential,
    and the step changes nothing: no call to the encryption service, no
    write to the store. *)
Theorem genNpmKey_declined (w : world) (g : generator) :
  truthy (field (config g) "travisNpmKey") = true ->
  confirmed w "genNpmKey" <> Some true ->
  credential_asked w g = false /\
  prompting.genNpmKey w g = (Ok tt, g).
Proof.
  intros Hstored Hconfirm.
  assert (credential_asked w g = false) as Hasked.
  { unfold credential_asked, regenerate_answers. rewrite Hstored.
    cbn [Prompt.when prompting.npmApiKey_question assoc].
    change (String.eqb "genNpmKey" "genNpmKey") with true. cbv iota.
    rewrite Hstored. unfold Prompt.entered, Prompt.suggested.
    cbn [Prompt.store Prompt.type Prompt.name Prompt.default
         prompting.genNpmKey_question andb].
    by destruct (confirmed w "genNpmKey") as [[]|]. }
  split; [done|].
  unfold prompting.genNpmKey. run_steps.
  rewrite prompt_genNpmKey, Hasked.
  unfold prompting.genNpmKey_callback, regenerate_answers. by rewrite Hstored.
Qed.

Lemma genNpmKey_declined_witness :
  prompting.genNpmKey PromptSamples.returning PromptSamples.keyed
  = (Ok tt, PromptSamples.keyed).
Proof.
  apply (genNpmKey_declined PromptSamples.returning PromptSamples.keyed);
    [reflexivity|discriminate].
Defined.

(** ** The files written by [configuring] *)

Section wrote.
Context (w : world) (s0 : generator).

Lemma wrote_nothing : wrote w s0 [] s0.
Proof. by split. Qed.

Lemma wrote_put_file (files : list (string * string)) (s : generator)
    (to content : string) :
  (forall c, ~ In (to, c) files) ->
  wrote w s0 files s ->
  wrote w s0 ((to, content) :: files) (put_file w to content s).
Proof.
  intros Hfresh [Hfiles Hrest]. split.
  - intros n c [[= <- <-]|Hin]; cbn [put_file set_fs fs].
    + by rewrite lookup_insert_eq.
    + rewrite lookup_insert_ne; [by apply Hfiles|].
      intros ->%destinationPath_inj. by apply (Hfresh c).
  - intros q Hq. cbn [put_file set_fs fs]. rewrite lookup_insert_ne.
    + apply Hrest. intros n c Hin. apply (Hq n c). by right.
    + intros <-. by apply (Hq to content); [left|].
Qed.

Lemma wrote_set_context (files : list (string * string)) (s : generator)
    (ctx : gmap string value) :
  wrote w s0 files s -> wrote w s0 files (set_context ctx s).
Proof. done. Qed.

Lemma wrote_same_files (files : list (string * string)) (s s' : generator) :
  fs s' = fs s -> wrote w s0 files s -> wrote w s0 files s'.
Proof. intros Hfs [Hfiles Hrest]. split; intros *; rewrite Hfs; auto. Qed.
End wrote.

Lemma context_put_file (w : world) (to content : string) (s : generator) :
  context (put_file w to content s) = context s.
Proof. reflexivity. Qed.

Lemma mocha_text_run (w : world) (g : generator) :
  configuring.mocha w g
  = (Ok tt, put_file w "test/.jshintrc" (jshintrc_text w)
              (put_file w "test/mocha.opts" (template w "test/mocha.opts") g)).
Proof. reflexivity. Qed.

(** A name that is not among those written so far. *)
Ltac fresh_name :=
  let c := fresh "c" in
  let H := fresh "H" in
  intros c H; cbn [In] in H;
  repeat (destruct H as [H|H]; [discriminate H|]); exact H.

Ltac wrote_files :=
  repeat first
    [ apply wrote_nothing
    | apply wrote_set_context
    | apply wrote_put_file; [fresh_name|] ].

(** The phase as a whole: it returns, and its files are those of the
    catalog, written last to first. *)
Lemma configuring_wrote (w : world) (g : generator) :
  (configuring.run w g).1 = Ok tt /\
  wrote w (configuring.localStore w g).2 (rev (catalog w g))
    (configuring.run w g).2.
Proof.
  destruct (localStore_run w g) as (Hrun & Hctx & Hfs).
  set (g1 := (configuring.localStore w g).2) in *.
  unfold configuring.run.
  rewrite (seq_ok _ _ _ _ Hrun).
  rewrite (seq_ok _ _ _ _ (license_run w _)).
  rewrite (seq_ok _ _ _ _ (editorconfig_run w _)).
  rewrite (seq_ok _ _ _ _ (ack_run w _)).
  rewrite (seq_ok _ _ _ _ (jshint_run w _)).
  rewrite (seq_ok _ _ _ _ (jscs_run w _)).
  rewrite (seq_ok _ _ _ _ (gulp_run w _)).
  rewrite (seq_ok _ _ _ _ (karma_run w _)).
  rewrite (seq_ok _ _ _ _ (mocha_text_run w _)).
  rewrite (seq_ok _ _ _ _ (istanbul_run w _)).
  rewrite (seq_ok _ _ _ _ (npm_run w _)).
  rewrite (seq_ok _ _ _ _ (git_run w _)).
  rewrite travis_run. split; [done|]. cbn [snd].
  unfold put_template, catalog. fold g1.
  rewrite !context_put_file, Hctx.
  destruct (truthy (field (context g) "gulpfile")).
  - rewrite !context_put_file, Hctx.
    destruct (truthy (field (context g) "browser")).
    + rewrite !context_put_file, Hctx. cbn [app rev].
      cbn [config put_file set_fs]. wrote_files.
    + rewrite !context_put_file, Hctx. cbn [app rev].
      cbn [config put_file set_fs]. wrote_files.
  - rewrite ?context_put_file, ?Hctx.
    destruct (truthy (field (context g) "browser")).
    + rewrite ?context_put_file, ?Hctx. cbn [app rev].
      cbn [config put_file set_fs]. wrote_files.
    + rewrite ?context_put_file, ?Hctx. cbn [app rev].
      cbn [config put_file set_fs]. wrote_files.
Qed.

(** X16.  The phase [configuring] of [app/index.js] returns, and every
    file of its catalog then holds the content the catalog gives for it,
    whatever was at that name before: the templates copied as they are,
    those rendered with the context the phase started from,
    [gulpfile.js] and [karma.conf.js] only under their flags.  No step of
    the phase writes over the file of another. *)
Theorem configuring_contents (w : world) (g : generator) (n c : string) :
  In (n, c) (catalog w g) ->
  (configuring.run w g).1 = Ok tt /\
  fs (configuring.run w g).2 !! destinationPath w n = Some c.
Proof.
  intros Hin. destruct (configuring_wrote w g) as (Hok & Hfiles & _).
  split; [done|]. apply Hfiles. by apply in_rev in Hin.
Qed.

Lemma configuring_contents_witness :
  fs CatalogSamples.occupied
    !! destinationPath CatalogSamples.quiet "package.json"
  = Some "{...}" /\
  fs (configuring.run CatalogSamples.quiet CatalogSamples.occupied).2
    !! destinationPath CatalogSamples.quiet "package.json"
  = Some "<_package.json>undefined".
Proof.
  split; [reflexivity|].
  apply (configuring_contents CatalogSamples.quiet CatalogSamples.occupied
           "package.json" "<_package.json>undefined").
  vm_compute. tauto.
Defined.

(** X17.  Outside its catalog and the file of the store, [.yo-rc.json],
    the phase [configuring] of [app/index.js] leaves the files alone: a
    path that is none of these reads afterwards as it did before. *)
Theorem configuring_frame (w : world) (g : generator) (q : string) :
  (forall n c, In (n, c) (catalog w g) -> q <> destinationPath w n) ->
  q <> destinationPath w ".yo-rc.json" ->
  fs (configuring.run w g).2 !! q = fs g !! q.
Proof.
  intros Hq Hstore. destruct (configuring_wrote w g) as (_ & _ & Hrest).
  destruct (localStore_run w g) as (_ & _ & Hfs).
  rewrite <-Hfs by done. apply Hrest.
  intros n c Hin%in_rev. by apply (Hq n c).
Qed.

Lemma configuring_frame_witness :
  fs (configuring.run CatalogSamples.quiet CatalogSamples.occupied).2
    !! "/home/ann/widget/notes.txt"
  = Some "to do".
Proof.
  rewrite configuring_frame; [reflexivity| |discriminate].
  intros n c Hin. vm_compute in Hin.
  repeat (destruct Hin as [[= <- <-]|Hin]; [discriminate|]). done.
Defined.

(** X18.  The same for the other variant, whose catalog has [AUTHORS] and
    [README.md] and no flags: its phase [configuring] returns, every file
    of the catalog holds the catalog's content whatever was there, and no
    other file is touched. *)
Theorem alt_configuring_catalog (w : world) (g : generator) :
  (Alt.configuring.run w g).1 = Ok tt /\
  (forall n c, In (n, c) (alt_catalog w g) ->
     fs (Alt.configuring.run w g).2 !! destinationPath w n = Some c) /\
  (forall q, (forall n c, In (n, c) (alt_catalog w g) ->
                q <> destinationPath w n) ->
     fs (Alt.configuring.run w g).2 !! q = fs g !! q).
Proof.
  assert (wrote w g (rev (alt_catalog w g)) (Alt.configuring.run w g).2 /\
          (Alt.configuring.run w g).1 = Ok tt) as [[Hfiles Hrest] Hok].
  { unfold Alt.configuring.run.
    rewrite (seq_ok _ _ _ _ (alt_license_run w _)).
    rewrite (seq_ok _ _ _ _ (alt_readme_run w _)).
    rewrite (seq_ok _ _ _ _ (editorconfig_run w _)).
    rewrite (seq_ok _ _ _ _ (jshint_run w _)).
    rewrite (seq_ok _ _ _ _ (jscs_run w _)).
    rewrite (seq_ok _ _ _ _ (mocha_text_run w _)).
    rewrite (seq_ok _ _ _ _ (npm_run w _)).
    rewrite (seq_ok _ _ _ _ (git_run w _)).
    rewrite travis_run. split; [|done]. cbn [snd].
    unfold put_template, alt_catalog.
    rewrite !context_put_file. cbn [app rev].
    cbn [config put_file set_fs]. wrote_files. }
  split; [done|]. split.
  - intros n c Hin%in_rev. by apply Hfiles.
  - intros q Hq. apply Hrest. intros n c Hin%in_rev. by apply (Hq n c).
Qed.

(** *** The settings merged for the tests *)

Section assign_props.
Implicit Types target source : list (string * value).

Lemma assign_props_cons target (k : string) (v : value) source :
  assign_props target ((k, v) :: source)
  = assign_props (put k v target) source.
Proof. reflexivity. Qed.

Lemma assoc_assign_other target source (k : string) :
  ~ In k (map fst source) ->
  assoc k (assign_props target source) = assoc k target.
Proof.
  revert target. induction source as [|[k' v'] source IH]; intros target Hk;
    [done|].
  rewrite assign_props_cons, IH by (simpl in Hk; tauto).
  apply assoc_put_ne. simpl in Hk. intros ->. tauto.
Qed.

Lemma assoc_assign_source target source (k : string) (v : value) :
  NoDup (map fst source) -> In (k, v) source ->
  assoc k (assign_props target source) = v.
Proof.
  revert target. induction source as [|[k' v'] source IH];
    intros target Hdup Hin; [done|].
  rewrite assign_props_cons. cbn [map fst] in Hdup.
  apply NoDup_cons in Hdup as [Hfirst Hdup].
  destruct Hin as [[= -> ->]|Hin]; [|by apply IH].
  rewrite assoc_assign_other; [apply assoc_put_eq|].
  by rewrite <-list_elem_of_In.
Qed.
End assign_props.

(** X19.  [test/.jshintrc] is written as the serialization, followed by a
    line feed, of a settings object in which every setting of
    [test/jshintrc-mocha] has its value and every other setting of
    [jshintrc] keeps its own. *)
Theorem mocha_settings (w : world) (g : generator) :
  exists props text,
    stringify (VObj props) jsonSpaces = Some text /\
    fs (configuring.mocha w g).2 !! destinationPath w "test/.jshintrc"
    = Some (text +:+ newline) /\
    (NoDup (map fst (template_json w "test/jshintrc-mocha")) ->
     forall k v, In (k, v) (template_json w "test/jshintrc-mocha") ->
       assoc k props = v) /\
    (forall k, ~ In k (map fst (template_json w "test/jshintrc-mocha")) ->
       assoc k props = assoc k (template_json w "jshintrc")).
Proof.
  exists (assign_props (template_json w "jshintrc")
                       (template_json w "test/jshintrc-mocha")).
  eexists. split; [reflexivity|]. split.
  - rewrite mocha_text_run. cbn [snd put_file set_fs fs].
    by rewrite lookup_insert_eq.
  - split.
    + intros Hdup k v Hin. by apply assoc_assign_source.
    + intros k Hk. by apply assoc_assign_other.
Qed.

(** X20.  The step [localStore] writes to the store, under each name of
    the answers kept by [general], what the context holds under that name,
    and leaves every other entry of the store as it is.  When there is an
    answer to write, the file of the store, [.yo-rc.json], then holds the
    text of the store as written; no other file, nor the context, nor
    [this.conf] changes. *)
Theorem localStore_keys (w : world) (g : generator) :
  let g' := (configuring.localStore w g).2 in
  (forall k, In k (map fst (localStore g)) ->
     config g' !! k = Some (field (context g) k)) /\
  (forall k, ~ In k (map fst (localStore g)) ->
     config g' !! k = config g !! k) /\
  (localStore g <> [] ->
   fs g' !! destinationPath w ".yo-rc.json"
   = Some (store_text w (config g'))) /\
  (forall q, q <> destinationPath w ".yo-rc.json" ->
     fs g' !! q = fs g !! q) /\
  context g' = context g /\ conf g' = conf g.
Proof.
  intros g'. subst g'.
  destruct (localStore_fold w (localStore g) g)
    as (Hctx & Hfs & Hconf & _ & Hcfg).
  split; [|split; [|split; [|done]]].
  - intros k Hk. unfold configuring.localStore. cbn [snd]. rewrite Hcfg.
    by apply fold_insert_lookup.
  - intros k Hk. unfold configuring.localStore. cbn [snd]. rewrite Hcfg.
    by apply fold_insert_other.
  - unfold configuring.localStore. cbn [snd]. clear.
    generalize (localStore g). intros l. revert g.
    induction l as [|[k v] l IH] using rev_ind; intros g Hl; [done|].
    rewrite fold_left_app. cbn [fold_left fs config config_set fst].
    by rewrite lookup_insert_eq.
Qed.

(** ** The files written by [writing] *)

Section writing_steps.
Context (w : world) (g : generator).

Lemma readme_run :
  writing.readme w g = (Ok tt, fill w "_README.md" "README.md" g).
Proof.
  unfold writing.readme, Fs.exists_, fill. run_steps.
  by case_bool_decide.
Qed.

Lemma authors_run :
  writing.authors w g = (Ok tt, fill w "_AUTHORS" "AUTHORS" g).
Proof.
  unfold writing.authors, Fs.exists_, fill. run_steps.
  by case_bool_decide.
Qed.

Lemma main_run (main : string) :
  field (context g) "main" = VStr main ->
  writing.main w g = (Ok tt, fill w "index.js" main g).
Proof.
  intros Hmain. unfold writing.main, writing.main_path, Fs.exists_, fill.
  run_steps. rewrite Hmain. by case_bool_decide.
Qed.

Lemma test_run :
  writing.test w g
  = (Ok tt,
     if bool_decide (is_Some (fs g !! destinationPath w (writing.test_path g)))
     then g
     else put_template w "test/setup.js" "test/setup.js"
            (put_template w "test/test.js" (writing.test_path g) g)).
Proof.
  unfold writing.test, Fs.exists_. run_steps. by case_bool_decide.
Qed.

Lemma fill_state (from to : string) :
  fill w from to g = set_fs (fs (fill w from to g)) g.
Proof. unfold fill. case_bool_decide; [by destruct g|done]. Qed.



Lemma fill_elsewhere (from to q : string) :
  q <> destinationPath w to -> fs (fill w from to g) !! q = fs g !! q.
Proof.
  intros Hq. unfold fill. case_bool_decide as Hthere; [done|].
  cbn [put_template put_file set_fs fs]. by apply lookup_insert_ne.
Qed.

End writing_steps.

Lemma test_path_not_setup (g : generator) :
  writing.test_path g <> "test/setup.js".
Proof.
  unfold writing.test_path, testDir. intros Heq.
  apply (inj (String.app "test")) in Heq.
  apply (inj (String.app "/")) in Heq.
  assert (to_string (field (context g) "packageName") = "") as Hempty.
  { apply (f_equal String.length) in Heq. rewrite append_length in Heq.
    simpl in Heq.
    destruct (to_string (field (context g) "packageName")); [done|].
    simpl in Heq. lia. }
  by rewrite Hempty in Heq.
Qed.

Lemma test_path_below (g : generator) (n : string) :
  starts_with "test/" n = false -> writing.test_path g <> n.
Proof.
  intros Hn <-. unfold writing.test_path, testDir, starts_with in Hn.
  generalize dependent (to_string (field (context g) "packageName")).
  intros pkg Hn. by cbv in Hn.
Qed.

Lemma fill_context (w : world) (from to : string) (s : generator) :
  context (fill w from to s) = context s.
Proof. unfold fill. by case_bool_decide. Qed.

Lemma fill_test_path (w : world) (from to : string) (s : generator) :
  writing.test_path (fill w from to s) = writing.test_path s.
Proof. unfold writing.test_path. by rewrite fill_context. Qed.

Section writing_run.
Context (w : world) (g : generator) (main : string).
Hypothesis Hmain : field (context g) "main" = VStr main.

Lemma before_test_context : context (before_test w g main) = context g.
Proof. unfold before_test. by rewrite !fill_context. Qed.

Lemma before_test_path :
  writing.test_path (before_test w g main) = writing.test_path g.
Proof. unfold before_test. by rewrite !fill_test_path. Qed.

Lemma writing_run_test :
  writing.run w g = writing.test w (before_test w g main).
Proof.
  assert (field (context (fill w "_AUTHORS" "AUTHORS"
                            (fill w "_README.md" "README.md" g))) "main"
          = VStr main) as Hmain' by (by rewrite !fill_context).
  unfold writing.run, before_test.
  rewrite (seq_ok _ _ _ _ (readme_run w _)).
  rewrite (seq_ok _ _ _ _ (authors_run w _)).
  by rewrite (seq_ok _ _ _ _ (main_run w _ main Hmain')).
Qed.

Lemma before_test_elsewhere (q : string) :
  q <> destinationPath w "README.md" -> q <> destinationPath w "AUTHORS" ->
  q <> destinationPath w main ->
  fs (before_test w g main) !! q = fs g !! q.
Proof.
  intros H1 H2 H3. unfold before_test. by rewrite !fill_elsewhere.
Qed.


End writing_run.


(** X21.  When the test of the package is missing, [writing] of
    [app/index.js] renders it, and renders [test/setup.js] with it,
    whatever [test/setup.js] held.  The main file and the test are
    supposed to be given by plain paths, and to be two files. *)
Theorem writing_test_with_setup (w : world) (g : generator) (main : string) :
  field (context g) "main" = VStr main ->
  plain_path main = true ->
  plain_path (writing.test_path g) = true ->
  fs g !! destinationPath w (writing.test_path g) = None ->
  main <> writing.test_path g ->
  (writing.run w g).1 = Ok tt /\
  fs (writing.run w g).2 !! destinationPath w (writing.test_path g)
  = Some (render w (template w "test/test.js") (context g)) /\
  fs (writing.run w g).2 !! destinationPath w "test/setup.js"
  = Some (render w (template w "test/setup.js") (context g)).
Proof.
  intros Hmain _ _ Habsent Hne.
  rewrite (writing_run_test w g main Hmain), test_run.
  rewrite before_test_path, before_test_elsewhere, Habsent.
  2-4: intros Heq%destinationPath_inj.
  2-3: by apply (test_path_below g) in Heq.
  2: done.
  rewrite bool_decide_eq_false_2 by (by intros [c Hc]).
  split; [done|]. cbn [snd put_template put_file set_fs fs context].
  rewrite before_test_context. split.
  - rewrite lookup_insert_ne, lookup_insert_eq; [done|].
    intros Heq%destinationPath_inj. symmetry in Heq.
    by apply test_path_not_setup in Heq.
  - by rewrite lookup_insert_eq.
Qed.

Lemma writing_test_with_setup_witness :
  fs WritingSamples.resumed !! "/home/ann/widget/test/setup.js"
  = Some "my setup" /\
  fs (writing.run WritingSamples.quiet WritingSamples.resumed).2
    !! destinationPath WritingSamples.quiet "test/setup.js"
  = Some "<test/setup.js>widget".
Proof.
  split; [reflexivity|].
  destruct (writing_test_with_setup WritingSamples.quiet
              WritingSamples.resumed "index.js") as (_ & _ & Hsetup);
    [reflexivity|reflexivity|reflexivity|reflexivity|discriminate
    |exact Hsetup].
Defined.



(** X23.  The other variant has no guard: with a main file named in the
    context its phase [writing] renders the test and, unless it is the same
    file, the main file, whatever was there, and touches no other file.
    The main file and the test are supposed to be given by plain paths. *)
Theorem alt_writing_overwrites (w : world) (g : generator) (main : string) :
  field (context g) "main" = VStr main ->
  plain_path main = true ->
  plain_path (writing.test_path g) = true ->
  (Alt.writing.run w g).1 = Ok tt /\
  fs (Alt.writing.run w g).2 !! destinationPath w (writing.test_path g)
  = Some (render w (template w "test/test.js") (context g)) /\
  (main <> writing.test_path g ->
   fs (Alt.writing.run w g).2 !! destinationPath w main
   = Some (render w (template w "index.js") (context g))) /\
  forall q,
    q <> destinationPath w main ->
    q <> destinationPath w (writing.test_path g) ->
    fs (Alt.writing.run w g).2 !! q = fs g !! q.
Proof.
  intros Hmain _ _.
  unfold Alt.writing.run, Alt.writing.main, Alt.writing.test,
    writing.main_path, Fs.copyTpl, Fs.write.
  run_steps. rewrite Hmain. cbn [fst snd context set_fs fs].
  split; [done|]. split; [by rewrite lookup_insert_eq|]. split.
  - intros Hne. rewrite lookup_insert_ne, lookup_insert_eq; [done|].
    intros Heq%destinationPath_inj. by symmetry in Heq.
  - intros q Hq1 Hq2. by rewrite !lookup_insert_ne.
Qed.

Lemma alt_writing_overwrites_witness :
  fs WritingSamples.resumed !! "/home/ann/widget/index.js" = Some "my code" /\
  fs (Alt.writing.run WritingSamples.quiet WritingSamples.resumed).2
    !! destinationPath WritingSamples.quiet "index.js"
  = Some "<index.js>widget".
Proof.
  split; [reflexivity|].
  destruct (alt_writing_overwrites WritingSamples.quiet
              WritingSamples.resumed "index.js" eq_refl eq_refl eq_refl)
    as (_ & _ & Hindex & _).
  apply Hindex. discriminate.
Defined.

(** X24.  When [this.context.main] is not a string (the manifest gave a
    number, say), joining the destination path throws a [TypeError]: in
    [app/index.js] after [README.md] and [AUTHORS] were seen to, in the
    other variant before anything is written; in neither is a test
    rendered. *)
Theorem writing_main_not_string (w : world) (g : generator) :
  (forall main, field (context g) "main" <> VStr main) ->
  exists msg,
    writing.run w g
    = (Throw (TypeError msg),
       fill w "_AUTHORS" "AUTHORS" (fill w "_README.md" "README.md" g)) /\
    Alt.writing.run w g = (Throw (TypeError msg), g).
Proof.
  intros Hmain.
  assert (forall s, context s = context g ->
            exists msg, writing.main w s = (Throw (TypeError msg), s) /\
                        writing.main_path s = Throw (TypeError msg)) as Hthrows.
  { intros s Hs. unfold writing.main, writing.main_path. run_steps.
    rewrite Hs.
    destruct (field (context g) "main") as [| |b|n|m|l|ps]; try by eexists.
    by destruct (Hmain m). }
  destruct (Hthrows (fill w "_AUTHORS" "AUTHORS"
                        (fill w "_README.md" "README.md" g)))
    as (msg & Hrun & Hpath); [by rewrite !fill_context|].
  exists msg. split.
  - unfold writing.run.
    rewrite (seq_ok _ _ _ _ (readme_run w _)).
    rewrite (seq_ok _ _ _ _ (authors_run w _)).
    run_steps. by rewrite Hrun.
  - unfold writing.main_path in Hpath. rewrite !fill_context in Hpath.
    unfold Alt.writing.run, Alt.writing.main, writing.main_path. run_steps.
    by rewrite Hpath.
Qed.

Lemma writing_main_not_string_witness :
  exists msg,
    Alt.writing.run WritingSamples.quiet WritingSamples.numbered
    = (Throw (TypeError msg), WritingSamples.numbered).
Proof.
  destruct (writing_main_not_string WritingSamples.quiet
              WritingSamples.numbered) as (msg & _ & Halt);
    [discriminate|by exists msg].
Defined.

(** ** What a phase leaves alone *)

Section leaves.
Context {B : Type} (part : generator -> B).

Lemma leaves_same {A} (m : step A) :
  (forall g, (m g).2 = g) -> leaves part m.
Proof. intros Hm g. by rewrite Hm. Qed.

Lemma leaves_update (f : generator -> generator) :
  (forall g, part (f g) = part g) -> leaves part (update f).
Proof. intros Hf g. apply Hf. Qed.

Lemma leaves_bind {A C} (m : step A) (k : A -> step C) :
  leaves part m -> (forall a, leaves part (k a)) -> leaves part (m ≫= k).
Proof.
  intros Hm Hk g. specialize (Hm g). run_steps.
  destruct (m g) as [[a|e] g1]; cbn [snd] in *; [|done].
  by rewrite (Hk a g1).
Qed.

Lemma leaves_read_bind {A C} (f : generator -> A) (k : A -> step C) :
  (forall g0, leaves part (k (f g0))) -> leaves part (read f ≫= k).
Proof. intros Hk g. apply (Hk g g). Qed.

Lemma leaves_try_catch (body : step unit) (handler : exn -> step unit) :
  leaves part body -> (forall e, leaves part (handler e)) ->
  leaves part (try_catch body handler).
Proof.
  intros Hbody Hhandler g. specialize (Hbody g). unfold try_catch.
  destruct (body g) as [[[]|e] g1]; cbn [snd] in *; [done|].
  by rewrite (Hhandler e g1).
Qed.

Lemma leaves_readJSON (w : world) (path : string) (defaults : value) :
  leaves part (initializing.readJSON w path defaults).
Proof.
  apply leaves_same. intros g. unfold initializing.readJSON.
  destruct (fs g !! path); [|done]. by destruct (JSON_parse w _).
Qed.

Lemma leaves_ask (w : world) (qs : list Prompt.question)
    (answers : list (string * value)) :
  Forall (fun q => forall v, leaves part (Prompt.filter q v)) qs ->
  leaves part (Prompt.ask w qs answers).
Proof.
  revert answers. induction qs as [|q qs IH]; intros answers Hqs.
  - by apply leaves_same.
  - apply Forall_cons in Hqs as [Hq Hqs]. cbn [Prompt.ask].
    destruct (Prompt.when q answers); [|by apply IH].
    apply leaves_bind; [apply Hq|]. intros _.
    apply leaves_bind; [apply Hq|]. intros v. by apply IH.
Qed.

Lemma leaves_localStore (w : world) :
  (forall k v g, part (config_set w k v g) = part g) ->
  leaves part (configuring.localStore w).
Proof.
  intros Hset g. unfold configuring.localStore. cbn [snd].
  generalize (localStore g). intros l. revert g.
  induction l as [|[k v] l IH]; intros g; [done|].
  cbn [fold_left]. by rewrite IH, Hset.
Qed.
End leaves.

(** The head of an application. *)
Ltac head_of t :=
  lazymatch t with
  | ?f _ => head_of f
  | _ => t
  end.

(** One step towards [leaves part m], by the shape of [m]. *)
Ltac leaves_step :=
  lazymatch goal with
  | |- leaves _ (mbind _ (read _)) => apply leaves_read_bind; intros ?
  | |- leaves _ (mbind _ _) => apply leaves_bind; [|intros ?]
  | |- leaves _ (try_catch _ _) => apply leaves_try_catch; [|intros ?]
  | |- leaves _ (mret _) => by apply leaves_same
  | |- leaves _ (ret _) => by apply leaves_same
  | |- leaves _ (read _) => by apply leaves_same
  | |- leaves _ (lift _) => by apply leaves_same
  | |- leaves _ (throw _) => by apply leaves_same
  | |- leaves _ (fun _ => _) => by apply leaves_same
  | |- leaves _ (update _) => apply leaves_update; intros ?; reflexivity
  | |- leaves _ (configuring.localStore _) =>
      apply leaves_localStore; intros; reflexivity
  | |- leaves _ (initializing.readJSON _ _ _) => apply leaves_readJSON
  | |- leaves _ (Prompt.ask _ _ _) => apply leaves_ask
  | |- leaves _ (Prompt.filter _ _) =>
      cbn [Prompt.filter prompting.load_previous prompting.plain
           prompting.kept prompting.genNpmKey_question
           prompting.npmApiKey_question]
  | |- leaves _ (match ?x with _ => _ end) => destruct x
  | |- leaves _ ?m => let h := head_of m in progress unfold h
  | |- Forall _ [] => apply Forall_nil_2
  | |- Forall _ (_ :: _) => apply Forall_cons_2; [intros ?|]
  | |- Forall _ (map _ ?l) =>
      first [progress cbn [map]|let h := head_of l in progress unfold h]
  | |- Forall _ ?l => let h := head_of l in progress unfold h
  end.

Ltac leaves := repeat leaves_step.

(** One step towards [leaves (fun g => fs g !! q) m], for a path [q] that
    the writes of [m] are seen not to reach. *)
Ltac leaves_file :=
  repeat first
    [ leaves_step
    | apply leaves_update; intros ?; state_simpl;
      rewrite ?lookup_insert_ne by done; reflexivity ].

(** X15.  The prompts of either variant, returning or throwing, leave
    [this.conf] and the installs requested as they are, and of the files
    they change none but the file of the preference store, [.yo-rc.json],
    and the file of the host's prompt store: what the operator answers
    reaches the context, the answers kept for the store, the two stores,
    the log and the encryption service only. *)
Theorem prompting_spares (w : world) :
  (leaves conf (prompting.run w) /\ leaves installs (prompting.run w) /\
   forall q, q <> destinationPath w ".yo-rc.json" ->
             q <> globalConfigPath w ->
             leaves (fun g => fs g !! q) (prompting.run w)) /\
  (leaves conf (Alt.prompting.run w) /\
   leaves installs (Alt.prompting.run w) /\
   forall q, q <> destinationPath w ".yo-rc.json" ->
             q <> globalConfigPath w ->
             leaves (fun g => fs g !! q) (Alt.prompting.run w)).
Proof.
  split; (split; [by leaves|split; [by leaves|]]); intros q Hq1 Hq2;
    by leaves_file.
Qed.

(** X25.  Initializing changes neither the files nor the store; the
    phase [configuring] changes neither [this.conf] nor the log; [writing]
    changes the files and nothing else; [install] changes neither the
    files, the store nor the context.  And no phase but the prompts hands
    anything to the encryption service, none but [install] requests an
    install. *)
Theorem phases_apart (w : world) :
  (leaves fs (initializing.run w) /\ leaves config (initializing.run w) /\
   leaves encrypted (initializing.run w) /\
   leaves installs (initializing.run w)) /\
  (leaves conf (configuring.run w) /\ leaves logged (configuring.run w) /\
   leaves encrypted (configuring.run w) /\
   leaves installs (configuring.run w)) /\
  (leaves conf (writing.run w) /\ leaves context (writing.run w) /\
   leaves config (writing.run w) /\ leaves logged (writing.run w) /\
   leaves encrypted (writing.run w) /\ leaves installs (writing.run w)) /\
  (leaves conf (install.run w) /\ leaves context (install.run w) /\
   leaves config (install.run w) /\ leaves fs (install.run w) /\
   leaves encrypted (install.run w)).
Proof.
  split; [|split; [|split]].
  - split; [|split; [|split]]; by leaves.
  - split; [|split; [|split]]; by leaves.
  - split; [|split; [|split; [|split; [|split]]]]; by leaves.
  - split; [|split; [|split; [|split]]]; by leaves.
Qed.

(** *** The Dependency Installer *)

(** X26.  A run of the installer of [app/index.js] returns.  It always
    asks for [istanbul], [mocha], [chai], [jshint] with [jshint-stylish],
    [jscs] and [pre-commit]; for [gulp] exactly when the flag [gulpfile]
    is set, for [karma] exactly when [browser] is; and the one package it
    saves as a dependency proper is [bluebird]. *)
Theorem install_tools (w : world) (g : generator) :
  exists calls,
    (install.run w g).1 = Ok tt /\
    installs (install.run w g).2 = installs g ++ calls /\
    (forall pkg,
       In pkg ["istanbul"; "mocha"; "chai"; "jshint"; "jshint-stylish";
               "jscs"; "pre-commit"] ->
       In pkg (flat_map fst calls)) /\
    (In "gulp" (flat_map fst calls)
     <-> truthy (field (context g) "gulpfile") = true) /\
    (In "karma" (flat_map fst calls)
     <-> truthy (field (context g) "browser") = true) /\
    (forall pkgs k, In (pkgs, k) calls -> k = save -> pkgs = ["bluebird"]).
Proof.
  destruct (install_run_calls w g) as [Hok Hcalls].
  exists (install_calls w g). split; [done|]. split; [done|].
  unfold install_calls.
  destruct (truthy (field (context g) "promises")),
    (truthy (field (context g) "gulpfile")),
    (truthy (field (context g) "browser"));
    cbn [app flat_map fst];
    (split; [|split; [|split]]);
    try (intros pkg Hpkg; cbn [In] in *; intuition (subst; tauto));
    try (cbn [In]; intuition discriminate);
    intros pkgs k Hin ->; cbn [In] in Hin;
    repeat (destruct Hin as [Hin|Hin]; [by injection Hin as <-|]); done.
Qed.

(** X27.  When the directory [.git/hooks] cannot be made the error is
    logged and [pre-commit] is asked for all the same; the installer logs
    nothing else. *)
Theorem install_precommit (w : world) (g : generator) :
  logged (install.run w g).2
  = logged g ++ match mkdirp w (destinationPath w ".git/hooks") with
                | Some err => [err]
                | None => []
                end /\
  In (["pre-commit"], saveDev) (installs (install.run w g).2).
Proof.
  split.
  - unfold install.run, install.promises, install.istanbul, install.mocha,
      install.chai, install.jshint, install.jscs, install.precommit,
      install.gulp, install.karma, install.flag.
    run_steps. destruct g as [cf cx ls cg f lg en cw ins]. simpl.
    destruct (truthy (field cx "promises")) eqn:Hp,
      (mkdirp w (destinationPath w ".git/hooks")) eqn:Hm,
      (truthy (field cx "gulpfile")) eqn:Hg,
      (truthy (field cx "browser")) eqn:Hb;
      repeat (progress (simpl; rewrite ?Hp, ?Hm, ?Hg, ?Hb));
      by rewrite ?app_nil_r.
  - destruct (install_run_calls w g) as [_ ->]. apply in_or_app. right.
    unfold install_calls. apply in_or_app. right.
    apply in_or_app. right. apply in_or_app. right.
    apply in_or_app. left. cbn [In]. tauto.
Qed.

(** *** The encryption service over a whole run *)

Section sends.

Lemma sends_leaves {A} (m : step A) : leaves encrypted m -> sends 0 m.
Proof. intros Hm g. exists []. by rewrite Hm, app_nil_r. Qed.

Lemma sends_bind {A B} (a b : nat) (m : step A) (k : A -> step B) :
  sends a m -> (forall x, sends b (k x)) -> sends (a + b) (m ≫= k).
Proof.
  intros Hm Hk g. destruct (Hm g) as (l & Hl & Hlen). run_steps.
  destruct (m g) as [[x|e] g1]; cbn [snd] in *.
  - destruct (Hk x g1) as (l' & Hl' & Hlen'). exists (l ++ l').
    rewrite Hl', Hl, <-app_assoc. split; [done|].
    rewrite length_app. lia.
  - exists l. split; [done|lia].
Qed.

Lemma sends_read_bind {A B} (n : nat) (f : generator -> A)
    (k : A -> step B) :
  (forall g0, sends n (k (f g0))) -> sends n (read f ≫= k).
Proof. intros Hk g. apply (Hk g g). Qed.

Lemma sends_genNpmKey (w : world) : sends 1 (prompting.genNpmKey w).
Proof.
  unfold prompting.genNpmKey. apply sends_read_bind. intros g0.
  apply (sends_bind 0 1); [apply sends_leaves; by leaves|]. intros ans.
  unfold prompting.genNpmKey_callback.
  destruct (negb (truthy (assoc "npmApiKey" ans))).
  - intros g. exists []. split; [by rewrite app_nil_r|simpl; lia].
  - intros g. run_steps. eexists [_]. split; [|simpl; lia].
    unfold prompting.encrypted_callback. by destruct (encrypt w _ _).
Qed.
End sends.

(** X28.  Over a whole run of either variant, completed or cut short by a
    throw, at most one text is handed to the encryption service. *)
Theorem one_credential (w : world) :
  sends 1 (generate w) /\ sends 1 (Alt.generate w).
Proof.
  split.
  - unfold generate.
    apply (sends_bind 0 1); [apply sends_leaves; by leaves|]. intros _.
    apply (sends_bind 1 0); [|intros _; apply sends_leaves; by leaves].
    unfold prompting.run.
    apply (sends_bind 0 1); [apply sends_leaves; by leaves|]. intros _.
    apply (sends_bind 0 1); [apply sends_leaves; by leaves|]. intros _.
    apply sends_genNpmKey.
  - unfold Alt.generate.
    apply (sends_bind 0 1); [apply sends_leaves; by leaves|]. intros _.
    apply (sends_bind 1 0); [|intros _; apply sends_leaves; by leaves].
    unfold Alt.prompting.run.
    apply (sends_bind 0 1); [apply sends_leaves; by leaves|]. intros _.
    apply sends_genNpmKey.
Qed.

(** ** The author record in the context (C10) *)

Section author_record.

Lemma url_serialized_part (g g' : generator) :
  author_part g' = author_part g -> url_serialized g -> url_serialized g'.
Proof.
  unfold author_part, url_serialized. cbn [map].
  by intros [= -> -> -> ->].
Qed.

Lemma url_serialized_answers (ans : list (string * value)) (g : generator) :
  field (context g) "authorName" = assoc "authorName" ans ->
  field (context g) "authorEmail" = assoc "authorEmail" ans ->
  field (context g) "authorUrl" = assoc "authorUrl" ans ->
  prompting.authorJSON ans = Ok (field (context g) "authorJSON") ->
  url_serialized g.
Proof.
  intros Hname Hemail Hurl Hjson. unfold url_serialized.
  rewrite Hname, Hemail, Hurl.
  destruct (authorJSON_text ans) as [Hfalsy Hstring]. split.
  - intros Hu. destruct (Hfalsy Hu) as (text & Htext & Hrecord).
    exists text. split; [done|]. congruence.
  - intros s Hs Hne. specialize (Hstring s Hs Hne). congruence.
Qed.

(** [objectAssign] of answers with distinct names puts each answer under
    its name and leaves the other names alone. *)
Lemma assign_other (c : gmap string value) (l : list (string * value))
    (k : string) :
  ~ In k (map fst l) -> assign c l !! k = c !! k.
Proof.
  revert c. unfold assign.
  induction l as [|[k' v'] l IH]; intros c Hk; [done|].
  cbn [fold_left fst snd map In] in *. rewrite IH by tauto.
  apply lookup_insert_ne. tauto.
Qed.

Lemma assign_answer (c : gmap string value) (l : list (string * value))
    (k : string) :
  NoDup (map fst l) -> In k (map fst l) ->
  assign c l !! k = Some (assoc k l).
Proof.
  revert c. unfold assign.
  induction l as [|[k' v'] l IH]; intros c Hdup Hk; [done|].
  cbn [fold_left fst snd map assoc] in *.
  apply NoDup_cons in Hdup as [Hfirst Hdup].
  destruct (String.eqb_spec k k') as [->|Hne].
  - pose proof (assign_other (<[k' := v']> c) l k') as Hother.
    unfold assign in Hother. rewrite Hother, lookup_insert_eq; [done|].
    by rewrite <-list_elem_of_In.
  - apply IH; [done|]. destruct Hk as [->|Hk]; [done|done].
Qed.
End author_record.

(** *** What the later steps leave of it *)

Section author_kept.

Lemma author_part_context (g g' : generator) :
  context g' = context g -> author_part g' = author_part g.
Proof. unfold author_part. by intros ->. Qed.

Lemma author_part_assign (l : list (string * value)) (g g' : generator) :
  context g' = assign (context g) l ->
  Forall (fun k => ~ In k (map fst l))
         ["authorName"; "authorEmail"; "authorUrl"; "authorJSON"] ->
  author_part g' = author_part g.
Proof.
  intros Hctx Hkeys. unfold author_part. rewrite Hctx.
  apply map_ext_Forall. eapply Forall_impl; [apply Hkeys|].
  intros k Hk. cbv beta. unfold field. by rewrite assign_other.
Qed.

Lemma author_part_insert (k : string) (v : value) (g : generator) :
  ~ In k ["authorName"; "authorEmail"; "authorUrl"; "authorJSON"] ->
  author_part (set_context (<[k := v]> (context g)) g) = author_part g.
Proof.
  intros Hk. unfold author_part. apply map_ext_in. intros k' Hk'.
  cbn [context set_context]. unfold field.
  rewrite lookup_insert_ne; [done|]. by intros ->.
Qed.

Lemma leaves_author_part {A} (m : step A) :
  leaves context m -> leaves author_part m.
Proof. intros Hm g. apply author_part_context, Hm. Qed.

End author_kept.

Ltac other_key :=
  cbn [In]; intros Hkey;
  repeat (destruct Hkey as [Hkey|Hkey]; [discriminate Hkey|]); exact Hkey.

(** One step towards [leaves author_part m]: as for any part, but that an
    assignment to another key of the context is let through. *)
Ltac leaves_author :=
  repeat first
    [ leaves_step
    | apply leaves_update; intros ?; apply author_part_insert; other_key ].

Section author_run.
Context (w : world).

Lemma name_fields_author (ans : list (string * value)) :
  leaves author_part (prompting.name_fields ans).
Proof. by leaves_author. Qed.

Lemma general_author : leaves author_part (prompting.general w).
Proof.
  intros g. rewrite general_run. etrans; [apply name_fields_author|].
  eapply author_part_assign; [reflexivity|].
  unfold general_answers, prompting.general_questions,
    prompting.general_literal.
  cbn [map fst Prompt.name prompting.load_previous prompting.plain].
  repeat first [apply Forall_nil_2 | apply Forall_cons_2; [other_key|]].
Qed.

Lemma genNpmKey_author : leaves author_part (prompting.genNpmKey w).
Proof.
  intros g. destruct (prompting.genNpmKey w g) as [r g'] eqn:Hrun.
  apply genNpmKey_frame in Hrun as (Hctx & _). by apply author_part_context.
Qed.

Lemma configuring_author : leaves author_part (configuring.run w).
Proof. by leaves_author. Qed.

Lemma alt_configuring_author : leaves author_part (Alt.configuring.run w).
Proof. by leaves_author. Qed.

Lemma writing_author : leaves author_part (writing.run w).
Proof. apply leaves_author_part. by leaves. Qed.

Lemma alt_writing_author : leaves author_part (Alt.writing.run w).
Proof. apply leaves_author_part. by leaves. Qed.

Lemma install_author : leaves author_part (install.run w).
Proof. apply leaves_author_part. by leaves. Qed.

Lemma alt_install_author : leaves author_part Alt.install.run.
Proof. apply leaves_author_part. by leaves. Qed.

End author_run.

Section author_serialized.
Context (w : world).

Lemma serialized_kept {A} (m : step A) (g : generator) :
  leaves author_part m -> url_serialized g -> url_serialized (m g).2.
Proof. intros Hm. apply url_serialized_part, Hm. Qed.

(** When a step that completes leaves the record serialized and the steps
    after it leave the author's part of the context alone, the record is
    serialized after them all. *)
Lemma serialized_seq (m k : step unit) (g : generator) :
  ((m g).1 = Ok tt -> url_serialized (m g).2) ->
  leaves author_part k ->
  ((m;; k) g).1 = Ok tt -> url_serialized ((m;; k) g).2.
Proof.
  intros Hm Hk. run_steps.
  destruct (m g) as [[[]|e] g1]; cbn [fst snd] in *; [|done].
  intros _. apply serialized_kept; [done|]. by apply Hm.
Qed.

Lemma serialized_later (m k : step unit) (g : generator) :
  (forall g1, (k g1).1 = Ok tt -> url_serialized (k g1).2) ->
  ((m;; k) g).1 = Ok tt -> url_serialized ((m;; k) g).2.
Proof.
  intros Hk. run_steps.
  destruct (m g) as [[[]|e] g1]; cbn [fst snd] in *; [|done]. apply Hk.
Qed.

Lemma author_fields_serialized (ans : list (string * value))
    (g : generator) :
  exists json,
    prompting.authorJSON ans = Ok json /\
    prompting.author_fields ans g
    = (Ok tt,
       set_context (<["authorStr" := prompting.authorStr ans]>
                      (<["authorJSON" := json]> (context g))) g).
Proof.
  destruct (authorJSON_returns ans) as [text Htext]. exists (VStr text).
  split; [done|].
  unfold prompting.author_fields, prompting.context_set.
  rewrite Htext. by run_steps.
Qed.

(** The context that holds the answers and then the two texts. *)
Lemma serialized_in_context (ans : list (string * value))
    (c : gmap string value) (g : generator) (json : value) :
  prompting.authorJSON ans = Ok json ->
  Forall (fun k => c !! k = Some (assoc k ans))
         ["authorName"; "authorEmail"; "authorUrl"] ->
  context g = <["authorStr" := prompting.authorStr ans]>
                (<["authorJSON" := json]> c) ->
  url_serialized g.
Proof.
  intros Hjson Hc Hctx.
  apply Forall_cons in Hc as [Hname Hc].
  apply Forall_cons in Hc as [Hemail Hc].
  apply Forall_cons in Hc as [Hurl _].
  apply (url_serialized_answers ans); rewrite Hctx; unfold field;
    lookup_inserts; by rewrite ?Hname, ?Hemail, ?Hurl.
Qed.

Lemma author_serialized (g : generator) :
  (prompting.author w g).1 = Ok tt /\
  url_serialized (prompting.author w g).2.
Proof.
  unfold prompting.author. run_steps.
  destruct (author_prompt w g g) as [files ->].
  match goal with
  | |- context [prompting.author_fields ?ans ?s] =>
      destruct (author_fields_serialized ans s) as (json & Hjson & ->)
  end.
  split; [done|]. cbn [snd].
  eapply serialized_in_context; [apply Hjson| |reflexivity].
  unfold prompting.author_questions.
  cbn [map Prompt.name prompting.kept context set_context set_fs].
  repeat first
    [ apply Forall_nil_2
    | apply Forall_cons_2;
      [apply assign_answer; cbn [map fst];
       [compute_done|cbn [In]; tauto]|] ].
Qed.

End author_serialized.

Section alt_author_serialized.
Context (w : world).

Lemma alt_general_serialized (g : generator) :
  (Alt.prompting.general w g).1 = Ok tt ->
  url_serialized (Alt.prompting.general w g).2.
Proof.
  unfold Alt.prompting.general. run_steps.
  destruct (alt_general_prompt w g g) as [files ->].
  cbv iota.
  match goal with
  | |- context [prompting.name_fields ?ans ?s] =>
      destruct (prompting.name_fields ans s) as [[[]|e] g1] eqn:Hnames;
      [apply name_fields_ok in Hnames as (libName & _ & ->)|done]
  end.
  match goal with
  | |- context [prompting.author_fields ?ans ?s] =>
      destruct (author_fields_serialized ans s) as (json & Hjson & ->)
  end.
  intros _. cbn [snd].
  eapply serialized_in_context; [apply Hjson| |reflexivity].
  cbn [context set_context].
  repeat first
    [ apply Forall_nil_2
    | apply Forall_cons_2;
      [lookup_inserts; apply assign_answer;
       unfold alt_general_answers, Alt.prompting.general_questions;
       cbn [map fst Prompt.name prompting.plain prompting.kept];
       [compute_done|cbn [In]; tauto]|] ].
Qed.
End alt_author_serialized.

(** C10.  After the step [author], which always returns, after a run of
    [app/index.js] that completes, after the round of questions of the
    other variant when it returns and after a run of that variant that
    completes, the context holds the author record serialized from the
    author answers it holds: when the answer for the URL is falsy (empty or
    absent) [authorJSON] is the text of the record of name and email, with
    no [url] member; when it is a non-empty string the text ends with the
    member [url] holding that string. *)
Theorem authorJSON_url (w : world) (g : generator) :
  ((prompting.author w g).1 = Ok tt /\
   url_serialized (prompting.author w g).2) /\
  ((generate w g).1 = Ok tt -> url_serialized (generate w g).2) /\
  ((Alt.prompting.general w g).1 = Ok tt ->
   url_serialized (Alt.prompting.general w g).2) /\
  ((Alt.generate w g).1 = Ok tt -> url_serialized (Alt.generate w g).2).
Proof.
  split; [apply author_serialized|]. split; [|split].
  - unfold generate. apply serialized_later. intros g1.
    apply serialized_seq.
    + unfold prompting.run. intros Hrun. revert Hrun. apply serialized_seq.
      * intros _. apply author_serialized.
      * apply leaves_bind; [apply general_author|].
        intros _. apply genNpmKey_author.
    + apply leaves_bind; [apply configuring_author|]. intros _.
      apply leaves_bind; [apply writing_author|]. intros _.
      apply install_author.
  - apply alt_general_serialized.
  - unfold Alt.generate. apply serialized_later. intros g1.
    apply serialized_seq.
    + unfold Alt.prompting.run. intros Hrun. revert Hrun.
      apply serialized_seq.
      * apply alt_general_serialized.
      * apply genNpmKey_author.
    + apply leaves_bind; [apply alt_configuring_author|]. intros _.
      apply leaves_bind; [apply alt_writing_author|]. intros _.
      apply alt_install_author.
Qed.

Lemma authorJSON_url_witness :
  field (context (generate PromptSamples.returning (fresh ∅ ∅)).2)
        "authorJSON"
  = VStr ("{" +:+ newline
          +:+ "    " +:+ Samples.lit "name" +:+ ": " +:+ Samples.lit "Ann"
          +:+ "," +:+ newline
          +:+ "    " +:+ Samples.lit "email" +:+ ": "
          +:+ Samples.lit "ann@oada.org" +:+ newline +:+ "  }") /\
  field (context (Alt.generate PromptSamples.with_page (fresh ∅ ∅)).2)
        "authorJSON"
  = VStr ("{" +:+ newline
          +:+ "    " +:+ Samples.lit "name" +:+ ": " +:+ Samples.lit "Ann"
          +:+ "," +:+ newline
          +:+ "    " +:+ Samples.lit "email" +:+ ": "
          +:+ Samples.lit "ann@oada.org" +:+ "," +:+ newline
          +:+ "    " +:+ Samples.lit "url" +:+ ": "
          +:+ Samples.lit "http://oada.org" +:+ newline +:+ "  }").
Proof.
  split.
  - destruct (authorJSON_url PromptSamples.returning (fresh ∅ ∅))
      as (_ & Hrun & _).
    destruct (Hrun ltac:(vm_compute; reflexivity)) as [Hfalsy _].
    destruct (Hfalsy ltac:(vm_compute; reflexivity)) as (text & Htext & ->).
    vm_compute in Htext. injection Htext as <-. reflexivity.
  - destruct (authorJSON_url PromptSamples.with_page (fresh ∅ ∅))
      as (_ & _ & _ & Hrun).
    destruct (Hrun ltac:(vm_compute; reflexivity)) as [_ Hstring].
    rewrite (Hstring "http://oada.org");
      [vm_compute; reflexivity|vm_compute; reflexivity|discriminate].
Defined.
